(** * SASA-Analysis: the run orchestration of [sasa_lammps/sasa_main.py]

    A shallow embedding of class [Sasa]: the per-task worker [_run_lmp], the
    baseline run [_pre_calc], the task construction and pool dispatch of
    [_exec_lammps_iterations] and the driver [_process], followed by the
    properties of the orchestration engine. *)

From Stdlib Require Import List String Ascii Strings.Byte.
From Stdlib Require Import ZArith NArith Bool Arith Lia.
From Stdlib Require Import PrimFloat Permutation.
From Stdlib Require DecimalString.
Import ListNotations.

Local Open Scope list_scope.
Local Open Scope string_scope.

(** ** Values *)

(** Python floats and numpy [float64] entries are IEEE-754 doubles: the
    primitive type [float]. *)
Definition f0 : float := 0%float.
Definition f1 : float := 1%float.

(** [str(n)] for a non-negative [int], as the f-string [{n_probes}] prints. *)
Definition str_of_nat (n : nat) : string :=
  DecimalString.NilEmpty.string_of_uint (Nat.to_uint n).

Definition nl : string := String (ascii_of_nat 10) EmptyString.
Definition tab : string := String (ascii_of_nat 9) EmptyString.

(** [os.path.join(a, b)] on POSIX paths. *)
Definition ends_with_slash (a : string) : bool :=
  match List.rev (list_ascii_of_string a) with
  | c :: _ => Ascii.eqb c "/"%char
  | [] => false
  end.

Definition os_path_join (a b : string) : string :=
  match b with
  | String c _ =>
      if Ascii.eqb c "/"%char then b
      else if (String.eqb a "" || ends_with_slash a)%bool then a ++ b
      else a ++ "/" ++ b
  | EmptyString =>
      if (String.eqb a "" || ends_with_slash a)%bool then a else a ++ "/"
  end.

(** ** Constants of [sasa_lammps.constants]

    The module is imported with [*]; the orchestration only names these. *)
Record Constants := {
  IN_PRE : string;
  IN_TEMPLATE : string;
  SPEC : string;
  FF_PARAMS : string;
  DUMP_COM : string;
  RESIDUELIST : string;
  KCAL_TO_EV : float
}.

(** ** The [Sasa] object *)

Record Sasa := {
  gro_file : string;
  data_file : string;
  mol_file : string;
  ff_str : string;
  dump_str : string;
  lammps_exe : string;
  n_procs : Z;
  srad : float;
  samples : Z;
  path : string;
  parent_pid : Z
}.

(** ** numpy helpers used by the task construction *)

(** [np.zeros((n, m))]: [n] rows of [m] zeros. *)
Definition np_zeros (n m : nat) : list (list float) :=
  repeat (repeat f0 m) n.

Fixpoint row_add_at (j : nat) (v : float) (row : list float) : list float :=
  match row, j with
  | [], _ => []
  | x :: r, O => (x + v)%float :: r
  | x :: r, S j' => x :: row_add_at j' v r
  end.

(** [a[:, j] += v]. *)
Definition col_add (j : nat) (v : float) (a : list (list float))
  : list (list float) :=
  map (row_add_at j v) a.

(** [zip(a, b, c)]: stops at the shortest argument. *)
Fixpoint zip3 {A B C} (a : list A) (b : list B) (c : list C)
  : list (A * B * C) :=
  match a, b, c with
  | x :: a', y :: b', z :: c' => (x, y, z) :: zip3 a' b' c'
  | _, _, _ => []
  end.

(** One entry of [run_iterable]:
    [[IN_TEMPLATE, pos, rot, atom_number, res, e_mol, e_prob]]. *)
Record task := {
  t_in_file : string;
  t_pos : list float;
  t_rot : list float;
  t_atom_number : Z;
  t_res : Z;
  t_e_mol : float;
  t_e_prob : float
}.

(** The rotations of a probe with at most one atom:
    [np.zeros((n_probes, 4))] followed by [rotations[:, 1] += 1.000]. *)
Definition default_rotations (n_probes : nat) : list (list float) :=
  col_add 1 f1 (np_zeros n_probes 4).

Section TaskBuilder.

Variable K : Constants.

(** The list comprehension over the zip of [iters]. *)
Definition run_iterable (sasa_positions : list (list float))
    (neighbors_res : list Z) (rotations : list (list float))
    (atom_number : Z) (e_mol e_prob : float) : list task :=
  map (fun '(pos, res, rot) =>
         {| t_in_file := IN_TEMPLATE K; t_pos := pos; t_rot := rot;
            t_atom_number := atom_number; t_res := res;
            t_e_mol := e_mol; t_e_prob := e_prob |})
      (zip3 sasa_positions neighbors_res rotations).

End TaskBuilder.

(** [rot[0]] is the rotation angle, [rot[1..3]] the rotation vector. *)
Definition rot_angle (rot : list float) : option float := nth_error rot 0.
Definition rot_axis (rot : list float) : option (float * float * float) :=
  match rot with
  | _ :: x :: y :: z :: _ => Some (x, y, z)
  | _ => None
  end.

(** ** The external evaluator and the worker's effects *)

(** What [subprocess.run(..., capture_output=True)] observes of one LAMMPS
    process: exit status and the two captured byte streams. *)
Record CompletedProcess := {
  returncode : Z;
  stdout : list byte;
  stderr : list byte
}.

Inductive exn :=
| CalledProcessError (p : CompletedProcess)
| UnicodeDecodeError
| UnicodeEncodeError
| ProcessLookupError
| KeyboardInterrupt
| IndexError
| ValueError
| CollaboratorError (who : string).

Inductive result (A : Type) :=
| Ok (a : A)
| Raise (e : exn).
Arguments Ok {A} a.
Arguments Raise {A} e.

Inductive signum := SIGINT | SIGTERM.

(** The values [_run_lmp] substitutes into its command line
    ([mpirun -np 1 <exe> -in <in_file> -var ...]), one field per
    replacement field of the f-string. The text the shell is given is not
    followed: there the floats appear with three decimals ([:.3f]), and
    the shell splits the line into words. *)
Record lmp_cmd := {
  c_exe : string;
  c_in : string;
  c_DataFile : string;
  c_MolFile : string;
  c_sasaX : float;
  c_sasaY : float;
  c_sasaZ : float;
  c_rotAng : float;
  c_rotVecX : float;
  c_rotVecY : float;
  c_rotVecZ : float;
  c_atom_number : Z;
  c_res : Z;
  c_emol : float;
  c_eprob : float;
  c_conv : float
}.

(** Programs of a process that may block on the evaluator: the effects
    [_run_lmp] performs, with the continuation after each. Printing and
    signalling can fail: the continuation is given the outcome. *)
Inductive io (A : Type) : Type :=
| Ret (a : A)
| Throw (e : exn)
| SubprocessRun (c : lmp_cmd) (k : CompletedProcess -> io A)
| PrintLine (s : string) (k : result unit -> io A)
| OsKill (pid : Z) (sig : signum) (k : result unit -> io A).
Arguments Ret {A} a.
Arguments Throw {A} e.
Arguments SubprocessRun {A} c k.
Arguments PrintLine {A} s k.
Arguments OsKill {A} pid sig k.

Fixpoint bind {A B} (m : io A) (f : A -> io B) : io B :=
  match m with
  | Ret a => f a
  | Throw e => Throw e
  | SubprocessRun c k => SubprocessRun c (fun p => bind (k p) f)
  | PrintLine s k => PrintLine s (fun r => bind (k r) f)
  | OsKill pid sig k => OsKill pid sig (fun r => bind (k r) f)
  end.

Notation "x <- m ;; k" := (bind m (fun x => k))
  (at level 61, m at next level, right associativity).
Notation "m ;;; k" := (bind m (fun _ => k))
  (at level 61, right associativity).

(** [try: m except <the exceptions h selects>: h e]. An exception the
    handler does not select, or one raised by the handler, propagates. *)
Fixpoint try_except {A} (m : io A) (h : exn -> option (io A)) : io A :=
  match m with
  | Ret a => Ret a
  | Throw e => match h e with Some m' => m' | None => Throw e end
  | SubprocessRun c k => SubprocessRun c (fun p => try_except (k p) h)
  | PrintLine s k => PrintLine s (fun r => try_except (k r) h)
  | OsKill pid sig k => OsKill pid sig (fun r => try_except (k r) h)
  end.

(** The outcome of an effect that returns nothing: go on, or raise. *)
Definition returned (r : result unit) : io unit :=
  match r with Ok _ => Ret tt | Raise e => Throw e end.

(** [print(s)]: raises, for instance [UnicodeEncodeError], when the
    standard output cannot take the text. *)
Definition print_line (s : string) : io unit := PrintLine s returned.

(** [os.kill(pid, sig)]: raises, for instance [ProcessLookupError], when
    there is no such process. *)
Definition os_kill (pid : Z) (sig : signum) : io unit :=
  OsKill pid sig returned.

(** [subprocess.run(cmd, shell=True, check=True, capture_output=True)]. *)
Definition subprocess_run (c : lmp_cmd) (check : bool)
  : io CompletedProcess :=
  SubprocessRun c (fun p =>
    if (check && negb (returncode p =? 0)%Z)%bool
    then Throw (CalledProcessError p) else Ret p).

(** ** [bytes.decode()]: strict UTF-8 *)

Definition byte_in (lo hi : N) (b : byte) : bool :=
  ((lo <=? Byte.to_N b) && (Byte.to_N b <=? hi))%N.

Definition is_cont : byte -> bool := byte_in 128 191.

Fixpoint utf8_valid (l : list byte) : bool :=
  match l with
  | [] => true
  | b0 :: r =>
      if byte_in 0 127 b0 then utf8_valid r
      else if byte_in 194 223 b0 then
        match r with
        | b1 :: r1 => is_cont b1 && utf8_valid r1
        | _ => false
        end
      else if byte_in 224 239 b0 then
        match r with
        | b1 :: b2 :: r2 =>
            (if byte_in 224 224 b0 then byte_in 160 191 b1
             else if byte_in 237 237 b0 then byte_in 128 159 b1
             else is_cont b1)
            && is_cont b2 && utf8_valid r2
        | _ => false
        end
      else if byte_in 240 244 b0 then
        match r with
        | b1 :: b2 :: b3 :: r3 =>
            (if byte_in 240 240 b0 then byte_in 144 191 b1
             else if byte_in 244 244 b0 then byte_in 128 143 b1
             else is_cont b1)
            && is_cont b2 && is_cont b3 && utf8_valid r3
        | _ => false
        end
      else false
  end.

(** The decoded text is kept in its UTF-8 byte form. *)
Definition bytes_decode {A} (b : list byte) (k : string -> io A) : io A :=
  if utf8_valid b then k (string_of_list_byte b) else Throw UnicodeDecodeError.

(** ** [Sasa._run_lmp] *)

(** [l[i]] on a Python list. *)
Definition index (l : list float) (i : nat) : result float :=
  match nth_error l i with
  | Some x => Ok x
  | None => Raise IndexError
  end.

Section Worker.

Variable K : Constants.

(** The replacement fields of the f-string [cmd], evaluated left to
    right: the values, before they are formatted. *)
Definition lmp_command (self : Sasa) (in_file : string) (pos rot : list float)
    (atom_number res : Z) (e_mol e_prob : float) : result lmp_cmd :=
  match index pos 0, index pos 1, index pos 2,
        index rot 0, index rot 1, index rot 2, index rot 3 with
  | Ok x, Ok y, Ok z, Ok a, Ok vx, Ok vy, Ok vz =>
      Ok {| c_exe := lammps_exe self; c_in := in_file;
            c_DataFile := data_file self; c_MolFile := mol_file self;
            c_sasaX := x; c_sasaY := y; c_sasaZ := z;
            c_rotAng := a; c_rotVecX := vx; c_rotVecY := vy; c_rotVecZ := vz;
            c_atom_number := atom_number; c_res := res;
            c_emol := e_mol; c_eprob := e_prob; c_conv := KCAL_TO_EV K |}
  | _, _, _, _, _, _, _ => Raise IndexError
  end.

(** The [except subprocess.CalledProcessError as exc] clause. *)
Definition on_called_process_error (self : Sasa) (exc : exn)
  : option (io unit) :=
  match exc with
  | CalledProcessError p =>
      Some (bytes_decode (stdout p) (fun s =>
              print_line s ;;; os_kill (parent_pid self) SIGINT))
  | _ => None
  end.

(** What [_run_lmp] does once the command line is built. *)
Definition run_lmp_body (self : Sasa) (cmd : lmp_cmd) : io Z :=
  try_except (subprocess_run cmd true ;;; Ret tt)
             (on_called_process_error self) ;;;
  Ret 0%Z.

Definition _run_lmp (self : Sasa) (in_file : string) (pos rot : list float)
    (atom_number res : Z) (e_mol e_prob : float) : io Z :=
  match lmp_command self in_file pos rot atom_number res e_mol e_prob with
  | Ok cmd => run_lmp_body self cmd
  | Raise e => Throw e
  end.

End Worker.

(** ** The collaborators and the process environment *)

(** The structured array returned by [_neighbor_finder]; the orchestration
    reads its field [res]. *)
Record Neighbors := { nb_res : list Z }.

(** Calls into [gro2lammps], [helper], [conversion] and [postprocessing]. *)
Inductive ext_call :=
| Gro2lammps (path gro data : string)
| CheckFiles (path : string)
| WriteParamsFile (s file : string)
| ReadLastTwo (path key : string)
| ConvertDataFile (path data : string)
| CreateSasaXyz (path xyz : string) (srad : float) (samples : Z)
| NeighborFinder (path data : string) (positions : list (list float))
| CountAtomsInMacromol (file : string)
| CountAtomsInMol (file : string)
| RotateProbe (path data : string) (positions : list (list float))
              (nb : Neighbors)
| Postprocessing (name : string).

Definition ext_ret (c : ext_call) : Type :=
  match c with
  | ReadLastTwo _ _ => (float * float)%type
  | ConvertDataFile _ _ => string
  | CreateSasaXyz _ _ _ _ => list (list float)
  | NeighborFinder _ _ _ => Neighbors
  | CountAtomsInMacromol _ => Z
  | CountAtomsInMol _ => Z
  | RotateProbe _ _ _ _ => list (list float)
  | _ => unit
  end.

(** The moves of the pool's environment while the parent waits in
    [starmap]: a free worker takes the next queued task, the evaluator of a
    busy worker exits, a pending [SIGINT] is handled by the parent, the
    operator interrupts the parent. *)
Inductive choice :=
| Take
| Finish (slot : nat)
| Deliver
| Operator.

(** Everything the run does not decide itself. The [n]-th evaluator process
    started during the run exits as [w_lammps n cmd] says; [w_print s] is
    what [print(s)] does on the standard output of the run, and
    [w_kill pid sig] what [os.kill(pid, sig)] does for a process other than
    the orchestrating one. *)
Record world := {
  w_pid : Z;
  w_extern : forall c : ext_call, result (ext_ret c);
  w_lammps : nat -> lmp_cmd -> CompletedProcess;
  w_row : nat -> lmp_cmd -> option string;
  w_schedule : list choice;
  w_print : string -> result unit;
  w_kill : Z -> signum -> result unit
}.

Inductive proc := Main | Worker (task_index : nat).

Inductive handler := default_int_handler | SIG_IGN.

Inductive event :=
| EvCall (c : ext_call)
| EvWrite (file content : string)
| EvSignal (h : handler)
| EvPool (processes : Z)
| EvInvoke (who : proc) (c : lmp_cmd)
| EvExit (who : proc) (p : CompletedProcess)
| EvRow (who : proc) (row : string)
| EvPrint (who : proc) (s : string)
| EvKill (who : proc) (pid : Z) (sig : signum)
| EvOperator
| EvTerminate
| EvClose.

(** State of the orchestrating process: what has happened so far, the
    disposition of [SIGINT], and how many evaluator processes were started. *)
Record pstate := {
  trace : list event;
  sigint : handler;
  invocations : nat
}.

Definition initial : pstate :=
  {| trace := []; sigint := default_int_handler; invocations := 0 |}.

Definition emit (e : event) (st : pstate) : pstate :=
  {| trace := trace st ++ [e]; sigint := sigint st;
     invocations := invocations st |}.

Definition is_default (h : handler) : bool :=
  match h with default_int_handler => true | SIG_IGN => false end.

Definition is_sigint (s : signum) : bool :=
  match s with SIGINT => true | SIGTERM => false end.

Section Run.

Variable K : Constants.
Variable W : world.

(** Modelled from the spec: the LAMMPS input templates, which write the
    result records, are not part of the sources. An invocation that exits
    with status 0 appends its record, if it produces one, to the output
    file; a failed invocation appends none. *)
Definition evaluator_exit (who : proc) (n : nat) (c : lmp_cmd)
    (st : pstate) : pstate :=
  let p := w_lammps W n c in
  let st1 := emit (EvExit who p) st in
  if (returncode p =? 0)%Z then
    match w_row W n c with
    | Some row => emit (EvRow who row) st1
    | None => st1
    end
  else st1.

Definition start_evaluator (who : proc) (c : lmp_cmd) (st : pstate)
  : pstate :=
  {| trace := trace st ++ [EvInvoke who c]; sigint := sigint st;
     invocations := S (invocations st) |}.

(** ** The orchestrating process *)

Definition M (A : Type) : Type := pstate -> pstate * result A.

Definition ret {A} (a : A) : M A := fun st => (st, Ok a).
Definition raise {A} (e : exn) : M A := fun st => (st, Raise e).
Definition mbind {A B} (m : M A) (f : A -> M B) : M B :=
  fun st => match m st with
            | (st', Ok a) => f a st'
            | (st', Raise e) => (st', Raise e)
            end.

Definition extern (c : ext_call) : M (ext_ret c) :=
  fun st => (emit (EvCall c) st, w_extern W c).

Definition file_write (file content : string) : M unit :=
  fun st => (emit (EvWrite file content) st, Ok tt).

(** [signal.signal(signal.SIGINT, h)] returns the previous handler. *)
Definition signal_signal (h : handler) : M handler :=
  fun st => ({| trace := trace st ++ [EvSignal h]; sigint := h;
                invocations := invocations st |}, Ok (sigint st)).

Definition log (e : event) : M unit := fun st => (emit e st, Ok tt).

(** What [os.kill(pid, sig)] does: the orchestrating process exists while
    the run lasts, so a signal for it is always sent; for any other pid the
    environment decides. *)
Definition kill_outcome (pid : Z) (sig : signum) : result unit :=
  if (pid =? w_pid W)%Z then Ok tt else w_kill W pid sig.

(** The event of an effect that was carried out; a failed one leaves no
    trace. *)
Definition emit_done (r : result unit) (e : event) (st : pstate) : pstate :=
  match r with Ok _ => emit e st | Raise _ => st end.

(** A program run by the orchestrating process itself. A [SIGINT] it sends
    to its own pid is handled when [os.kill] returns: under the default
    handler that raises [KeyboardInterrupt] in place. *)
Fixpoint run_main {A} (m : io A) (st : pstate) : pstate * result A :=
  match m with
  | Ret a => (st, Ok a)
  | Throw e => (st, Raise e)
  | SubprocessRun c k =>
      let n := invocations st in
      run_main (k (w_lammps W n c))
               (evaluator_exit Main n c (start_evaluator Main c st))
  | PrintLine s k =>
      let r := w_print W s in
      run_main (k r) (emit_done r (EvPrint Main s) st)
  | OsKill pid sig k =>
      let r := kill_outcome pid sig in
      let st1 := emit_done r (EvKill Main pid sig) st in
      if ((pid =? w_pid W)%Z && is_sigint sig && is_default (sigint st))%bool
      then (st1, Raise KeyboardInterrupt)
      else run_main (k r) st1
  end.

Notation "x <~ m ;; k" := (mbind m (fun x => k))
  (at level 61, m at next level, right associativity).
Notation "m ~> k" := (mbind m (fun _ => k))
  (at level 61, right associativity).

(** [try: m except <selected by h>: h e else: els]. *)
Definition try_except_else {A B} (m : M A) (h : exn -> option (M B))
    (els : A -> M B) : M B :=
  fun st => match m st with
            | (st', Ok a) => els a st'
            | (st', Raise e) =>
                match h e with
                | Some m' => m' st'
                | None => (st', Raise e)
                end
            end.

(** ** The worker pool *)

(** [multiprocessing.Pool] as the scheduler uses it: the tasks wait in
    submission order, each of the [processes] workers takes one task at a
    time and blocks in [subprocess.run] until its evaluator exits, and the
    parent waits in [starmap] until every task has reported. A [SIGINT]
    sent to the parent stays pending until the parent handles it; handling
    it raises [KeyboardInterrupt] inside [starmap]. In which order these
    things happen is up to the environment: the schedule of the world.

    The pool is followed until the parent leaves [starmap]. Between a
    [KeyboardInterrupt] there and their termination the workers run on,
    and a further failure with readable output sends a further [SIGINT],
    which the [except] clause does not catch; this is not followed. What
    is stated about the outcome of an interrupted run is therefore limited
    to runs with a single interrupt; what is stated about runs without an
    interrupt, and about what never happens, is not affected. *)

(** A busy worker: the task it runs, the evaluator process it waits for and
    what it does when that process exits. *)
Record job := {
  j_idx : nat;
  j_inv : nat;
  j_cmd : lmp_cmd;
  j_k : CompletedProcess -> io Z
}.

Record pool := {
  p_queue : list (nat * io Z);
  p_running : list job;
  p_results : list (nat * result Z);
  p_pending : bool;
  p_raised : bool;
  p_st : pstate
}.

Definition set_st (f : pstate -> pstate) (pl : pool) : pool :=
  {| p_queue := p_queue pl; p_running := p_running pl;
     p_results := p_results pl; p_pending := p_pending pl;
     p_raised := p_raised pl; p_st := f (p_st pl) |}.

Definition set_queue (q : list (nat * io Z)) (pl : pool) : pool :=
  {| p_queue := q; p_running := p_running pl;
     p_results := p_results pl; p_pending := p_pending pl;
     p_raised := p_raised pl; p_st := p_st pl |}.

Definition set_running (js : list job) (pl : pool) : pool :=
  {| p_queue := p_queue pl; p_running := js;
     p_results := p_results pl; p_pending := p_pending pl;
     p_raised := p_raised pl; p_st := p_st pl |}.

Definition add_result (i : nat) (r : result Z) (pl : pool) : pool :=
  {| p_queue := p_queue pl; p_running := p_running pl;
     p_results := p_results pl ++ [(i, r)]; p_pending := p_pending pl;
     p_raised := p_raised pl; p_st := p_st pl |}.

Definition set_pending (b : bool) (pl : pool) : pool :=
  {| p_queue := p_queue pl; p_running := p_running pl;
     p_results := p_results pl; p_pending := b;
     p_raised := p_raised pl; p_st := p_st pl |}.

Definition set_raised (pl : pool) : pool :=
  {| p_queue := p_queue pl; p_running := p_running pl;
     p_results := p_results pl; p_pending := false;
     p_raised := true; p_st := p_st pl |}.

(** [os.kill(pid, sig)] from a worker, when the signal was sent: a [SIGINT]
    for the orchestrating process becomes pending there unless it ignores
    the signal. *)
Definition signal_parent (pid : Z) (sig : signum) (pl : pool) : pool :=
  if ((pid =? w_pid W)%Z && is_sigint sig
      && is_default (sigint (p_st pl)))%bool
  then set_pending true pl else pl.

(** Worker [i] runs [m]. With [block] it stops at the next evaluator call
    and stays busy; without, every evaluator call returns at once and the
    program runs to its end. *)
Fixpoint work (block : bool) (i : nat) (m : io Z) (pl : pool) : pool :=
  match m with
  | Ret a => add_result i (Ok a) pl
  | Throw e => add_result i (Raise e) pl
  | SubprocessRun c k =>
      let n := invocations (p_st pl) in
      let pl1 := set_st (start_evaluator (Worker i) c) pl in
      if block then
        set_running
          (p_running pl1 ++ [{| j_idx := i; j_inv := n; j_cmd := c;
                                j_k := k |}]) pl1
      else
        work block i (k (w_lammps W n c))
             (set_st (evaluator_exit (Worker i) n c) pl1)
  | PrintLine s k =>
      let r := w_print W s in
      work block i (k r) (set_st (emit_done r (EvPrint (Worker i) s)) pl)
  | OsKill pid sig k =>
      let r := kill_outcome pid sig in
      work block i (k r)
           (match r with
            | Ok _ =>
                signal_parent pid sig
                  (set_st (emit (EvKill (Worker i) pid sig)) pl)
            | Raise _ => pl
            end)
  end.

(** The evaluator process of job [j] exits and the worker goes on. *)
Definition resume (block : bool) (j : job) (pl : pool) : pool :=
  work block (j_idx j) (j_k j (w_lammps W (j_inv j) (j_cmd j)))
       (set_st (evaluator_exit (Worker (j_idx j)) (j_inv j) (j_cmd j)) pl).

Fixpoint remove_nth {A} (n : nat) (l : list A) : list A :=
  match l, n with
  | [], _ => []
  | _ :: r, O => r
  | x :: r, S n' => x :: remove_nth n' r
  end.

Definition is_nil {A} (l : list A) : bool :=
  match l with [] => true | _ :: _ => false end.

(** The parent is still inside [starmap]: no [KeyboardInterrupt] was raised
    there, and either results are outstanding or a [SIGINT] is pending. *)
Definition waiting (pl : pool) : bool :=
  negb (p_raised pl)
  && (negb (is_nil (p_queue pl) && is_nil (p_running pl)) || p_pending pl).

Definition pool_step (size : nat) (c : choice) (pl : pool) : pool :=
  if waiting pl then
    match c with
    | Take =>
        match p_queue pl with
        | (i, m) :: q =>
            if (List.length (p_running pl) <? size)%nat
            then work true i m (set_queue q pl) else pl
        | [] => pl
        end
    | Finish slot =>
        match nth_error (p_running pl) slot with
        | Some j =>
            resume true j (set_running (remove_nth slot (p_running pl)) pl)
        | None => pl
        end
    | Deliver => if p_pending pl then set_raised pl else pl
    | Operator =>
        let pl1 := set_st (emit EvOperator) pl in
        if is_default (sigint (p_st pl)) then set_pending true pl1 else pl1
    end
  else pl.

(** When the schedule is used up the pool finishes its work in order, one
    task at a time; a pending [SIGINT] is handled before anything else. *)
Fixpoint drain_running (js : list job) (pl : pool) : pool :=
  match js with
  | [] => pl
  | j :: js' =>
      if p_pending pl then pl
      else drain_running js' (resume false j (set_running js' pl))
  end.

Fixpoint drain_queue (q : list (nat * io Z)) (pl : pool) : pool :=
  match q with
  | [] => pl
  | (i, m) :: q' =>
      if p_pending pl then pl
      else drain_queue q' (work false i m (set_queue q' pl))
  end.

Definition drain (pl : pool) : pool :=
  if p_raised pl then pl
  else
    let pl1 := drain_running (p_running pl) pl in
    let pl2 := drain_queue (p_queue pl1) pl1 in
    if p_pending pl2 then set_raised pl2 else pl2.

Definition pool_run (size : nat) (schedule : list choice) (pl : pool)
  : pool :=
  drain (fold_left (fun pl c => pool_step size c pl) schedule pl).

Definition indexed {A} (l : list A) : list (nat * A) :=
  combine (seq 0 (List.length l)) l.

Fixpoint first_failure (rs : list (nat * result Z)) : option exn :=
  match rs with
  | [] => None
  | (_, Raise e) :: _ => Some e
  | (_, Ok _) :: r => first_failure r
  end.

Definition value_of (rs : list (nat * result Z)) (i : nat) : list Z :=
  match find (fun r => (fst r =? i)%nat) rs with
  | Some (_, Ok v) => [v]
  | _ => []
  end.

(** What [starmap] gives the parent: [KeyboardInterrupt] if the signal was
    handled there; else, once all tasks are done, the first exception a
    worker reported, or the return values in task order. *)
Definition starmap_result (n : nat) (pl : pool) : result (list Z) :=
  if p_raised pl then Raise KeyboardInterrupt
  else match first_failure (p_results pl) with
       | Some e => Raise e
       | None => Ok (flat_map (value_of (p_results pl)) (seq 0 n))
       end.

Definition submit (f : task -> io Z) (tasks : list task) (st : pstate)
  : pool :=
  {| p_queue := indexed (map f tasks); p_running := []; p_results := [];
     p_pending := false; p_raised := false; p_st := st |}.

(** [pool.starmap(f, tasks, chunksize=1)]. *)
Definition pool_starmap (processes : Z) (f : task -> io Z)
    (tasks : list task) : M (list Z) :=
  fun st =>
    let pl := pool_run (Z.to_nat processes) (w_schedule W)
                       (submit f tasks st) in
    (p_st pl, starmap_result (List.length tasks) pl).

(** [with Pool(processes=n) as pool: body]; leaving the block terminates
    the pool. *)
Definition with_pool {A} (processes : Z) (body : M A) : M A :=
  if (processes <? 1)%Z then raise ValueError
  else fun st =>
         match body (emit (EvPool processes) st) with
         | (st', r) => (emit EvTerminate st', r)
         end.

(** ** [Sasa._pre_calc] *)

Definition _pre_calc (self : Sasa) : M (float * float) :=
  run_main (_run_lmp K self (IN_PRE K) [f0; f0; f0] [f0; f1; f0; f0]
                     0%Z 0%Z f0 f0) ~>
  e <~ extern (ReadLastTwo (path self) "etot") ;;
  ret e.

(** ** [Sasa._exec_lammps_iterations] *)

Definition header (n_probes : nat) : string :=
  str_of_nat n_probes ++ nl ++ "atom" ++ tab ++ "x" ++ tab ++ "y" ++ tab
  ++ "z" ++ tab ++ "res" ++ tab ++ "etot/eV" ++ tab ++ "eint/eV" ++ nl.

(** [starmap] calls [self._run_lmp] on the unpacked entry. *)
Definition apply_task (self : Sasa) (t : task) : io Z :=
  _run_lmp K self (t_in_file t) (t_pos t) (t_rot t) (t_atom_number t)
           (t_res t) (t_e_mol t) (t_e_prob t).

(** [self.rotations]: computed by [_rotate_probe] for a probe of more than
    one atom, the fixed rows otherwise. *)
Definition rotations_for (self : Sasa) (sasa_positions : list (list float))
    (neighbors : Neighbors) (n_probes : nat) (atoms_in_mol : Z)
  : M (list (list float)) :=
  if (atoms_in_mol >? 1)%Z then
    extern (RotateProbe (path self) (data_file self) sasa_positions neighbors)
  else ret (default_rotations n_probes).

Definition on_keyboard_interrupt (e : exn) : option (M unit) :=
  match e with
  | KeyboardInterrupt => Some (log EvTerminate)
  | _ => None
  end.

(** [self.sasa_positions] and [self.neighbors], set by [_process], are
    passed along explicitly. *)
Definition _exec_lammps_iterations (self : Sasa)
    (sasa_positions : list (list float)) (neighbors : Neighbors)
    (n_probes : nat) (e_mol e_prob : float) : M Z :=
  atom_number <~ extern (CountAtomsInMacromol
                           (os_path_join (path self) (data_file self))) ;;
  file_write (os_path_join (path self) (SPEC K)) (header n_probes) ~>
  n <~ extern (CountAtomsInMol (os_path_join (path self) (mol_file self))) ;;
  rotations <~ rotations_for self sasa_positions neighbors n_probes n ;;
  let tasks := run_iterable K sasa_positions (nb_res neighbors) rotations
                            atom_number e_mol e_prob in
  original_sigint_handler <~ signal_signal SIG_IGN ;;
  with_pool (n_procs self)
    (signal_signal original_sigint_handler ~>
     try_except_else (pool_starmap (n_procs self) (apply_task self) tasks)
                     on_keyboard_interrupt
                     (fun _ => log EvClose)) ~>
  ret 0%Z.

(** ** [Sasa._process] and [sasa] *)

Definition _process (self : Sasa) : M Z :=
  extern (Gro2lammps (path self) (gro_file self) (data_file self)) ~>
  extern (CheckFiles (path self)) ~>
  extern (WriteParamsFile (ff_str self) (FF_PARAMS K)) ~>
  extern (WriteParamsFile (dump_str self) (DUMP_COM K)) ~>
  e <~ _pre_calc self ;;
  xyz_file <~ extern (ConvertDataFile (path self) (data_file self)) ;;
  sasa_positions <~ extern (CreateSasaXyz (path self) xyz_file (srad self)
                                          (samples self)) ;;
  let n_probes := List.length sasa_positions in
  neighbors <~ extern (NeighborFinder (path self) (data_file self)
                                      sasa_positions) ;;
  _exec_lammps_iterations self sasa_positions neighbors n_probes
                          (fst e) (snd e) ~>
  extern (Postprocessing "neighbor_analysis") ~>
  extern (Postprocessing "atom_analysis") ~>
  extern (Postprocessing "atom_analysis_plot") ~>
  extern (Postprocessing "residuelist") ~>
  extern (Postprocessing "residue_analysis") ~>
  extern (Postprocessing "residue_analysis_plot") ~>
  ret 0%Z.

(** The constructor records [os.getpid()] as [parent_pid]. *)
Definition Sasa_init (gro data mol ff dump exe : string) (procs : Z)
    (rad : float) (smp : Z) (dir : string) : Sasa :=
  {| gro_file := gro; data_file := data; mol_file := mol; ff_str := ff;
     dump_str := dump; lammps_exe := exe; n_procs := procs; srad := rad;
     samples := smp; path := dir; parent_pid := w_pid W |}.

Definition sasa (gro data mol ff dump exe : string) (procs : Z)
    (rad : float) (smp : Z) (dir : string) : M Z :=
  _process (Sasa_init gro data mol ff dump exe procs rad smp dir) ~>
  ret 0%Z.

End Run.

(** ** Observations on a run *)

Definition is_invoke (e : event) : bool :=
  match e with EvInvoke _ _ => true | _ => false end.

Definition is_task_invoke (e : event) : bool :=
  match e with EvInvoke (Worker _) _ => true | _ => false end.

Definition is_write (e : event) : bool :=
  match e with EvWrite _ _ => true | _ => false end.

Definition is_row (e : event) : bool :=
  match e with EvRow _ _ => true | _ => false end.

Definition is_signal_sent (e : event) : bool :=
  match e with EvKill _ _ _ => true | _ => false end.

Definition is_print (e : event) : bool :=
  match e with EvPrint _ _ => true | _ => false end.

Definition is_close (e : event) : bool :=
  match e with EvClose => true | _ => false end.

Definition count (f : event -> bool) (tr : list event) : nat :=
  List.length (filter f tr).

(** Did the scheduler leave [starmap] through the [else] branch? *)
Definition pool_closed (tr : list event) : bool := existsb is_close tr.

(** Modelled from the spec: the LAMMPS template that writes the records is
    not part of the sources. The output file as the run leaves it: the
    header is written with mode [w], and each record an evaluator produces
    is appended to the same file. *)
Definition record_event (file : string) (content : string) (e : event)
  : string :=
  match e with
  | EvWrite f c => if String.eqb f file then c else content
  | EvRow _ row => content ++ row
  | _ => content
  end.

Definition output_content (file : string) (tr : list event) : string :=
  fold_left (record_event file) tr "".

(** A rotation vector LAMMPS rejects: all three components are zero. *)
Definition is_zero_vector (v : float * float * float) : bool :=
  match v with
  | (x, y, z) => (PrimFloat.eqb x 0 && PrimFloat.eqb y 0
                  && PrimFloat.eqb z 0)%bool
  end.

(** The events a program can cause when process [who] runs it all satisfy
    [P]. *)
Fixpoint io_emits {A} (P : event -> Prop) (who : proc) (m : io A) : Prop :=
  match m with
  | Ret _ => True
  | Throw _ => True
  | SubprocessRun c k =>
      P (EvInvoke who c) /\ (forall p, P (EvExit who p))
      /\ (forall row, P (EvRow who row)) /\ forall p, io_emits P who (k p)
  | PrintLine s k => P (EvPrint who s) /\ forall r, io_emits P who (k r)
  | OsKill pid sig k =>
      P (EvKill who pid sig) /\ forall r, io_emits P who (k r)
  end.

(** [st'] continues [st] by events that satisfy [P]. *)
Definition extends (P : event -> Prop) (st st' : pstate) : Prop :=
  exists evs, trace st' = (trace st ++ evs)%list /\ Forall P evs.

Definition job_emits (P : event -> Prop) (j : job) : Prop :=
  (forall p, P (EvExit (Worker (j_idx j)) p))
  /\ (forall row, P (EvRow (Worker (j_idx j)) row))
  /\ forall p, io_emits P (Worker (j_idx j)) (j_k j p).

Definition pool_emits (P : event -> Prop) (st0 : pstate) (pl : pool)
  : Prop :=
  extends P st0 (p_st pl)
  /\ Forall (fun q => io_emits P (Worker (fst q)) (snd q)) (p_queue pl)
  /\ Forall (job_emits P) (p_running pl).

(** Whatever state the computation [m] starts in, it continues it by
    events that satisfy [P]. *)
Definition m_extends {A} (P : event -> Prop) (m : M A) : Prop :=
  forall st, extends P st (fst (m st)).

(** The events of the orchestrating process around the pool. *)
Definition parent_events (P : event -> Prop) : Prop :=
  (forall c, P (EvCall c)) /\ (forall h, P (EvSignal h))
  /\ (forall n, P (EvPool n)) /\ P EvOperator /\ P EvTerminate
  /\ P EvClose.

(** The events of a worker, its evaluator invocations apart. *)
Definition worker_events (P : event -> Prop) (who : proc) : Prop :=
  (forall p, P (EvExit who p)) /\ (forall row, P (EvRow who row))
  /\ (forall s, P (EvPrint who s))
  /\ (forall pid sig, P (EvKill who pid sig)).

(** Task invocations carry the baseline pair [(e_mol, e_prob)]. *)
Definition carries_baseline (e_mol e_prob : float) (e : event) : Prop :=
  match e with
  | EvInvoke (Worker _) c => c_emol c = e_mol /\ c_eprob c = e_prob
  | _ => True
  end.

(** ** The fail-fast invariant of the pool *)

(** What [_run_lmp] does when its evaluator process has exited as [p]. *)
Definition after_exit (self : Sasa) (p : CompletedProcess) : io Z :=
  try_except
    ((if (true && negb (returncode p =? 0)%Z)%bool
      then Throw (CalledProcessError p) else Ret p) ;;; Ret tt)
    (on_called_process_error self) ;;;
  Ret 0%Z.

Definition is_task_exit (e : event) : bool :=
  match e with EvExit (Worker _) _ => true | _ => false end.

Definition is_task_row (e : event) : bool :=
  match e with EvRow (Worker _) _ => true | _ => false end.

(** A task's evaluator exited with a non-zero status. *)
Definition is_failure (e : event) : bool :=
  match e with
  | EvExit (Worker _) p => negb (returncode p =? 0)%Z
  | _ => false
  end.

(** ... and its captured stdout decodes. *)
Definition is_readable_failure (e : event) : bool :=
  match e with
  | EvExit (Worker _) p =>
      negb (returncode p =? 0)%Z && utf8_valid (stdout p)
  | _ => false
  end.

(** The tasks whose evaluator was started, in starting order. *)
Definition started_task (e : event) : list nat :=
  match e with EvInvoke (Worker i) _ => [i] | _ => [] end.

Definition started (tr : list event) : list nat := flat_map started_task tr.

(** What the exit of the [n]-th evaluator process adds to the trace. *)
Definition exit_events (W : world) (who : proc) (n : nat) (c : lmp_cmd)
  : list event :=
  EvExit who (w_lammps W n c)
  :: (if (returncode (w_lammps W n c) =? 0)%Z then
        match w_row W n c with
        | Some row => [EvRow who row]
        | None => []
        end
      else []).

Definition succeeded {A} (r : result A) : bool :=
  match r with Ok _ => true | Raise _ => false end.

(** What [_run_lmp] adds after the exit [p] of its evaluator. *)
Definition handler_events (W : world) (self : Sasa) (who : proc)
    (p : CompletedProcess) : list event :=
  if (returncode p =? 0)%Z then []
  else if utf8_valid (stdout p) then
    match w_print W (string_of_list_byte (stdout p)) with
    | Ok _ =>
        EvPrint who (string_of_list_byte (stdout p))
        :: match kill_outcome W (parent_pid self) SIGINT with
           | Ok _ => [EvKill who (parent_pid self) SIGINT]
           | Raise _ => []
           end
    | Raise _ => []
    end
  else [].

(** The state of the pool after the events [evs] of [starmap] over [n]
    tasks of [self], with [inflight] evaluators started by workers that
    are not listed as busy. If [print] never raises, a failure with
    readable output has left an interrupt pending or raised. *)
Definition fail_fast_inv (K : Constants) (W : world) (self : Sasa)
    (n inflight : nat) (evs : list event) (pl : pool) : Prop :=
  sigint (p_st pl) = default_int_handler
  /\ Forall (fun q => exists t, snd q = apply_task K self t) (p_queue pl)
  /\ Forall (fun j => j_k j = after_exit self) (p_running pl)
  /\ ((forall s, w_print W s = Ok tt) ->
      existsb is_readable_failure evs = true ->
      (p_pending pl || p_raised pl)%bool = true)
  /\ count is_task_row evs + count is_failure evs <= count is_task_exit evs
  /\ count is_task_exit evs + List.length (p_running pl) + inflight
     = count is_task_invoke evs
  /\ count is_task_invoke evs + List.length (p_queue pl) <= n
  /\ NoDup (started evs ++ map fst (p_queue pl)).

(** The pool has reached such a state from the parent state [st0]. *)
Definition fail_fast (K : Constants) (W : world) (self : Sasa) (n : nat)
    (st0 : pstate) (pl : pool) : Prop :=
  exists evs,
    trace (p_st pl) = (trace st0 ++ evs)%list
    /\ fail_fast_inv K W self n 0 evs pl.

(** Events that are neither a worker's evaluator start, exit or record
    nor the closing of the pool. *)
Definition quiet (e : event) : bool :=
  negb (is_task_invoke e || is_task_exit e || is_task_row e || is_close e).

(** What the scheduler makes of the outcome of [starmap]: the [else]
    branch closes the pool, the [except] branch terminates it, any other
    exception passes; leaving the [with] block terminates the pool. *)
Definition after_starmap (r : pstate * result (list Z)) : pstate * result Z :=
  match snd r with
  | Ok _ => (emit EvTerminate (emit EvClose (fst r)), Ok 0%Z)
  | Raise KeyboardInterrupt =>
      (emit EvTerminate (emit EvTerminate (fst r)), Ok 0%Z)
  | Raise e => (emit EvTerminate (fst r), Raise e)
  end.

(** ** Sample runs *)

(** Values for the constants in the sample runs; [spec.xyz] is the file
    name the comment in [_exec_lammps_iterations] gives. *)
Definition demo_constants : Constants :=
  {| IN_PRE := "in.pre"; IN_TEMPLATE := "in.template"; SPEC := "spec.xyz";
     FF_PARAMS := "ff.params"; DUMP_COM := "dump.com";
     RESIDUELIST := "residuelist.txt";
     KCAL_TO_EV := 0x1.633d1bea4151ep-5%float |}.

Definition exit_ok : CompletedProcess :=
  {| returncode := 0; stdout := []; stderr := [] |}.

(** Exit status 1 with the text [ERROR] on stdout and [lost] on stderr. *)
Definition exit_failed : CompletedProcess :=
  {| returncode := 1; stdout := [x45; x52; x52; x4f; x52];
     stderr := [x6c; x6f; x73; x74] |}.

(** Exit status 1 with a byte on stdout that is not UTF-8. *)
Definition exit_garbled : CompletedProcess :=
  {| returncode := 1; stdout := [xff]; stderr := [] |}.

Definition demo_extern (positions : list (list float)) (res : list Z)
    (atoms_in_mol : Z) (c : ext_call) : result (ext_ret c) :=
  match c return result (ext_ret c) with
  | ReadLastTwo _ _ => Ok (2%float, 3%float)
  | ConvertDataFile _ _ => Ok "macro.xyz"
  | CreateSasaXyz _ _ _ _ => Ok positions
  | NeighborFinder _ _ _ => Ok {| nb_res := res |}
  | CountAtomsInMacromol _ => Ok 5%Z
  | CountAtomsInMol _ => Ok atoms_in_mol
  | RotateProbe _ _ _ _ => Ok []
  | _ => Ok tt
  end.

(** A world whose [n]-th evaluator process exits as [exits n] and whose
    successful task invocations each append the row [row]. *)
Definition demo_world (exits : nat -> CompletedProcess)
    (schedule : list choice) (positions : list (list float))
    (res : list Z) : world :=
  {| w_pid := 4711; w_extern := demo_extern positions res 1;
     w_lammps := fun n _ => exits n;
     w_row := fun _ c =>
                if String.eqb (c_in c) "in.template"
                then Some ("row" ++ nl) else None;
     w_schedule := schedule;
     w_print := fun _ => Ok tt;
     w_kill := fun _ _ => Ok tt |}.

(** The world [W], except that [_count_atoms_in_macromol] raises. *)
Definition count_fails (W : world) : world :=
  {| w_pid := w_pid W;
     w_extern := fun c =>
       match c as c0 return result (ext_ret c0) with
       | CountAtomsInMacromol _ =>
           Raise (CollaboratorError "_count_atoms_in_macromol")
       | c0 => w_extern W c0
       end;
     w_lammps := w_lammps W; w_row := w_row W;
     w_schedule := w_schedule W; w_print := w_print W;
     w_kill := w_kill W |}.

(** The world [W], except that [print] raises [e]. *)
Definition print_raises (e : exn) (W : world) : world :=
  {| w_pid := w_pid W; w_extern := w_extern W; w_lammps := w_lammps W;
     w_row := w_row W; w_schedule := w_schedule W;
     w_print := fun _ => Raise e; w_kill := w_kill W |}.

Definition demo_positions : list (list float) :=
  [[1; 2; 3]; [4; 5; 6]; [7; 8; 9]]%float.

Definition demo_self (W : world) (procs : Z) : Sasa :=
  Sasa_init W "macro.gro" "macro.data" "probe.mol" "ff" "dump" "lmp" procs
            0x1.6666666666666p+0%float 100 ".".

(** The scheduler alone, on the given positions and residues. *)
Definition demo_exec (W : world) (procs : Z) (positions : list (list float))
    (res : list Z) : pstate * result Z :=
  _exec_lammps_iterations demo_constants W (demo_self W procs) positions
    {| nb_res := res |} (List.length positions) 2%float 3%float initial.

Definition demo_sasa (W : world) (procs : Z) : pstate * result Z :=
  sasa demo_constants W "macro.gro" "macro.data" "probe.mol" "ff" "dump"
       "lmp" procs 0x1.6666666666666p+0%float 100 "." initial.

(** One worker runs one program to its end, from an idle pool. *)
Definition idle_pool : pool :=
  {| p_queue := []; p_running := []; p_results := []; p_pending := false;
     p_raised := false; p_st := initial |}.

Definition demo_worker (W : world) : pool :=
  work W false 0
       (_run_lmp demo_constants (demo_self W 1) "in.template"
                 [1; 2; 3]%float [0; 1; 0; 0]%float 5 7 2%float 3%float)
       idle_pool.

(** The command of the only task of a run on the position (1, 2, 3) with
    residue id 7. *)
Definition demo_cmd : lmp_cmd :=
  {| c_exe := "lmp"; c_in := "in.template"; c_DataFile := "macro.data";
     c_MolFile := "probe.mol"; c_sasaX := 1; c_sasaY := 2; c_sasaZ := 3;
     c_rotAng := 0; c_rotVecX := 1; c_rotVecY := 0; c_rotVecZ := 0;
     c_atom_number := 5; c_res := 7; c_emol := 2; c_eprob := 3;
     c_conv := KCAL_TO_EV demo_constants |}.

(** What the workers did, in order: [(i, None)] when the evaluator of task
    [i] is started, [(i, Some status)] when it exits. *)
Definition worker_mark (e : event) : list (nat * option Z) :=
  match e with
  | EvInvoke (Worker i) _ => [(i, None)]
  | EvExit (Worker i) p => [(i, Some (returncode p))]
  | _ => []
  end.

Definition worker_marks (tr : list event) : list (nat * option Z) :=
  flat_map worker_mark tr.

(** The first task fails with garbled output, every other one succeeds. *)
Definition garbled_first (n : nat) : CompletedProcess :=
  match n with O => exit_garbled | _ => exit_ok end.

Definition failed_first (n : nat) : CompletedProcess :=
  match n with O => exit_failed | _ => exit_ok end.

(** The task built from the [i]-th triple of the zip. *)
Definition mk_task (K : Constants) (atom_number : Z) (e_mol e_prob : float)
    (pos : list float) (res : Z) (rot : list float) : task :=
  {| t_in_file := IN_TEMPLATE K; t_pos := pos; t_rot := rot;
     t_atom_number := atom_number; t_res := res;
     t_e_mol := e_mol; t_e_prob := e_prob |}.

(** The command of the baseline run in [_pre_calc]. *)
Definition baseline_cmd (K : Constants) (self : Sasa) : lmp_cmd :=
  {| c_exe := lammps_exe self; c_in := IN_PRE K;
     c_DataFile := data_file self; c_MolFile := mol_file self;
     c_sasaX := f0; c_sasaY := f0; c_sasaZ := f0;
     c_rotAng := f0; c_rotVecX := f1; c_rotVecY := f0; c_rotVecZ := f0;
     c_atom_number := 0; c_res := 0; c_emol := f0; c_eprob := f0;
     c_conv := KCAL_TO_EV K |}.

(** ** Interrupts and the steps before the pool *)

(** An evaluator exit that makes [_run_lmp] print and signal: a non-zero
    status with output that decodes. *)
Definition fails_readably (p : CompletedProcess) : bool :=
  (negb (returncode p =? 0)%Z && utf8_valid (stdout p))%bool.

(** At most one evaluator of the run fails with readable output. *)
Definition single_failure (W : world) : Prop :=
  forall k k' c c',
    fails_readably (w_lammps W k c) = true ->
    fails_readably (w_lammps W k' c') = true -> k = k'.

Definition is_operator_choice (c : choice) : bool :=
  match c with Operator => true | _ => false end.

Definition is_operator (e : event) : bool :=
  match e with EvOperator => true | _ => false end.

(** What the scheduler does itself before the pool exists: collaborator
    calls, the header and the handler changes. *)
Definition is_setup (e : event) : bool :=
  match e with
  | EvCall _ | EvWrite _ _ | EvSignal _ => true
  | _ => false
  end.

(** The pool [pl'] continues [pl]: the parent's handler is the same, an
    interrupt that is pending or was raised stays so, and an interrupt by
    the operator among the new events leaves one pending or raised if the
    handler is the default one. *)
Definition interrupt_step (pl pl' : pool) : Prop :=
  sigint (p_st pl') = sigint (p_st pl)
  /\ ((p_pending pl || p_raised pl)%bool = true ->
      (p_pending pl' || p_raised pl')%bool = true)
  /\ exists new,
       trace (p_st pl') = (trace (p_st pl) ++ new)%list
       /\ (existsb is_operator new = true ->
           sigint (p_st pl) = default_int_handler ->
           (p_pending pl' || p_raised pl')%bool = true).

(** ** A pool that nothing disturbs *)

(** A task whose position and rotation are long enough for the command
    line of [_run_lmp]. *)
Definition well_formed (t : task) : bool :=
  ((3 <=? List.length (t_pos t))%nat && (4 <=? List.length (t_rot t))%nat)%bool.

(** An evaluator exit after which [_run_lmp] sends no signal: the status
    is 0, or the captured stdout does not decode. *)
Definition unsignalled (p : CompletedProcess) : bool :=
  ((returncode p =? 0)%Z || negb (utf8_valid (stdout p)))%bool.

Definition exited_zero (p : CompletedProcess) : bool :=
  (returncode p =? 0)%Z.

(** What a worker reports for an exit after which no signal is sent. *)
Definition report (p : CompletedProcess) : result Z :=
  if (returncode p =? 0)%Z then Ok 0%Z else Raise UnicodeDecodeError.

(** A worker starts an evaluator, or an evaluator exits in a way [ok]
    admits, or appends its record. *)
Definition is_calm (ok : CompletedProcess -> bool) (e : event) : bool :=
  match e with
  | EvInvoke (Worker _) _ => true
  | EvExit (Worker _) p => ok p
  | EvRow (Worker _) _ => true
  | _ => false
  end.

(** The state of the pool after the events [evs] of [starmap] over [n]
    tasks of [self] when no signal was sent and nobody has interrupted,
    with [inflight] evaluators started by workers that are not listed as
    busy: the only exception a worker can have reported is the
    [UnicodeDecodeError] of a failure whose output does not decode. *)
Definition undisturbed (K : Constants) (self : Sasa)
    (ok : CompletedProcess -> bool) (n inflight : nat)
    (evs : list event) (pl : pool) : Prop :=
  p_pending pl = false /\ p_raised pl = false
  /\ Forall (fun q => exists t, snd q = apply_task K self t
                                /\ well_formed t = true) (p_queue pl)
  /\ Forall (fun j => j_k j = after_exit self) (p_running pl)
  /\ first_failure (p_results pl)
     = (if existsb is_failure evs then Some UnicodeDecodeError else None)
  /\ count is_task_exit evs + List.length (p_running pl) + inflight
     = count is_task_invoke evs
  /\ count is_task_invoke evs + List.length (p_queue pl) = n
  /\ Forall (fun e => is_calm ok e = true) evs
  /\ NoDup (started evs ++ map fst (p_queue pl))
  /\ incl (started evs ++ map fst (p_queue pl)) (seq 0 n).

Definition runs_undisturbed (K : Constants) (self : Sasa)
    (ok : CompletedProcess -> bool) (n : nat) (st0 : pstate) (pl : pool)
  : Prop :=
  exists evs,
    trace (p_st pl) = (trace st0 ++ evs)%list
    /\ undisturbed K self ok n 0 evs pl.

(** ** The steps of [_process] around the scheduler *)

(** What the orchestrating process does itself outside the scheduler:
    collaborator calls and the baseline run. *)
Definition is_preparation (e : event) : bool :=
  match e with
  | EvCall _ => true
  | EvInvoke Main _ | EvExit Main _ | EvRow Main _ | EvPrint Main _
  | EvKill Main _ _ => true
  | _ => false
  end.

(** [st'] continues [st] by such steps, under the same handler. *)
Definition prepares (st st' : pstate) : Prop :=
  sigint st' = sigint st
  /\ extends (fun e => is_preparation e = true) st st'.

(** ** Properties *)

Lemma default_rotations_eq n :
  default_rotations n = repeat [f0; f1; f0; f0] n.
Proof.
  unfold default_rotations, col_add, np_zeros.
  induction n as [|n IH]; simpl; [reflexivity|].
  f_equal. exact IH.
Qed.

(** *** The task builder *)

Lemma zip3_length {A B C} (a : list A) (b : list B) (c : list C) :
  List.length (zip3 a b c)
  = Nat.min (List.length a) (Nat.min (List.length b) (List.length c)).
Proof.
  revert b c; induction a as [|x a IH]; intros [|y b] [|z c]; simpl; auto.
Qed.

Lemma zip3_nth {A B C} (a : list A) (b : list B) (c : list C) i :
  nth_error (zip3 a b c) i
  = match nth_error a i, nth_error b i, nth_error c i with
    | Some x, Some y, Some z => Some (x, y, z)
    | _, _, _ => None
    end.
Proof.
  revert b c i; induction a as [|x a IH]; intros b c i.
  - destruct i; reflexivity.
  - destruct b as [|y b].
    + destruct i; simpl; [reflexivity|]. now destruct (nth_error a i).
    + destruct c as [|z c].
      * destruct i; simpl; [reflexivity|].
        destruct (nth_error a i); [|reflexivity].
        now destruct (nth_error b i).
      * destruct i; simpl; [reflexivity|]. apply IH.
Qed.

Lemma zip3_In {A B C} (a : list A) (b : list B) (c : list C) x y z :
  In (x, y, z) (zip3 a b c) -> In x a /\ In y b /\ In z c.
Proof.
  revert b c; induction a as [|x' a IH]; intros [|y' b] [|z' c] H;
    simpl in H; try contradiction.
  destruct H as [H|H].
  - inversion H; subst. simpl; auto.
  - apply IH in H. simpl; tauto.
Qed.

Lemma run_iterable_length K positions res rotations a e1 e2 :
  List.length (run_iterable K positions res rotations a e1 e2)
  = Nat.min (List.length positions)
            (Nat.min (List.length res) (List.length rotations)).
Proof. unfold run_iterable. rewrite length_map. apply zip3_length. Qed.

Lemma run_iterable_nth K positions res rotations a e1 e2 i :
  nth_error (run_iterable K positions res rotations a e1 e2) i
  = match nth_error positions i, nth_error res i, nth_error rotations i with
    | Some pos, Some r, Some rot => Some (mk_task K a e1 e2 pos r rot)
    | _, _, _ => None
    end.
Proof.
  unfold run_iterable. rewrite nth_error_map, zip3_nth.
  destruct (nth_error positions i); [|reflexivity].
  destruct (nth_error res i); [|reflexivity].
  destruct (nth_error rotations i); reflexivity.
Qed.

Lemma run_iterable_In K positions res rotations a e1 e2 t :
  In t (run_iterable K positions res rotations a e1 e2) ->
  exists pos r rot,
    t = mk_task K a e1 e2 pos r rot
    /\ In pos positions /\ In r res /\ In rot rotations.
Proof.
  unfold run_iterable. rewrite in_map_iff.
  intros [[[pos r] rot] [Ht Hin]]. apply zip3_In in Hin.
  exists pos, r, rot. split; [symmetry; exact Ht | exact Hin].
Qed.

Lemma combine_seq_nth {A} (l : list A) k i x :
  nth_error l i = Some x ->
  nth_error (combine (seq k (List.length l)) l) i = Some (k + i, x).
Proof.
  revert k i; induction l as [|y l IH]; intros k [|i] H; simpl in *;
    try discriminate.
  - inversion H; subst. now rewrite Nat.add_0_r.
  - rewrite (IH (S k) i H). f_equal. f_equal. lia.
Qed.

Lemma indexed_nth {A} (l : list A) i x :
  nth_error l i = Some x -> nth_error (indexed l) i = Some (i, x).
Proof. intros H. unfold indexed. now rewrite (combine_seq_nth l 0 i x H). Qed.

Lemma default_rotations_In n rot :
  In rot (default_rotations n) -> rot = [f0; f1; f0; f0].
Proof. rewrite default_rotations_eq. apply repeat_spec. Qed.

Lemma rotations_for_default (W : world) self positions nb n atoms st :
  (atoms <= 1)%Z ->
  rotations_for W self positions nb n atoms st
  = (st, Ok (default_rotations n)).
Proof.
  intros H. unfold rotations_for.
  destruct (atoms >? 1)%Z eqn:E; [|reflexivity].
  apply Z.gtb_lt in E. lia.
Qed.

Lemma float_one_nonzero : PrimFloat.eqb f1 0 = false.
Proof. reflexivity. Qed.

(** C3: for input sequences of equal length the task builder yields as many
    tasks as there are positions; the [i]-th task holds the [i]-th position,
    residue id and orientation, and every task the same template, atom count
    and baseline energies; the pool receives the tasks in input order. *)
Theorem run_iterable_elementwise (K : Constants)
    (positions : list (list float)) (res : list Z)
    (rotations : list (list float)) (atom_number : Z) (e_mol e_prob : float) :
  List.length res = List.length positions ->
  List.length rotations = List.length positions ->
  let tasks :=
    run_iterable K positions res rotations atom_number e_mol e_prob in
  List.length tasks = List.length positions
  /\ (forall i, i < List.length positions ->
        exists pos r rot,
          nth_error positions i = Some pos /\ nth_error res i = Some r
          /\ nth_error rotations i = Some rot
          /\ nth_error tasks i
             = Some {| t_in_file := IN_TEMPLATE K; t_pos := pos;
                       t_rot := rot; t_atom_number := atom_number;
                       t_res := r; t_e_mol := e_mol; t_e_prob := e_prob |})
  /\ (forall self st i t,
        nth_error tasks i = Some t ->
        nth_error (p_queue (submit (apply_task K self) tasks st)) i
        = Some (i, apply_task K self t)).
Proof.
  intros Hres Hrot tasks. subst tasks. split; [|split].
  - rewrite run_iterable_length, Hres, Hrot. lia.
  - intros i Hi.
    destruct (nth_error positions i) as [pos|] eqn:Ep;
      [|apply nth_error_None in Ep; lia].
    destruct (nth_error res i) as [r|] eqn:Er;
      [|apply nth_error_None in Er; lia].
    destruct (nth_error rotations i) as [rot|] eqn:Eo;
      [|apply nth_error_None in Eo; lia].
    exists pos, r, rot. repeat split.
    rewrite run_iterable_nth, Ep, Er, Eo. reflexivity.
  - intros self st i t Ht. unfold submit; simpl.
    apply indexed_nth. rewrite nth_error_map, Ht. reflexivity.
Qed.

Lemma run_iterable_elementwise_witness :
  let tasks :=
    run_iterable demo_constants demo_positions [11; 12; 13]%Z
                 (default_rotations 3) 5 2 3 in
  List.length tasks = 3
  /\ nth_error tasks 1
     = Some {| t_in_file := "in.template"; t_pos := [4; 5; 6]%float;
               t_rot := [0; 1; 0; 0]%float; t_atom_number := 5;
               t_res := 12; t_e_mol := 2; t_e_prob := 3 |}.
Proof.
  destruct (run_iterable_elementwise demo_constants demo_positions
              [11; 12; 13]%Z (default_rotations 3) 5 2 3
              eq_refl eq_refl) as [Hlen [Hnth _]].
  split; [exact Hlen|].
  destruct (Hnth 1 ltac:(simpl; lia)) as (pos & r & rot & Hp & Hr & Ho & Ht).
  rewrite Ht. simpl in Hp, Hr, Ho.
  inversion Hp; inversion Hr; inversion Ho; reflexivity.
Defined.

(** C2, as the code has it: sequences of different lengths raise nothing;
    the task list is the zip cut at the shortest of the three, task [i]
    built from the [i]-th elements. *)
Theorem run_iterable_truncates (K : Constants)
    (positions : list (list float)) (res : list Z)
    (rotations : list (list float)) (atom_number : Z) (e_mol e_prob : float) :
  let tasks :=
    run_iterable K positions res rotations atom_number e_mol e_prob in
  List.length tasks
  = Nat.min (List.length positions)
            (Nat.min (List.length res) (List.length rotations))
  /\ forall i,
       nth_error tasks i
       = match nth_error positions i, nth_error res i,
               nth_error rotations i with
         | Some pos, Some r, Some rot =>
             Some (mk_task K atom_number e_mol e_prob pos r rot)
         | _, _, _ => None
         end.
Proof.
  split; [apply run_iterable_length | intros i; apply run_iterable_nth].
Qed.

(** C2 fails as stated: with two positions and one residue id the scheduler
    raises nothing, dispatches the one task of the truncated list and
    returns. *)
Lemma unequal_lengths_not_rejected :
  let positions := [[1; 2; 3]; [4; 5; 6]]%float in
  let res := [7%Z] in
  let r := demo_exec (demo_world (fun _ => exit_ok) [] positions res) 1
                     positions res in
  List.length positions = 2 /\ List.length res = 1
  /\ snd r = Ok 0%Z
  /\ count is_task_invoke (trace (fst r)) = 1
  /\ pool_closed (trace (fst r)) = true.
Proof. vm_compute. repeat split. Qed.

(** C4, as the code has it: for a probe of at most one atom every task
    carries the rotation [[0, 1, 0, 0]]: angle 0 about the axis (1, 0, 0). *)
Theorem single_atom_orientation (K : Constants) (W : world) (self : Sasa)
    (positions : list (list float)) (nb : Neighbors) (n_probes : nat)
    (atoms_in_mol : Z) (st : pstate) (atom_number : Z)
    (e_mol e_prob : float) :
  (atoms_in_mol <= 1)%Z ->
  exists rotations,
    rotations_for W self positions nb n_probes atoms_in_mol st
    = (st, Ok rotations)
    /\ forall t,
         In t (run_iterable K positions (nb_res nb) rotations atom_number
                            e_mol e_prob) ->
         rot_angle (t_rot t) = Some f0
         /\ rot_axis (t_rot t) = Some (f1, f0, f0).
Proof.
  intros H. exists (default_rotations n_probes).
  split; [apply rotations_for_default; exact H|].
  intros t Ht. apply run_iterable_In in Ht.
  destruct Ht as (pos & r & rot & -> & _ & _ & Hrot).
  apply default_rotations_In in Hrot. subst rot. split; reflexivity.
Qed.

Lemma single_atom_orientation_witness :
  exists rotations,
    rotations_for (demo_world (fun _ => exit_ok) [] demo_positions [1; 2; 3]%Z)
                  (demo_self (demo_world (fun _ => exit_ok) [] demo_positions
                                         [1; 2; 3]%Z) 1)
                  demo_positions {| nb_res := [1; 2; 3]%Z |} 3 1 initial
    = (initial, Ok rotations)
    /\ forall t,
         In t (run_iterable demo_constants demo_positions
                 (nb_res {| nb_res := [1; 2; 3]%Z |}) rotations 5 2 3) ->
         rot_angle (t_rot t) = Some f0
         /\ rot_axis (t_rot t) = Some (f1, f0, f0).
Proof.
  apply (single_atom_orientation demo_constants). lia.
Defined.

(** C4 fails as stated: the task of a one-atom probe has the rotation axis
    (1, 0, 0), which is not (0, 1, 0). *)
Lemma single_atom_axis_is_not_y :
  let W := demo_world (fun _ => exit_ok) [] [[1; 2; 3]%float] [7%Z] in
  snd (rotations_for W (demo_self W 1) [[1; 2; 3]%float]
                     {| nb_res := [7%Z] |} 1 1 initial)
  = Ok [[f0; f1; f0; f0]]
  /\ map (fun t => rot_axis (t_rot t))
         (run_iterable demo_constants [[1; 2; 3]%float] [7%Z]
                       [[f0; f1; f0; f0]] 5 2 3)
     = [Some (f1, f0, f0)]
  /\ PrimFloat.eqb f1 f0 = false.
Proof. repeat split. Qed.

(** C5: for a probe of at most one atom the rotation axis of every task is
    not the zero vector, however many sample points there are. *)
Theorem single_atom_axis_nonzero (K : Constants) (W : world) (self : Sasa)
    (positions : list (list float)) (nb : Neighbors) (n_probes : nat)
    (atoms_in_mol : Z) (st : pstate) (atom_number : Z)
    (e_mol e_prob : float) :
  (atoms_in_mol <= 1)%Z ->
  exists rotations,
    rotations_for W self positions nb n_probes atoms_in_mol st
    = (st, Ok rotations)
    /\ forall t,
         In t (run_iterable K positions (nb_res nb) rotations atom_number
                            e_mol e_prob) ->
         exists axis,
           rot_axis (t_rot t) = Some axis /\ is_zero_vector axis = false
           /\ axis <> (f0, f0, f0).
Proof.
  intros H. exists (default_rotations n_probes).
  split; [apply rotations_for_default; exact H|].
  intros t Ht. apply run_iterable_In in Ht.
  destruct Ht as (pos & r & rot & -> & _ & _ & Hrot).
  apply default_rotations_In in Hrot. subst rot.
  exists (f1, f0, f0). repeat split.
  intros Heq.
  assert (E : PrimFloat.eqb (fst (fst (f1, f0, f0))) 0
              = PrimFloat.eqb (fst (fst (f0, f0, f0))) 0)
    by (rewrite Heq; reflexivity).
  vm_compute in E. discriminate E.
Qed.

Lemma single_atom_axis_nonzero_witness :
  exists rotations,
    rotations_for (demo_world (fun _ => exit_ok) [] demo_positions [1; 2; 3]%Z)
                  (demo_self (demo_world (fun _ => exit_ok) [] demo_positions
                                         [1; 2; 3]%Z) 1)
                  demo_positions {| nb_res := [1; 2; 3]%Z |} 3 1 initial
    = (initial, Ok rotations)
    /\ forall t,
         In t (run_iterable demo_constants demo_positions
                 (nb_res {| nb_res := [1; 2; 3]%Z |}) rotations 5 2 3) ->
         exists axis,
           rot_axis (t_rot t) = Some axis /\ is_zero_vector axis = false
           /\ axis <> (f0, f0, f0).
Proof.
  apply (single_atom_axis_nonzero demo_constants). lia.
Defined.

(** *** The worker [_run_lmp] *)

(** Strict UTF-8: ASCII, two- and three-byte sequences decode; a lone
    [0xff], an overlong encoding, a surrogate, a truncated sequence and a
    code point beyond U+10FFFF do not. *)
Example utf8_valid_samples :
  utf8_valid [x45; x52; x52] = true
  /\ utf8_valid [xc3; xa9] = true
  /\ utf8_valid [xe2; x82; xac; x0a] = true
  /\ utf8_valid [xf0; x9f; x98; x80] = true
  /\ utf8_valid [xff] = false
  /\ utf8_valid [xc0; x80] = false
  /\ utf8_valid [xed; xa0; x80] = false
  /\ utf8_valid [xe2; x82] = false
  /\ utf8_valid [xf4; x90; x80; x80] = false.
Proof. repeat split. Qed.

Lemma count_app f (a b : list event) :
  count f (a ++ b) = count f a + count f b.
Proof. unfold count. now rewrite filter_app, length_app. Qed.

(** After a successful evaluator exit the worker returns 0 and does
    nothing else. *)
Lemma run_lmp_success (W : world) (self : Sasa) (cmd : lmp_cmd) i pl :
  returncode (w_lammps W (invocations (p_st pl)) cmd) = 0%Z ->
  work W false i (run_lmp_body self cmd) pl
  = add_result i (Ok 0%Z)
      (set_st (evaluator_exit W (Worker i) (invocations (p_st pl)) cmd)
              (set_st (start_evaluator (Worker i) cmd) pl)).
Proof.
  intros H. unfold run_lmp_body, subprocess_run. simpl.
  rewrite H. reflexivity.
Qed.

(** After a failed exit whose captured stdout decodes, the worker prints
    that text, sends [SIGINT] to [parent_pid] and returns 0, provided that
    neither [print] nor [os.kill] raises. *)
Lemma run_lmp_failure_signalled (W : world) (self : Sasa) (cmd : lmp_cmd)
    i pl :
  let p := w_lammps W (invocations (p_st pl)) cmd in
  returncode p <> 0%Z ->
  utf8_valid (stdout p) = true ->
  w_print W (string_of_list_byte (stdout p)) = Ok tt ->
  kill_outcome W (parent_pid self) SIGINT = Ok tt ->
  work W false i (run_lmp_body self cmd) pl
  = add_result i (Ok 0%Z)
      (signal_parent W (parent_pid self) SIGINT
         (set_st (emit (EvKill (Worker i) (parent_pid self) SIGINT))
            (set_st (emit (EvPrint (Worker i)
                                   (string_of_list_byte (stdout p))))
               (set_st (evaluator_exit W (Worker i)
                                       (invocations (p_st pl)) cmd)
                       (set_st (start_evaluator (Worker i) cmd) pl))))).
Proof.
  intros p Hrc Hutf Hprint Hkill. unfold run_lmp_body, subprocess_run.
  simpl. fold p. apply Z.eqb_neq in Hrc. rewrite Hrc. simpl.
  unfold bytes_decode. rewrite Hutf. simpl. rewrite Hprint. simpl.
  rewrite Hkill. reflexivity.
Qed.

(** After a failed exit whose captured stdout does not decode, the worker
    raises [UnicodeDecodeError]: nothing is printed and no signal is sent. *)
Lemma run_lmp_failure_garbled (W : world) (self : Sasa) (cmd : lmp_cmd)
    i pl :
  let p := w_lammps W (invocations (p_st pl)) cmd in
  returncode p <> 0%Z ->
  utf8_valid (stdout p) = false ->
  work W false i (run_lmp_body self cmd) pl
  = add_result i (Raise UnicodeDecodeError)
      (set_st (evaluator_exit W (Worker i) (invocations (p_st pl)) cmd)
              (set_st (start_evaluator (Worker i) cmd) pl)).
Proof.
  intros p Hrc Hutf. unfold run_lmp_body, subprocess_run. simpl.
  fold p. apply Z.eqb_neq in Hrc. rewrite Hrc. simpl.
  unfold bytes_decode. rewrite Hutf. reflexivity.
Qed.

(** C10 at a failing invocation whose stdout is the byte [0xff]: the
    worker function raises [UnicodeDecodeError]; it prints nothing and
    sends no signal. *)
Theorem garbled_failure_escapes_worker :
  let pl := demo_worker (demo_world (fun _ => exit_garbled) [] [] []) in
  p_results pl = [(0, Raise UnicodeDecodeError)]
  /\ count is_invoke (trace (p_st pl)) = 1
  /\ count is_print (trace (p_st pl)) = 0
  /\ count is_signal_sent (trace (p_st pl)) = 0
  /\ p_pending pl = false.
Proof. vm_compute. repeat split. Qed.

(** The same worker on a failure with readable output. *)
Example readable_failure_signals_parent :
  let pl := demo_worker (demo_world (fun _ => exit_failed) [] [] []) in
  p_results pl = [(0, Ok 0%Z)]
  /\ filter (fun e => is_print e || is_signal_sent e)%bool
            (trace (p_st pl))
     = [EvPrint (Worker 0) "ERROR"; EvKill (Worker 0) 4711 SIGINT]
  /\ p_pending pl = true.
Proof. vm_compute. repeat split. Qed.


(** *** Traces grow by appending *)

Section Extends.

Variable W : world.
Variable P : event -> Prop.

Lemma extends_refl st : extends P st st.
Proof. exists []. split; [now rewrite app_nil_r | constructor]. Qed.

Lemma extends_trans a b c : extends P a b -> extends P b c -> extends P a c.
Proof.
  intros (e1 & H1 & F1) (e2 & H2 & F2). exists (e1 ++ e2)%list.
  split; [now rewrite H2, H1, app_assoc | now apply Forall_app].
Qed.

Lemma extends_emit e st : P e -> extends P st (emit e st).
Proof. intros H. exists [e]. split; [reflexivity | now constructor]. Qed.

Lemma extends_emit_done r e st : P e -> extends P st (emit_done r e st).
Proof.
  intros H. destruct r; simpl; [now apply extends_emit | apply extends_refl].
Qed.

Lemma extends_start who c st :
  P (EvInvoke who c) -> extends P st (start_evaluator who c st).
Proof.
  intros H. exists [EvInvoke who c].
  split; [reflexivity | now constructor].
Qed.

Lemma extends_exit who n c st :
  (forall p, P (EvExit who p)) -> (forall row, P (EvRow who row)) ->
  extends P st (evaluator_exit W who n c st).
Proof.
  intros He Hr. unfold evaluator_exit.
  destruct (returncode (w_lammps W n c) =? 0)%Z;
    [destruct (w_row W n c)|]; 
    repeat (eapply extends_trans; [|apply extends_emit; auto]);
    apply extends_refl.
Qed.

Lemma run_main_extends {A} (m : io A) st :
  io_emits P Main m -> extends P st (fst (run_main W m st)).
Proof.
  revert st; induction m as [a|e|c k IH|s k IH|pid sig k IH]; intros st Hm;
    simpl in *.
  - apply extends_refl.
  - apply extends_refl.
  - destruct Hm as (Hi & He & Hr & Hk).
    eapply extends_trans; [|apply IH, Hk].
    eapply extends_trans; [apply extends_start, Hi | apply extends_exit; auto].
  - destruct Hm as [Hp Hk].
    eapply extends_trans; [apply extends_emit_done, Hp | apply IH, Hk].
  - destruct Hm as [Hp Hk].
    destruct ((pid =? w_pid W)%Z && is_sigint sig
              && is_default (sigint st))%bool;
      simpl.
    + apply extends_emit_done, Hp.
    + eapply extends_trans; [apply extends_emit_done, Hp | apply IH, Hk].
Qed.

Lemma m_extends_ret {A} (a : A) : m_extends P (ret a).
Proof. intros st. apply extends_refl. Qed.

Lemma m_extends_raise {A} e : m_extends P (@raise A e).
Proof. intros st. apply extends_refl. Qed.

Lemma m_extends_bind {A B} (m : M A) (f : A -> M B) :
  m_extends P m -> (forall a, m_extends P (f a)) -> m_extends P (mbind m f).
Proof.
  intros Hm Hf st. unfold mbind. specialize (Hm st).
  destruct (m st) as [st' [a|e]]; simpl in *.
  - eapply extends_trans; [exact Hm | apply Hf].
  - exact Hm.
Qed.

Lemma m_extends_extern c : P (EvCall c) -> m_extends P (extern W c).
Proof. intros H st. apply extends_emit, H. Qed.

Lemma m_extends_file_write f s :
  P (EvWrite f s) -> m_extends P (file_write f s).
Proof. intros H st. apply extends_emit, H. Qed.

Lemma m_extends_log e : P e -> m_extends P (log e).
Proof. intros H st. apply extends_emit, H. Qed.

Lemma m_extends_signal h : P (EvSignal h) -> m_extends P (signal_signal h).
Proof.
  intros H st. exists [EvSignal h].
  split; [reflexivity | now constructor].
Qed.

Lemma m_extends_run_main {A} (m : io A) :
  io_emits P Main m -> m_extends P (run_main W m).
Proof. intros H st. now apply run_main_extends. Qed.

Lemma m_extends_try {A B} (m : M A) (h : exn -> option (M B)) (els : A -> M B) :
  m_extends P m -> (forall e m', h e = Some m' -> m_extends P m') ->
  (forall a, m_extends P (els a)) -> m_extends P (try_except_else m h els).
Proof.
  intros Hm Hh He st. unfold try_except_else. specialize (Hm st).
  destruct (m st) as [st' [a|e]]; simpl in *.
  - eapply extends_trans; [exact Hm | apply He].
  - destruct (h e) as [m'|] eqn:E; simpl.
    + eapply extends_trans; [exact Hm | apply (Hh _ _ E)].
    + exact Hm.
Qed.

Lemma m_extends_with_pool {A} n (body : M A) :
  (forall k, P (EvPool k)) -> P EvTerminate -> m_extends P body ->
  m_extends P (with_pool n body).
Proof.
  intros Hp Ht Hb st. unfold with_pool.
  destruct (n <? 1)%Z; [apply extends_refl|].
  specialize (Hb (emit (EvPool n) st)).
  destruct (body (emit (EvPool n) st)) as [st' r]; simpl in *.
  eapply extends_trans; [apply extends_emit, Hp|].
  eapply extends_trans; [exact Hb | apply extends_emit, Ht].
Qed.

(** *** The pool only adds events of its workers *)

Lemma pool_emits_set_st st0 f pl :
  extends P (p_st pl) (f (p_st pl)) ->
  pool_emits P st0 pl -> pool_emits P st0 (set_st f pl).
Proof.
  intros Hf (He & Hq & Hr). split; [|split]; simpl; auto.
  eapply extends_trans; eauto.
Qed.

Lemma pool_emits_signal_parent st0 pid sig pl :
  pool_emits P st0 pl -> pool_emits P st0 (signal_parent W pid sig pl).
Proof.
  intros H. unfold signal_parent.
  destruct ((pid =? w_pid W)%Z && is_sigint sig
            && is_default (sigint (p_st pl)))%bool; exact H.
Qed.

Lemma work_emits st0 b i (m : io Z) pl :
  io_emits P (Worker i) m ->
  pool_emits P st0 pl -> pool_emits P st0 (work W b i m pl).
Proof.
  revert pl; induction m as [a|e|c k IH|s k IH|pid sig k IH]; intros pl Hm Hpl;
    simpl in *.
  - exact Hpl.
  - exact Hpl.
  - destruct Hm as (Hi & He & Hr & Hk).
    assert (H1 : pool_emits P st0 (set_st (start_evaluator (Worker i) c) pl))
      by (apply pool_emits_set_st; [apply extends_start, Hi | exact Hpl]).
    destruct b.
    + destruct H1 as (E1 & Q1 & R1). split; [|split]; simpl; auto.
      apply Forall_app. split; [exact R1|].
      constructor; [|constructor]. repeat split; simpl; auto.
    + apply IH; [apply Hk|].
      apply pool_emits_set_st; [apply extends_exit; auto | exact H1].
  - destruct Hm as [Hp Hk]. apply IH; [apply Hk|].
    apply pool_emits_set_st; [apply extends_emit_done, Hp | exact Hpl].
  - destruct Hm as [Hp Hk]. apply IH; [apply Hk|].
    destruct (kill_outcome W pid sig); [|exact Hpl].
    apply pool_emits_signal_parent.
    apply pool_emits_set_st; [apply extends_emit, Hp | exact Hpl].
Qed.

Lemma resume_emits st0 b j pl :
  job_emits P j -> pool_emits P st0 pl -> pool_emits P st0 (resume W b j pl).
Proof.
  intros (He & Hr & Hk) Hpl. unfold resume.
  apply work_emits; [apply Hk|].
  apply pool_emits_set_st; [apply extends_exit; auto | exact Hpl].
Qed.

Lemma Forall_remove_nth {A} (Q : A -> Prop) n (l : list A) :
  Forall Q l -> Forall Q (remove_nth n l).
Proof.
  revert n; induction l as [|x l IH]; intros [|n] H; simpl; auto;
    inversion H; subst; auto.
Qed.

Lemma pool_step_emits st0 size c pl :
  P EvOperator ->
  pool_emits P st0 pl -> pool_emits P st0 (pool_step W size c pl).
Proof.
  intros Hop Hpl. unfold pool_step.
  destruct (waiting pl); [|exact Hpl].
  destruct c as [|slot| |].
  - destruct (p_queue pl) as [|[i m] q] eqn:Eq; [exact Hpl|].
    destruct (List.length (p_running pl) <? size)%nat; [|exact Hpl].
    destruct Hpl as (He & Hq & Hr). rewrite Eq in Hq.
    inversion Hq as [|? ? Hm Hq']; subst.
    apply work_emits; [exact Hm|]. split; [|split]; simpl; auto.
  - destruct (nth_error (p_running pl) slot) as [j|] eqn:Ej; [|exact Hpl].
    destruct Hpl as (He & Hq & Hr).
    apply resume_emits.
    + apply nth_error_In in Ej. rewrite Forall_forall in Hr. now apply Hr.
    + split; [|split]; simpl; auto. now apply Forall_remove_nth.
  - destruct (p_pending pl); exact Hpl.
  - assert (H1 : pool_emits P st0 (set_st (emit EvOperator) pl))
      by (apply pool_emits_set_st; [apply extends_emit, Hop | exact Hpl]).
    destruct (is_default (sigint (p_st pl))); exact H1.
Qed.

Lemma fold_step_emits st0 size schedule pl :
  P EvOperator ->
  pool_emits P st0 pl ->
  pool_emits P st0 (fold_left (fun pl c => pool_step W size c pl) schedule pl).
Proof.
  intros Hop. revert pl; induction schedule as [|c s IH]; intros pl Hpl;
    simpl; [exact Hpl|].
  apply IH. now apply pool_step_emits.
Qed.

Lemma drain_running_emits st0 js pl :
  Forall (job_emits P) js ->
  pool_emits P st0 pl -> pool_emits P st0 (drain_running W js pl).
Proof.
  revert pl; induction js as [|j js IH]; intros pl Hjs Hpl; simpl;
    [exact Hpl|].
  inversion Hjs as [|? ? Hj Hjs']; subst.
  destruct (p_pending pl); [exact Hpl|].
  apply IH; [exact Hjs'|]. apply resume_emits; [exact Hj|].
  destruct Hpl as (He & Hq & Hr). split; [|split]; simpl; auto.
Qed.

Lemma drain_queue_emits st0 q pl :
  Forall (fun x => io_emits P (Worker (fst x)) (snd x)) q ->
  pool_emits P st0 pl -> pool_emits P st0 (drain_queue W q pl).
Proof.
  revert pl; induction q as [|[i m] q IH]; intros pl Hq Hpl; simpl;
    [exact Hpl|].
  inversion Hq as [|? ? Hm Hq']; subst.
  destruct (p_pending pl); [exact Hpl|].
  apply IH; [exact Hq'|]. apply work_emits; [exact Hm|].
  destruct Hpl as (He & Hq0 & Hr). split; [|split]; simpl; auto.
Qed.

Lemma drain_emits st0 pl :
  pool_emits P st0 pl -> pool_emits P st0 (drain W pl).
Proof.
  intros Hpl. unfold drain. destruct (p_raised pl); [exact Hpl|].
  assert (H1 : pool_emits P st0 (drain_running W (p_running pl) pl))
    by (apply drain_running_emits; [apply Hpl | exact Hpl]).
  assert (H2 : pool_emits P st0
                 (drain_queue W (p_queue (drain_running W (p_running pl) pl))
                              (drain_running W (p_running pl) pl)))
    by (apply drain_queue_emits; [apply H1 | exact H1]).
  cbv zeta.
  destruct (p_pending _); [|exact H2].
  destruct H2 as (He & Hq & Hr). split; [|split]; simpl; auto.
Qed.

Lemma pool_run_emits st0 size schedule pl :
  P EvOperator ->
  pool_emits P st0 pl -> pool_emits P st0 (pool_run W size schedule pl).
Proof.
  intros Hop Hpl. unfold pool_run. now apply drain_emits, fold_step_emits.
Qed.

Lemma m_extends_starmap n (f : task -> io Z) tasks :
  P EvOperator ->
  (forall i t, In t tasks -> io_emits P (Worker i) (f t)) ->
  m_extends P (pool_starmap W n f tasks).
Proof.
  intros Hop Hf st. unfold pool_starmap. simpl.
  apply (pool_run_emits st). { exact Hop. }
  split; [|split]; simpl.
  - apply extends_refl.
  - apply Forall_forall. intros [i m] Hin. simpl.
    unfold indexed in Hin. apply in_combine_r in Hin.
    apply in_map_iff in Hin. destruct Hin as (t & <- & Ht). now apply Hf.
  - constructor.
Qed.

End Extends.

(** *** What the workers invoke *)

Lemma lmp_command_fields K self in_file pos rot a r e1 e2 cmd :
  lmp_command K self in_file pos rot a r e1 e2 = Ok cmd ->
  c_in cmd = in_file /\ c_atom_number cmd = a /\ c_res cmd = r
  /\ c_emol cmd = e1 /\ c_eprob cmd = e2
  /\ nth_error rot 0 = Some (c_rotAng cmd)
  /\ rot_axis rot = Some (c_rotVecX cmd, c_rotVecY cmd, c_rotVecZ cmd).
Proof.
  unfold lmp_command, index.
  destruct pos as [|x [|y [|z pos]]]; simpl; try discriminate.
  destruct rot as [|g [|vx [|vy [|vz rot]]]]; simpl; try discriminate.
  intros H. inversion H; subst; simpl. repeat split.
Qed.

Lemma run_lmp_body_emits (P : event -> Prop) who self cmd :
  P (EvInvoke who cmd) ->
  (forall p, P (EvExit who p)) -> (forall row, P (EvRow who row)) ->
  (forall s, P (EvPrint who s)) -> (forall pid sig, P (EvKill who pid sig)) ->
  io_emits P who (run_lmp_body self cmd).
Proof.
  intros Hi He Hr Hp Hk. unfold run_lmp_body, subprocess_run. simpl.
  repeat split; auto. intros p.
  destruct (negb (returncode p =? 0)%Z); simpl; [|exact I].
  unfold bytes_decode. destruct (utf8_valid (stdout p)); simpl; auto.
  split; [apply Hp|]. intros [[]|e]; simpl; [|exact I].
  split; [apply Hk|]. intros [[]|e]; exact I.
Qed.

Lemma apply_task_emits (P : event -> Prop) K self i t :
  (forall cmd,
     lmp_command K self (t_in_file t) (t_pos t) (t_rot t) (t_atom_number t)
                 (t_res t) (t_e_mol t) (t_e_prob t) = Ok cmd ->
     P (EvInvoke (Worker i) cmd)) ->
  worker_events P (Worker i) ->
  io_emits P (Worker i) (apply_task K self t).
Proof.
  intros Hc (He & Hr & Hp & Hk).
  unfold apply_task, _run_lmp.
  destruct (lmp_command K self (t_in_file t) (t_pos t) (t_rot t)
              (t_atom_number t) (t_res t) (t_e_mol t) (t_e_prob t))
    as [cmd|e] eqn:E; [|exact I].
  apply run_lmp_body_emits; auto.
Qed.

Lemma mbind_extern_ok (W : world) {B} c (f : ext_ret c -> M B) st a :
  w_extern W c = Ok a ->
  mbind (extern W c) f st = f a (emit (EvCall c) st).
Proof. intros H. unfold mbind, extern. now rewrite H. Qed.

Lemma mbind_extern_raise (W : world) {B} c (f : ext_ret c -> M B) st e :
  w_extern W c = Raise e ->
  mbind (extern W c) f st = (emit (EvCall c) st, Raise e).
Proof. intros H. unfold mbind, extern. now rewrite H. Qed.

(** *** The scheduler [_exec_lammps_iterations] *)

Section Scheduler.

Variable K : Constants.
Variable W : world.
Variable P : event -> Prop.
Variable self : Sasa.
Variable positions : list (list float).
Variable nb : Neighbors.
Variable n_probes : nat.
Variables e_mol e_prob : float.

Hypothesis parent_ok : parent_events P.
Hypothesis tasks_ok :
  forall a rot i t,
    In t (run_iterable K positions (nb_res nb) rot a e_mol e_prob) ->
    io_emits P (Worker i) (apply_task K self t).

Lemma exec_trace st :
  let r := _exec_lammps_iterations K W self positions nb n_probes
                                   e_mol e_prob st in
  let count_call :=
    EvCall (CountAtomsInMacromol (os_path_join (path self) (data_file self)))
  in
  match w_extern W (CountAtomsInMacromol
                      (os_path_join (path self) (data_file self))) with
  | Raise e => trace (fst r) = (trace st ++ [count_call])%list
               /\ snd r = Raise e
  | Ok _ =>
      exists evs,
        trace (fst r)
        = (trace st ++ count_call
             :: EvWrite (os_path_join (path self) (SPEC K)) (header n_probes)
             :: evs)%list
        /\ Forall P evs
  end.
Proof.
  cbv zeta.
  destruct (w_extern W (CountAtomsInMacromol _)) as [a|e] eqn:E;
    unfold _exec_lammps_iterations;
    [rewrite (mbind_extern_ok W _ _ _ _ E)
    |rewrite (mbind_extern_raise W _ _ _ _ E); split; reflexivity].
  unfold mbind at 1. unfold file_write at 1. cbn [fst snd].
  match goal with
  | |- context [mbind ?m ?f ?s] =>
      assert (H : m_extends P (mbind m f)); [|destruct (H s) as (evs & Ht & Hf)]
  end.
  - destruct parent_ok as (Hc & Hs & Hp & Ho & Ht & Hcl).
    apply m_extends_bind; [apply m_extends_extern, Hc|]. intros n.
    apply m_extends_bind.
    { unfold rotations_for. destruct (n >? 1)%Z;
        [exact (m_extends_extern W P _ (Hc _)) | apply m_extends_ret]. }
    intros rot. cbv zeta.
    apply m_extends_bind; [apply m_extends_signal, Hs|]. intros h.
    apply m_extends_bind; [|intros; apply m_extends_ret].
    apply m_extends_with_pool; auto.
    apply m_extends_bind; [apply m_extends_signal, Hs|]. intros _.
    apply m_extends_try.
    + apply m_extends_starmap; [exact Ho|]. intros i t Hin.
      eapply tasks_ok; eauto.
    + intros e m' He. destruct e; try discriminate He.
      inversion He; subst. now apply m_extends_log.
    + intros _. now apply m_extends_log.
  - exists evs. split; [|exact Hf]. rewrite Ht. simpl.
    rewrite <- !app_assoc. reflexivity.
Qed.

Lemma exec_extends :
  (forall f s, P (EvWrite f s)) ->
  m_extends P (_exec_lammps_iterations K W self positions nb n_probes
                                       e_mol e_prob).
Proof.
  intros Hw st. pose proof (exec_trace st) as H. cbv zeta in H.
  destruct parent_ok as (Hc & _).
  destruct (w_extern W (CountAtomsInMacromol _)) as [a|e].
  - destruct H as (evs & Ht & Hf). eexists. split; [exact Ht|].
    constructor; [apply Hc|]. constructor; [apply Hw | exact Hf].
  - destruct H as [Ht _]. eexists. split; [exact Ht|].
    constructor; [apply Hc | constructor].
Qed.

End Scheduler.


(** *** The output file *)

Lemma count_none f (l : list event) :
  Forall (fun e => f e = false) l -> count f l = 0.
Proof.
  unfold count. induction 1 as [|e l He _ IH]; simpl; [reflexivity|].
  now rewrite He.
Qed.

Lemma record_events_unchanged file evs content :
  Forall (fun e => is_write e = false /\ is_row e = false) evs ->
  fold_left (record_event file) evs content = content.
Proof.
  intros H. revert content.
  induction H as [|e l [Hw Hr] _ IH]; intros content; simpl;
    [reflexivity|].
  rewrite IH. destruct e; simpl in *; try reflexivity; discriminate.
Qed.

Lemma output_after_header file before call header_text evs :
  Forall (fun e => is_write e = false /\ is_row e = false) evs ->
  output_content file
    (before ++ call :: EvWrite file header_text :: evs)%list
  = header_text.
Proof.
  intros H. unfold output_content.
  rewrite fold_left_app. simpl. rewrite String.eqb_refl.
  now apply record_events_unchanged.
Qed.

Lemma not_write_parent : parent_events (fun e => is_write e = false).
Proof. repeat split. Qed.

Lemma quiet_parent :
  parent_events
    (fun e => is_write e = false /\ is_row e = false /\ is_invoke e = false).
Proof. repeat split. Qed.

(** The header text for zero sample points, as the file holds it. *)
Example header_zero :
  header 0
  = "0" ++ nl ++ "atom" ++ tab ++ "x" ++ tab ++ "y" ++ tab ++ "z" ++ tab
    ++ "res" ++ tab ++ "etot/eV" ++ tab ++ "eint/eV" ++ nl.
Proof. reflexivity. Qed.





(** *** What the scheduler returns *)

Lemma mbind_ok_inv {A B} (m : M A) (f : A -> M B) st v :
  snd (mbind m f st) = Ok v ->
  exists a, snd (m st) = Ok a /\ snd (f a (fst (m st))) = Ok v.
Proof.
  unfold mbind. destruct (m st) as [st' [a|e]]; simpl; intros H;
    [exists a; auto | discriminate].
Qed.

(** C8, as the code has it: whenever the scheduler returns, it returns 0,
    after closing the pool as well as after terminating it on
    [KeyboardInterrupt]. *)
Theorem scheduler_returns_zero (K : Constants) (W : world) (self : Sasa)
    (positions : list (list float)) (nb : Neighbors) (n_probes : nat)
    (e_mol e_prob : float) (st : pstate) (v : Z) :
  snd (_exec_lammps_iterations K W self positions nb n_probes e_mol e_prob
                               st) = Ok v ->
  v = 0%Z.
Proof.
  unfold _exec_lammps_iterations. intros H.
  do 6 (apply mbind_ok_inv in H; destruct H as (? & _ & H)).
  cbv zeta in H. simpl in H. now inversion H.
Qed.

Lemma scheduler_returns_zero_witness :
  snd (demo_exec (demo_world (fun _ => exit_ok) [] demo_positions
                             [1; 2; 3]%Z) 1 demo_positions [1; 2; 3]%Z)
  = Ok 0%Z
  /\ 0%Z = 0%Z.
Proof.
  split; [reflexivity|].
  apply (scheduler_returns_zero demo_constants
           (demo_world (fun _ => exit_ok) [] demo_positions [1; 2; 3]%Z)
           (demo_self (demo_world (fun _ => exit_ok) [] demo_positions
                                  [1; 2; 3]%Z) 1)
           demo_positions {| nb_res := [1; 2; 3]%Z |} 3 2%float 3%float
           initial 0%Z).
  reflexivity.
Defined.

(** C8 fails as stated: a run that completes all three tasks and closes the
    pool, and a run whose first task fails and whose pool is terminated on
    the interrupt, return the same value. *)
Lemma return_value_hides_outcome :
  let res := [1; 2; 3]%Z in
  let completed :=
    demo_exec (demo_world (fun _ => exit_ok) [] demo_positions res) 1
              demo_positions res in
  let aborted :=
    demo_exec (demo_world failed_first [] demo_positions res) 1
              demo_positions res in
  snd completed = snd aborted
  /\ snd completed = Ok 0%Z
  /\ pool_closed (trace (fst completed)) = true
  /\ count is_row (trace (fst completed)) = 3
  /\ pool_closed (trace (fst aborted)) = false
  /\ count is_row (trace (fst aborted)) = 0.
Proof. vm_compute. repeat split. Qed.


(** *** The baseline run [_pre_calc] *)

Lemma pre_calc_command_eq (K : Constants) (self : Sasa) :
  _run_lmp K self (IN_PRE K) [f0; f0; f0] [f0; f1; f0; f0] 0 0 f0 f0
  = run_lmp_body self (baseline_cmd K self).
Proof. reflexivity. Qed.

Lemma count_cons f e (l : list event) :
  count f (e :: l) = (if f e then 1 else 0) + count f l.
Proof. unfold count. simpl. now destruct (f e). Qed.

(** [_run_lmp] blocks on the evaluator once; what follows starts none. *)
Lemma run_lmp_body_shape (self : Sasa) (cmd : lmp_cmd) :
  exists k,
    run_lmp_body self cmd = SubprocessRun cmd k
    /\ forall (P : event -> Prop) who p,
         (forall s, P (EvPrint who s)) ->
         (forall pid sig, P (EvKill who pid sig)) ->
         io_emits P who (k p).
Proof.
  eexists. split; [reflexivity|]. intros P who p Hp Hk. simpl.
  destruct (negb (returncode p =? 0)%Z); simpl; [|exact I].
  unfold bytes_decode. destruct (utf8_valid (stdout p)); simpl; auto.
  split; [apply Hp|]. intros [[]|e]; simpl; [|exact I].
  split; [apply Hk|]. intros [[]|e]; exact I.
Qed.

Lemma run_main_body_trace (W : world) (self : Sasa) (cmd : lmp_cmd) st :
  exists rest,
    trace (fst (run_main W (run_lmp_body self cmd) st))
    = (trace st ++ EvInvoke Main cmd :: rest)%list
    /\ Forall (fun e => is_invoke e = false) rest.
Proof.
  destruct (run_lmp_body_shape self cmd) as (k & -> & Hk).
  change (run_main W (SubprocessRun cmd k) st)
    with (run_main W (k (w_lammps W (invocations st) cmd))
            (evaluator_exit W Main (invocations st) cmd
               (start_evaluator Main cmd st))).
  set (P := fun e => is_invoke e = false).
  assert (H : extends P (start_evaluator Main cmd st)
                (fst (run_main W (k (w_lammps W (invocations st) cmd))
                        (evaluator_exit W Main (invocations st) cmd
                           (start_evaluator Main cmd st))))).
  { eapply extends_trans.
    - apply extends_exit; reflexivity.
    - apply run_main_extends. apply Hk; reflexivity. }
  destruct H as (rest & Ht & Hf). exists rest. split; [|exact Hf].
  rewrite Ht. simpl. now rewrite <- app_assoc.
Qed.

(** C7, as the code has it: the baseline computation starts the evaluator
    exactly once, on the template [IN_PRE] at the origin with the rotation
    [[0, 1, 0, 0]]; when it returns a pair, that pair is what
    [_read_last_two] gave for the key [etot], called last. *)
Theorem pre_calc_invokes_once (K : Constants) (W : world) (self : Sasa)
    (st : pstate) :
  let r := _pre_calc K W self st in
  (exists rest,
     trace (fst r)
     = (trace st ++ EvInvoke Main (baseline_cmd K self) :: rest)%list
     /\ count is_invoke rest = 0)
  /\ count is_invoke (trace (fst r)) = count is_invoke (trace st) + 1
  /\ forall e,
       snd r = Ok e ->
       w_extern W (ReadLastTwo (path self) "etot") = Ok e
       /\ exists before,
            trace (fst r)
            = (before ++ [EvCall (ReadLastTwo (path self) "etot")])%list
            /\ In (EvInvoke Main (baseline_cmd K self)) before.
Proof.
  cbv zeta. unfold _pre_calc. rewrite pre_calc_command_eq. cbn [ext_ret].
  destruct (run_main_body_trace W self (baseline_cmd K self) st)
    as (rest & Htr & Hrest).
  unfold mbind, extern, ret.
  destruct (run_main W (run_lmp_body self (baseline_cmd K self)) st)
    as [st1 [v|x]]; simpl in Htr; simpl.
  - assert (Hshape :
      (trace st1 ++ [EvCall (ReadLastTwo (path self) "etot")])%list
      = (trace st ++ EvInvoke Main (baseline_cmd K self)
           :: (rest ++ [EvCall (ReadLastTwo (path self) "etot")]))%list).
    { rewrite Htr, <- app_assoc. reflexivity. }
    assert (Hcnt : count is_invoke
                     (rest ++ [EvCall (ReadLastTwo (path self) "etot")]) = 0).
    { rewrite count_app, (count_none _ _ Hrest). reflexivity. }
    destruct (w_extern W (ReadLastTwo (path self) "etot")) as [e|x]; simpl;
      (split; [eexists; split; [exact Hshape | exact Hcnt]|]);
      (split; [rewrite Hshape, count_app, count_cons, Hcnt; simpl; lia|]);
      intros e' He'; [|discriminate].
    inversion He'; subst e'. split; [reflexivity|].
    exists (trace st1). split; [reflexivity|].
    rewrite Htr. apply in_or_app. right. left. reflexivity.
  - split; [|split].
    + eexists. split; [exact Htr | now apply count_none].
    + rewrite Htr, count_app, count_cons, (count_none _ _ Hrest).
      simpl. lia.
    + intros e' He'. discriminate.
Qed.

(** C7 fails as stated: a baseline computation whose evaluator run succeeds
    has started the evaluator once, not twice. *)
Lemma baseline_is_one_invocation :
  let W := demo_world (fun _ => exit_ok) [] demo_positions [1; 2; 3]%Z in
  let r := _pre_calc demo_constants W (demo_self W 1) initial in
  snd r = Ok (2%float, 3%float)
  /\ count is_invoke (trace (fst r)) = 1
  /\ invocations (fst r) = 1.
Proof. vm_compute. repeat split. Qed.

(** *** The baseline comes first *)

Lemma mbind_ok_step {A B} (m : M A) (f : A -> M B) st v :
  snd (mbind m f st) = Ok v ->
  exists a, snd (m st) = Ok a /\ mbind m f st = f a (fst (m st)).
Proof.
  unfold mbind. destruct (m st) as [st' [a|e]]; simpl; intros H;
    [exists a; auto | discriminate].
Qed.

(** The baseline run in the orchestrating process returns only after a
    successful evaluator exit: a failure ends in [KeyboardInterrupt] or
    [UnicodeDecodeError]. *)
Lemma run_main_body_ok (W : world) (self : Sasa) (cmd : lmp_cmd) st v :
  sigint st = default_int_handler ->
  parent_pid self = w_pid W ->
  snd (run_main W (run_lmp_body self cmd) st) = Ok v ->
  returncode (w_lammps W (invocations st) cmd) = 0%Z
  /\ In (EvExit Main (w_lammps W (invocations st) cmd))
        (trace (fst (run_main W (run_lmp_body self cmd) st))).
Proof.
  intros Hsig Hpid. unfold run_lmp_body, subprocess_run. simpl.
  set (p := w_lammps W (invocations st) cmd).
  destruct (returncode p =? 0)%Z eqn:Erc; simpl.
  - intros _. split; [now apply Z.eqb_eq|].
    unfold evaluator_exit. fold p. rewrite Erc.
    destruct (w_row W (invocations st) cmd); simpl;
      repeat rewrite in_app_iff; simpl; auto 10.
  - unfold bytes_decode. destruct (utf8_valid (stdout p)); simpl.
    + destruct (w_print W (string_of_list_byte (stdout p))) as [[]|e];
        simpl; [|discriminate].
      unfold evaluator_exit. fold p. rewrite Erc. simpl.
      rewrite Hpid, Z.eqb_refl, Hsig. simpl. discriminate.
    + discriminate.
Qed.

Lemma pre_calc_ok (K : Constants) (W : world) (self : Sasa) st e :
  sigint st = default_int_handler ->
  parent_pid self = w_pid W ->
  snd (_pre_calc K W self st) = Ok e ->
  w_extern W (ReadLastTwo (path self) "etot") = Ok e
  /\ In (EvCall (ReadLastTwo (path self) "etot"))
        (trace (fst (_pre_calc K W self st)))
  /\ exists p,
       In (EvExit Main p) (trace (fst (_pre_calc K W self st)))
       /\ returncode p = 0%Z.
Proof.
  intros Hsig Hpid. unfold _pre_calc. rewrite pre_calc_command_eq.
  cbn [ext_ret]. intros H. pose proof H as H'.
  apply mbind_ok_step in H'. destruct H' as (v & Hv & Heq).
  destruct (run_main_body_ok W self _ st v Hsig Hpid Hv) as [Hrc Hin].
  rewrite Heq in *. clear Heq.
  set (st1 := fst (run_main W (run_lmp_body self (baseline_cmd K self)) st))
    in *.
  unfold mbind, extern, ret in *.
  destruct (w_extern W (ReadLastTwo (path self) "etot")) as [e'|x];
    simpl in *; [|discriminate].
  split; [exact H|]. split.
  - apply in_or_app. right. left. reflexivity.
  - eexists. split; [|exact Hrc]. apply in_or_app. left. exact Hin.
Qed.
Lemma split_after_prefix {A} (pre evs l1 l2 : list A) (e : A) :
  (pre ++ evs = l1 ++ e :: l2)%list -> ~ In e pre ->
  exists l1', l1 = (pre ++ l1')%list /\ evs = (l1' ++ e :: l2)%list.
Proof.
  revert l1; induction pre as [|x pre IH]; intros l1 H Hn; simpl in *.
  - exists l1. auto.
  - destruct l1 as [|y l1]; simpl in H; inversion H; subst.
    + exfalso. apply Hn. left. reflexivity.
    + destruct (IH l1 H2) as (l1' & -> & ->);
        [intros Hin; apply Hn; right; exact Hin|].
      exists l1'. auto.
Qed.

Lemma not_task_not_in (l : list event) i c :
  Forall (fun e => is_task_invoke e = false) l ->
  ~ In (EvInvoke (Worker i) c) l.
Proof.
  intros H Hin. rewrite Forall_forall in H. apply H in Hin. discriminate.
Qed.

Lemma tasks_carry_baseline (K : Constants) (self : Sasa) positions res
    e_mol e_prob a rot i t :
  In t (run_iterable K positions res rot a e_mol e_prob) ->
  io_emits (carries_baseline e_mol e_prob) (Worker i) (apply_task K self t).
Proof.
  intros Hin. apply apply_task_emits; [|repeat split].
  intros cmd Hcmd. apply lmp_command_fields in Hcmd.
  destruct Hcmd as (_ & _ & _ & Hm & Hp & _).
  apply run_iterable_In in Hin. destruct Hin as (pos & r & o & -> & _).
  simpl in *. split; assumption.
Qed.

Lemma fst_mbind_ret {A B} (m : M A) (b : B) st :
  fst (mbind m (fun _ => ret b) st) = fst (m st).
Proof. unfold mbind, ret. now destruct (m st) as [st' [a|e]]. Qed.


Lemma bind_task_inv {A B} (m : M A) (f : A -> M B) st i c before after :
  m_extends (fun e => is_task_invoke e = false) m ->
  Forall (fun e => is_task_invoke e = false) (trace st) ->
  trace (fst (mbind m f st))
  = (before ++ EvInvoke (Worker i) c :: after)%list ->
  exists a,
    snd (m st) = Ok a /\ mbind m f st = f a (fst (m st))
    /\ Forall (fun e => is_task_invoke e = false) (trace (fst (m st))).
Proof.
  intros Hm Hst H. destruct (Hm st) as (evs & Ht & Hf).
  assert (Hall : Forall (fun e => is_task_invoke e = false)
                        (trace (fst (m st))))
    by (rewrite Ht; apply Forall_app; split; assumption).
  unfold mbind in *. destruct (m st) as [st' [a|x]]; simpl in *.
  - exists a. auto.
  - exfalso. apply (not_task_not_in (trace st') i c Hall).
    rewrite H. apply in_or_app. right. left. reflexivity.
Qed.

Lemma pre_calc_extends (K : Constants) (W : world) (self : Sasa) :
  m_extends (fun e => is_task_invoke e = false) (_pre_calc K W self).
Proof.
  unfold _pre_calc. rewrite pre_calc_command_eq.
  apply m_extends_bind.
  - apply m_extends_run_main. apply run_lmp_body_emits; reflexivity.
  - intros _. apply m_extends_bind.
    + exact (m_extends_extern W _ (ReadLastTwo _ _) eq_refl).
    + intros e. apply m_extends_ret.
Qed.

Lemma carries_baseline_parent e_mol e_prob :
  parent_events (carries_baseline e_mol e_prob).
Proof. repeat split. Qed.

(** C9: in every run of [sasa], whatever starts a task's evaluator comes
    after the baseline computation has finished: the baseline evaluator has
    exited with status 0, [_read_last_two] has returned both energies, and
    the task's command carries exactly these two values. *)
Theorem baseline_precedes_tasks (K : Constants) (W : world)
    (gro data mol ff dump exe : string) (procs : Z) (rad : float) (smp : Z)
    (dir : string) (before after : list event) (i : nat) (cmd : lmp_cmd) :
  trace (fst (sasa K W gro data mol ff dump exe procs rad smp dir initial))
  = (before ++ EvInvoke (Worker i) cmd :: after)%list ->
  exists e_mol e_prob p,
    w_extern W (ReadLastTwo dir "etot") = Ok (e_mol, e_prob)
    /\ In (EvCall (ReadLastTwo dir "etot")) before
    /\ In (EvExit Main p) before /\ returncode p = 0%Z
    /\ c_emol cmd = e_mol /\ c_eprob cmd = e_prob.
Proof.
  unfold sasa. rewrite fst_mbind_ret. unfold _process.
  set (self := Sasa_init W gro data mol ff dump exe procs rad smp dir).
  intros H.
  assert (F0 : Forall (fun e => is_task_invoke e = false) (trace initial))
    by constructor.
  destruct (bind_task_inv _ _ _ _ _ _ _
              (m_extends_extern W _ (Gro2lammps _ _ _) eq_refl) F0 H)
    as (a1 & _ & E1 & F1).
  rewrite E1 in H; clear E1.
  destruct (bind_task_inv _ _ _ _ _ _ _
              (m_extends_extern W _ (CheckFiles _) eq_refl) F1 H)
    as (a2 & _ & E2 & F2).
  rewrite E2 in H; clear E2.
  destruct (bind_task_inv _ _ _ _ _ _ _
              (m_extends_extern W _ (WriteParamsFile _ _) eq_refl) F2 H)
    as (a3 & _ & E3 & F3).
  rewrite E3 in H; clear E3.
  destruct (bind_task_inv _ _ _ _ _ _ _
              (m_extends_extern W _ (WriteParamsFile _ _) eq_refl) F3 H)
    as (a4 & _ & E4 & F4).
  rewrite E4 in H; clear E4.
  destruct (bind_task_inv _ _ _ _ _ _ _ (pre_calc_extends K W self) F4 H)
    as (e & He & E5 & F5).
  rewrite E5 in H; clear E5.
  apply pre_calc_ok in He; [|reflexivity|reflexivity].
  destruct He as (Hread & Hcall & p & Hexit & Hrc).
  cbv beta in H.
  match type of H with
  | trace (fst (?m ?s)) = _ =>
      assert (Hrest : m_extends (carries_baseline (fst e) (snd e)) m)
  end.
  { pose proof (carries_baseline_parent (fst e) (snd e)) as Hpar.
    destruct Hpar as (Hc & Hpar').
    apply m_extends_bind;
      [exact (m_extends_extern W _ (ConvertDataFile _ _) (Hc _))|].
    intros xyz_file. apply m_extends_bind;
      [exact (m_extends_extern W _ (CreateSasaXyz _ _ _ _) (Hc _))|].
    intros sasa_positions. cbv zeta. apply m_extends_bind;
      [exact (m_extends_extern W _ (NeighborFinder _ _ _) (Hc _))|].
    intros neighbors. apply m_extends_bind.
    - apply exec_extends.
      + apply carries_baseline_parent.
      + intros a rot j t Hin. eapply tasks_carry_baseline. exact Hin.
      + intros f s. exact I.
    - intros _.
      repeat (apply m_extends_bind;
              [exact (m_extends_extern W _ (Postprocessing _) (Hc _))
              |intros _]).
      apply m_extends_ret. }
  match type of H with
  | trace (fst (_ ?s)) = _ =>
      destruct (Hrest s) as (evs & Htr & Hevs); set (st5 := s) in *
  end.
  rewrite Htr in H.
  apply split_after_prefix in H; [|apply not_task_not_in; exact F5].
  destruct H as (l1 & -> & ->).
  apply Forall_app in Hevs. destruct Hevs as [_ Hevs].
  apply Forall_inv in Hevs. destruct Hevs as [Hm Hp].
  exists (fst e), (snd e), p. repeat split.
  - destruct e. exact Hread.
  - apply in_or_app. left. exact Hcall.
  - apply in_or_app. left. exact Hexit.
  - exact Hrc.
  - exact Hm.
  - exact Hp.
Qed.

Lemma baseline_precedes_tasks_witness :
  let W := demo_world (fun _ => exit_ok) [] [[1; 2; 3]%float] [7%Z] in
  let tr := trace (fst (demo_sasa W 1)) in
  exists e_mol e_prob p,
    w_extern W (ReadLastTwo "." "etot") = Ok (e_mol, e_prob)
    /\ In (EvCall (ReadLastTwo "." "etot")) (firstn 16 tr)
    /\ In (EvExit Main p) (firstn 16 tr) /\ returncode p = 0%Z
    /\ c_emol demo_cmd = e_mol /\ c_eprob demo_cmd = e_prob.
Proof.
  intros W tr.
  apply (baseline_precedes_tasks demo_constants W "macro.gro" "macro.data"
           "probe.mol" "ff" "dump" "lmp" 1 0x1.6666666666666p+0%float 100
           "." (firstn 16 tr) (skipn 17 tr) 0 demo_cmd).
  vm_compute. reflexivity.
Defined.

(** *** Fail-fast in the pool *)

Lemma run_lmp_body_after (self : Sasa) (cmd : lmp_cmd) :
  run_lmp_body self cmd = SubprocessRun cmd (after_exit self).
Proof. reflexivity. Qed.

Section FailFast.

Variable K : Constants.
Variable W : world.
Variable self : Sasa.
Hypothesis parent_is_me : parent_pid self = w_pid W.

(** The ways a worker goes on after its evaluator has exited. *)
Lemma work_after_exit b i p pl :
  sigint (p_st pl) = default_int_handler ->
  work W b i (after_exit self p) pl
  = if (returncode p =? 0)%Z then add_result i (Ok 0%Z) pl
    else if utf8_valid (stdout p) then
      match w_print W (string_of_list_byte (stdout p)) with
      | Ok _ =>
          add_result i (Ok 0%Z)
            (set_pending true
               (set_st (emit (EvKill (Worker i) (parent_pid self) SIGINT))
                  (set_st (emit (EvPrint (Worker i)
                                         (string_of_list_byte (stdout p))))
                          pl)))
      | Raise e => add_result i (Raise e) pl
      end
    else add_result i (Raise UnicodeDecodeError) pl.
Proof.
  intros Hsig. unfold after_exit. simpl.
  destruct (returncode p =? 0)%Z; simpl; [reflexivity|].
  unfold bytes_decode. destruct (utf8_valid (stdout p)); simpl;
    [|reflexivity].
  destruct (w_print W (string_of_list_byte (stdout p))) as [[]|e]; simpl;
    [|reflexivity].
  unfold kill_outcome, signal_parent. simpl.
  rewrite parent_is_me, Z.eqb_refl. simpl. rewrite Hsig.
  reflexivity.
Qed.

Lemma kill_parent_outcome sig : kill_outcome W (parent_pid self) sig = Ok tt.
Proof. unfold kill_outcome. now rewrite parent_is_me, Z.eqb_refl. Qed.

Lemma evaluator_exit_trace who n c st :
  trace (evaluator_exit W who n c st)
  = (trace st ++ exit_events W who n c)%list
  /\ sigint (evaluator_exit W who n c st) = sigint st.
Proof.
  unfold evaluator_exit, exit_events.
  destruct (returncode (w_lammps W n c) =? 0)%Z;
    [destruct (w_row W n c)|]; simpl; rewrite <- ?app_assoc; auto.
Qed.

(** What the exit of a job's evaluator changes in the pool. *)
Lemma resume_effect b j pl :
  j_k j = after_exit self ->
  sigint (p_st pl) = default_int_handler ->
  let p := w_lammps W (j_inv j) (j_cmd j) in
  let pl' := resume W b j pl in
  trace (p_st pl')
  = (trace (p_st pl)
     ++ exit_events W (Worker (j_idx j)) (j_inv j) (j_cmd j)
     ++ handler_events W self (Worker (j_idx j)) p)%list
  /\ sigint (p_st pl') = default_int_handler
  /\ p_queue pl' = p_queue pl /\ p_running pl' = p_running pl
  /\ p_raised pl' = p_raised pl
  /\ p_pending pl'
     = (p_pending pl
        || negb (returncode p =? 0)%Z && utf8_valid (stdout p)
           && succeeded (w_print W (string_of_list_byte (stdout p))))%bool.
Proof.
  intros Hk Hsig p pl'. subst pl'. unfold resume. rewrite Hk.
  destruct (evaluator_exit_trace (Worker (j_idx j)) (j_inv j) (j_cmd j)
              (p_st pl)) as [Ht Hs].
  rewrite work_after_exit by (simpl; congruence).
  fold p. unfold handler_events. rewrite kill_parent_outcome.
  destruct (returncode p =? 0)%Z; simpl.
  - rewrite Ht, app_nil_r, orb_false_r. repeat split. congruence.
  - destruct (utf8_valid (stdout p)); simpl.
    + destruct (w_print W (string_of_list_byte (stdout p))) as [[]|e];
        simpl.
      * rewrite Ht, <- !app_assoc. simpl. rewrite orb_true_r.
        repeat split. congruence.
      * rewrite Ht, app_nil_r, orb_false_r. repeat split. congruence.
    + rewrite Ht, app_nil_r, orb_false_r. repeat split. congruence.
Qed.

Lemma started_app a b : started (a ++ b) = (started a ++ started b)%list.
Proof. unfold started. apply flat_map_app. Qed.

Lemma exit_handler_counts i n c :
  let p := w_lammps W n c in
  let new := (exit_events W (Worker i) n c
              ++ handler_events W self (Worker i) p)%list in
  count is_task_exit new = 1 /\ count is_task_invoke new = 0
  /\ count is_task_row new + count is_failure new <= 1
  /\ started new = []
  /\ existsb is_readable_failure new
     = (negb (returncode p =? 0)%Z && utf8_valid (stdout p))%bool.
Proof.
  cbv zeta. unfold exit_events, handler_events, count, started.
  rewrite kill_parent_outcome. simpl.
  destruct (returncode (w_lammps W n c) =? 0)%Z; simpl.
  - destruct (w_row W n c); simpl; repeat split; lia.
  - destruct (utf8_valid (stdout (w_lammps W n c))); simpl;
      [destruct (w_print W _) as [[]|e]|]; simpl; repeat split; lia.
Qed.

Section Invariant.

Variable n : nat.

Lemma resume_inv inflight b j evs pl :
  j_k j = after_exit self ->
  fail_fast_inv K W self n (S inflight) evs pl ->
  let new := (exit_events W (Worker (j_idx j)) (j_inv j) (j_cmd j)
              ++ handler_events W self (Worker (j_idx j))
                   (w_lammps W (j_inv j) (j_cmd j)))%list in
  trace (p_st (resume W b j pl)) = (trace (p_st pl) ++ new)%list
  /\ fail_fast_inv K W self n inflight (evs ++ new) (resume W b j pl).
Proof.
  intros Hk (Hsig & Hq & Hr & Hfail & Hrows & Hexit & Hinv & Hnd) new.
  destruct (resume_effect b j pl Hk Hsig)
    as (Ht & Hs' & Hq' & Hr' & Hraised & Hpend).
  destruct (exit_handler_counts (j_idx j) (j_inv j) (j_cmd j))
    as (Ce & Ci & Cr & Cs & Cf).
  fold new in Ht, Ce, Ci, Cr, Cs, Cf.
  split; [exact Ht|].
  unfold fail_fast_inv.
  rewrite Hq', Hr', Hraised, Hpend, !count_app, started_app, existsb_app,
    Cs, Cf, Ce, Ci, app_nil_r.
  repeat split; auto; try lia.
  intros Hprint H. apply orb_true_iff in H. destruct H as [H|H].
  - apply (Hfail Hprint) in H. apply orb_true_iff in H.
    destruct H as [->| ->]; simpl; auto using orb_true_r.
  - rewrite H, Hprint. simpl. rewrite orb_true_r. reflexivity.
Qed.

Lemma start_inv evs pl i m q cmd :
  p_queue pl = (i, m) :: q ->
  fail_fast_inv K W self n 0 evs pl ->
  fail_fast_inv K W self n 1 (evs ++ [EvInvoke (Worker i) cmd])
    (set_st (start_evaluator (Worker i) cmd) (set_queue q pl)).
Proof.
  intros Hpq (Hsig & Hq & Hr & Hfail & Hrows & Hexit & Hinv & Hnd).
  rewrite Hpq in *. inversion Hq as [|? ? _ Hq']; subst.
  unfold fail_fast_inv. simpl in *.
  rewrite !count_app, started_app, existsb_app, <- app_assoc.
  unfold count in *. simpl in *.
  repeat split; auto; try lia.
  intros Hprint H. rewrite orb_false_r in H. auto.
Qed.

Lemma skip_inv evs pl i m q :
  p_queue pl = (i, m) :: q ->
  fail_fast_inv K W self n 0 evs pl ->
  fail_fast_inv K W self n 0 evs (set_queue q pl).
Proof.
  intros Hpq (Hsig & Hq & Hr & Hfail & Hrows & Hexit & Hinv & Hnd).
  rewrite Hpq in *. inversion Hq as [|? ? _ Hq']; subst.
  unfold fail_fast_inv. simpl in *.
  repeat split; auto; try lia.
  now apply NoDup_remove_1 in Hnd.
Qed.

Lemma enlist_inv inflight evs pl j :
  j_k j = after_exit self ->
  fail_fast_inv K W self n (S inflight) evs pl ->
  fail_fast_inv K W self n inflight evs
    (set_running (p_running pl ++ [j]) pl).
Proof.
  intros Hk (Hsig & Hq & Hr & Hfail & Hrows & Hexit & Hinv & Hnd).
  unfold fail_fast_inv. simpl. rewrite length_app. simpl.
  repeat split; auto; try lia.
  apply Forall_app. split; [exact Hr | constructor; auto].
Qed.

Lemma remove_nth_length {A} (l : list A) slot x :
  nth_error l slot = Some x ->
  List.length l = S (List.length (remove_nth slot l)).
Proof.
  revert slot; induction l as [|y l IH]; intros [|slot] H; simpl in *;
    try discriminate; auto.
Qed.

Lemma delist_inv inflight evs pl slot j :
  nth_error (p_running pl) slot = Some j ->
  fail_fast_inv K W self n inflight evs pl ->
  j_k j = after_exit self
  /\ fail_fast_inv K W self n (S inflight) evs
       (set_running (remove_nth slot (p_running pl)) pl).
Proof.
  intros Hj (Hsig & Hq & Hr & Hfail & Hrows & Hexit & Hinv & Hnd).
  split.
  - rewrite Forall_forall in Hr. apply Hr. eapply nth_error_In; eauto.
  - unfold fail_fast_inv. simpl.
    rewrite (remove_nth_length _ _ _ Hj) in Hexit.
    repeat split; auto; try lia.
    now apply Forall_remove_nth.
Qed.

Lemma work_queue b i (m : io Z) pl :
  p_queue (work W b i m pl) = p_queue pl.
Proof.
  revert pl; induction m as [a|e|c k IH|s k IH|pid sig k IH]; intros pl;
    simpl; auto.
  - destruct b; simpl; auto. now rewrite IH.
  - now rewrite IH.
  - rewrite IH. destruct (kill_outcome W pid sig); [|reflexivity].
    unfold signal_parent.
    destruct (_ && _ && _)%bool; reflexivity.
Qed.

Lemma take_inv b st0 pl i m q :
  p_queue pl = (i, m) :: q ->
  fail_fast K W self n st0 pl ->
  fail_fast K W self n st0 (work W b i m (set_queue q pl)).
Proof.
  intros Hpq (evs & Ht & Hinv).
  assert (Hm : exists t, m = apply_task K self t).
  { destruct Hinv as (_ & Hq & _). rewrite Hpq in Hq.
    inversion Hq as [|? ? Hm _]; subst. exact Hm. }
  destruct Hm as (t & ->). unfold apply_task, _run_lmp.
  destruct (lmp_command K self (t_in_file t) (t_pos t) (t_rot t)
              (t_atom_number t) (t_res t) (t_e_mol t) (t_e_prob t))
    as [cmd|e].
  - rewrite run_lmp_body_after.
    pose proof (start_inv evs pl i _ q cmd Hpq Hinv) as H1.
    destruct b.
    + exists (evs ++ [EvInvoke (Worker i) cmd])%list. split.
      * simpl. rewrite Ht, <- app_assoc. reflexivity.
      * apply (enlist_inv 0 _ _ {| j_idx := i;
                                   j_inv := invocations (p_st pl);
                                   j_cmd := cmd;
                                   j_k := after_exit self |} eq_refl H1).
    + change (work W false i (SubprocessRun cmd (after_exit self))
                   (set_queue q pl))
        with (resume W false
                {| j_idx := i; j_inv := invocations (p_st pl);
                   j_cmd := cmd; j_k := after_exit self |}
                (set_st (start_evaluator (Worker i) cmd) (set_queue q pl))).
      destruct (resume_inv 0 false
                  {| j_idx := i; j_inv := invocations (p_st pl);
                     j_cmd := cmd; j_k := after_exit self |}
                  _ _ eq_refl H1) as [Ht' Hinv'].
      eexists. split; [|exact Hinv'].
      rewrite Ht'. simpl. rewrite Ht, <- !app_assoc. reflexivity.
  - exists evs. split; [exact Ht|].
    exact (skip_inv evs pl i _ q Hpq Hinv).
Qed.

Lemma finish_inv b st0 pl slot j :
  nth_error (p_running pl) slot = Some j ->
  fail_fast K W self n st0 pl ->
  fail_fast K W self n st0
    (resume W b j (set_running (remove_nth slot (p_running pl)) pl)).
Proof.
  intros Hj (evs & Ht & Hinv).
  destruct (delist_inv 0 evs pl slot j Hj Hinv) as [Hk H1].
  destruct (resume_inv 0 b j _ _ Hk H1) as [Ht' Hinv'].
  eexists. split; [|exact Hinv'].
  rewrite Ht'. simpl. rewrite Ht, <- !app_assoc. reflexivity.
Qed.

Lemma pool_step_inv st0 size c pl :
  fail_fast K W self n st0 pl ->
  fail_fast K W self n st0 (pool_step W size c pl).
Proof.
  intros H. unfold pool_step. destruct (waiting pl); [|exact H].
  destruct c as [|slot| |].
  - destruct (p_queue pl) as [|[i m] q] eqn:Eq; [exact H|].
    destruct (List.length (p_running pl) <? size)%nat; [|exact H].
    now apply take_inv.
  - destruct (nth_error (p_running pl) slot) as [j|] eqn:Ej; [|exact H].
    now apply finish_inv.
  - destruct (p_pending pl); [|exact H].
    destruct H as (evs & Ht & Hsig & Hq & Hr & Hfail & Hrest).
    exists evs. split; [exact Ht|]. unfold fail_fast_inv. simpl.
    repeat split; auto; apply Hrest.
  - destruct H as (evs & Ht & Hsig & Hq & Hr & Hfail & Hrows & Hexit
                   & Hinv & Hnd).
    exists (evs ++ [EvOperator])%list.
    assert (Hinv' : forall b,
               fail_fast_inv K W self n 0 (evs ++ [EvOperator])
                 (set_pending (p_pending pl || b)
                    (set_st (emit EvOperator) pl))).
    { intros b. unfold fail_fast_inv.
      rewrite !count_app, started_app, existsb_app, app_nil_r.
      unfold count in *. simpl in *.
      repeat split; auto; try lia.
      intros Hprint H. rewrite orb_false_r in H.
      apply (Hfail Hprint) in H.
      apply orb_true_iff in H. destruct H as [->| ->]; simpl; auto.
      now rewrite orb_true_r. }
    rewrite Hsig. simpl. split.
    + rewrite Ht, <- app_assoc. reflexivity.
    + specialize (Hinv' true). rewrite orb_true_r in Hinv'. exact Hinv'.
Qed.

Lemma fold_step_inv st0 size schedule pl :
  fail_fast K W self n st0 pl ->
  fail_fast K W self n st0
    (fold_left (fun pl c => pool_step W size c pl) schedule pl).
Proof.
  revert pl; induction schedule as [|c s IH]; intros pl H; simpl;
    [exact H|].
  apply IH. now apply pool_step_inv.
Qed.

Lemma drain_running_inv st0 js pl :
  p_running pl = js ->
  fail_fast K W self n st0 pl ->
  fail_fast K W self n st0 (drain_running W js pl).
Proof.
  revert pl; induction js as [|j js IH]; intros pl Hjs H; simpl;
    [exact H|].
  destruct (p_pending pl); [exact H|].
  assert (Hj : nth_error (p_running pl) 0 = Some j) by now rewrite Hjs.
  pose proof (finish_inv false st0 pl 0 j Hj H) as H'.
  rewrite Hjs in H'. simpl in H'.
  apply IH; [|exact H'].
  destruct H as (evs & _ & Hinv).
  destruct (delist_inv 0 evs pl 0 j Hj Hinv) as [Hk (Hsig & _)].
  rewrite Hjs in Hsig. simpl in Hsig.
  destruct (resume_effect false j (set_running js pl) Hk Hsig)
    as (_ & _ & _ & Hr & _).
  exact Hr.
Qed.

Lemma drain_queue_inv st0 q pl :
  p_queue pl = q ->
  fail_fast K W self n st0 pl ->
  fail_fast K W self n st0 (drain_queue W q pl).
Proof.
  revert pl; induction q as [|[i m] q IH]; intros pl Hq H; simpl;
    [exact H|].
  destruct (p_pending pl); [exact H|].
  apply IH; [apply work_queue | now apply take_inv].
Qed.

Lemma drain_inv st0 pl :
  fail_fast K W self n st0 pl -> fail_fast K W self n st0 (drain W pl).
Proof.
  intros H. unfold drain. destruct (p_raised pl); [exact H|]. cbv zeta.
  assert (H2 : fail_fast K W self n st0
                 (drain_queue W (p_queue (drain_running W (p_running pl) pl))
                    (drain_running W (p_running pl) pl)))
    by (apply drain_queue_inv; [reflexivity|];
        apply drain_running_inv; [reflexivity | exact H]).
  destruct (p_pending _); [|exact H2].
  destruct H2 as (evs & Ht & Hsig & Hq & Hr & Hfail & Hrest).
  exists evs. split; [exact Ht|]. unfold fail_fast_inv. simpl.
  repeat split; auto; apply Hrest.
Qed.

(** When [starmap] is over, either [KeyboardInterrupt] was raised in the
    parent or no [SIGINT] is pending. *)
Lemma drain_settled pl :
  p_raised (drain W pl) = true \/ p_pending (drain W pl) = false.
Proof.
  unfold drain. destruct (p_raised pl) eqn:E; [left; exact E|]. cbv zeta.
  destruct (p_pending _) eqn:Ep; [left; reflexivity | right; exact Ep].
Qed.

End Invariant.

Lemma map_fst_combine_seq {A} (l : list A) k :
  map fst (combine (seq k (List.length l)) l) = seq k (List.length l).
Proof.
  revert k; induction l as [|x l IH]; intros k; simpl; [reflexivity|].
  now rewrite IH.
Qed.

Lemma submit_inv tasks st :
  sigint st = default_int_handler ->
  fail_fast K W self (List.length tasks) st
    (submit (apply_task K self) tasks st).
Proof.
  intros Hsig. exists []. split; [simpl; now rewrite app_nil_r|].
  unfold fail_fast_inv, submit, indexed. simpl.
  rewrite length_combine, length_seq, !length_map, Nat.min_id.
  repeat split; auto; try discriminate.
  - apply Forall_forall. intros [i m] Hin. apply in_combine_r in Hin.
    apply in_map_iff in Hin. destruct Hin as (t & <- & _). now exists t.
  - rewrite <- (length_map (apply_task K self) tasks).
    rewrite map_fst_combine_seq. apply seq_NoDup.
Qed.

Lemma readable_failure_counts evs :
  existsb is_readable_failure evs = true -> 1 <= count is_failure evs.
Proof.
  unfold count. induction evs as [|e evs IH]; simpl; [discriminate|].
  intros H. apply orb_true_iff in H. destruct H as [H|H].
  - destruct e as [| | | | |[|i] p| | | | | |]; simpl in *;
      try discriminate.
    apply andb_true_iff in H. destruct H as [-> _]. simpl. lia.
  - apply IH in H. destruct (is_failure e); simpl; lia.
Qed.

(** Fail-fast in the pool: no task is started twice, and, if [print]
    never raises, once a task's evaluator has failed with readable output
    [starmap] ends in [KeyboardInterrupt], with fewer records than tasks
    started. *)
Theorem starmap_fail_fast (procs : Z) (tasks : list task) (st : pstate) :
  sigint st = default_int_handler ->
  let r := pool_starmap W procs (apply_task K self) tasks st in
  exists evs,
    trace (fst r) = (trace st ++ evs)%list
    /\ sigint (fst r) = default_int_handler
    /\ NoDup (started evs)
    /\ count is_task_invoke evs <= List.length tasks
    /\ ((forall s, w_print W s = Ok tt) ->
        existsb is_readable_failure evs = true ->
        snd r = Raise KeyboardInterrupt
        /\ count is_task_row evs < count is_task_invoke evs).
Proof.
  intros Hsig r. subst r. unfold pool_starmap. cbn [fst snd].
  unfold pool_run.
  set (pl := fold_left _ _ _).
  assert (H : fail_fast K W self (List.length tasks) st (drain W pl))
    by (apply drain_inv, fold_step_inv, submit_inv, Hsig).
  destruct H as (evs & Ht & Hs & Hq & Hr & Hfail & Hrows & Hexit & Hinv
                 & Hnd).
  exists evs. split; [exact Ht|]. split; [exact Hs|].
  split; [now apply NoDup_app_remove_r in Hnd|]. split; [lia|].
  intros Hprint Hf. specialize (Hfail Hprint Hf).
  pose proof (readable_failure_counts evs Hf) as Hone.
  split; [|lia].
  unfold starmap_result.
  destruct (drain_settled pl) as [-> | Hp]; [reflexivity|].
  rewrite Hp in Hfail. simpl in Hfail. now rewrite Hfail.
Qed.

End FailFast.

(** *** Fail-fast in the scheduler *)

Lemma mbind_ret {A B} (a : A) (f : A -> M B) st : mbind (ret a) f st = f a st.
Proof. reflexivity. Qed.

Lemma mbind_file_write {B} file text (f : unit -> M B) st :
  mbind (file_write file text) f st = f tt (emit (EvWrite file text) st).
Proof. reflexivity. Qed.

Lemma mbind_signal {B} h (f : handler -> M B) st :
  mbind (signal_signal h) f st
  = f (sigint st) {| trace := trace st ++ [EvSignal h]; sigint := h;
                     invocations := invocations st |}.
Proof. reflexivity. Qed.

Lemma quiet_none (l : list event) :
  Forall (fun e => quiet e = true) l ->
  count is_task_invoke l = 0 /\ count is_task_row l = 0
  /\ started l = [] /\ existsb is_readable_failure l = false
  /\ existsb is_close l = false.
Proof.
  unfold count, started.
  induction 1 as [|e l He _ (I1 & I2 & I3 & I4 & I5)]; simpl; [auto|].
  rewrite I3, I4, I5.
  destruct e as [| | | |[|i] c|[|i] p|[|i] r| | | | |]; simpl in *;
    try discriminate; auto.
Qed.

Section SchedulerFailFast.

Variable K : Constants.
Variable W : world.
Variable self : Sasa.
Variable positions : list (list float).
Variable nb : Neighbors.
Variable n_probes : nat.
Variables e_mol e_prob : float.

(** The scheduler either stops before the pool exists, or runs [starmap]
    on the task list and handles its outcome. *)
Lemma exec_decompose st :
  let r := _exec_lammps_iterations K W self positions nb n_probes
                                   e_mol e_prob st in
  (exists evs e,
      trace (fst r) = (trace st ++ evs)%list
      /\ Forall (fun ev => quiet ev = true) evs /\ snd r = Raise e)
  \/ (exists pre s a rot,
        trace s = (trace st ++ pre)%list
        /\ Forall (fun ev => quiet ev = true) pre
        /\ sigint s = sigint st
        /\ r = after_starmap
                 (pool_starmap W (n_procs self) (apply_task K self)
                    (run_iterable K positions (nb_res nb) rot a
                                  e_mol e_prob) s)).
Proof.
  cbv zeta. unfold _exec_lammps_iterations.
  set (c1 := CountAtomsInMacromol
               (os_path_join (path self) (data_file self))).
  set (c2 := CountAtomsInMol (os_path_join (path self) (mol_file self))).
  set (c3 := RotateProbe (path self) (data_file self) positions nb).
  set (wr := EvWrite (os_path_join (path self) (SPEC K)) (header n_probes)).
  destruct (w_extern W c1) as [a|e] eqn:E1.
  2:{ rewrite (mbind_extern_raise W _ _ _ _ E1). left.
      exists [EvCall c1], e. repeat split. repeat constructor. }
  rewrite (mbind_extern_ok W _ _ _ _ E1), mbind_file_write.
  destruct (w_extern W c2) as [n|e] eqn:E2.
  2:{ rewrite (mbind_extern_raise W _ _ _ _ E2). left.
      exists [EvCall c1; wr; EvCall c2], e. split; [|split].
      - simpl. rewrite <- !app_assoc. reflexivity.
      - repeat constructor.
      - reflexivity. }
  rewrite (mbind_extern_ok W _ _ _ _ E2).
  assert (Hrot :
    (exists e, rotations_for W self positions nb n_probes n
               = (fun st => (emit (EvCall c3) st, Raise e)))
    \/ (exists rot pre,
          Forall (fun ev => quiet ev = true) pre
          /\ forall B (f : list (list float) -> M B) s,
               mbind (rotations_for W self positions nb n_probes n) f s
               = f rot {| trace := trace s ++ pre; sigint := sigint s;
                          invocations := invocations s |})).
  { unfold rotations_for. destruct (n >? 1)%Z.
    - fold c3. destruct (w_extern W c3) as [rot|e] eqn:E3.
      + right. exists rot, [EvCall c3]. split; [repeat constructor|].
        intros B f s. now rewrite (mbind_extern_ok W _ _ _ _ E3).
      + left. exists e. unfold extern. now rewrite E3.
    - right. exists (default_rotations n_probes), []. split; [constructor|].
      intros B f s. rewrite mbind_ret. f_equal.
      destruct s; simpl. now rewrite app_nil_r. }
  destruct Hrot as [(e & Hrot) | (rot & pre & Hpre & Hrot)].
  { left. exists [EvCall c1; wr; EvCall c2; EvCall c3], e.
    rewrite Hrot. unfold mbind. simpl. split; [|split].
    - rewrite <- !app_assoc. reflexivity.
    - repeat constructor.
    - reflexivity. }
  rewrite Hrot, mbind_signal. cbn [sigint].
  unfold with_pool. destruct (n_procs self <? 1)%Z.
  { left. exists ([EvCall c1; wr; EvCall c2] ++ pre ++ [EvSignal SIG_IGN])%list,
             ValueError.
    unfold mbind, raise. simpl. split; [|split].
    - rewrite <- !app_assoc. reflexivity.
    - repeat constructor. apply Forall_app. split; [exact Hpre|].
      repeat constructor.
    - reflexivity. }
  right. unfold mbind at 1. cbv beta. rewrite mbind_signal.
  cbn [sigint emit trace invocations]. unfold try_except_else.
  match goal with
  | |- context [pool_starmap W ?p ?f ?t ?s] =>
      exists ([EvCall c1; wr; EvCall c2] ++ pre
              ++ [EvSignal SIG_IGN; EvPool (n_procs self);
                  EvSignal (sigint st)])%list, s, a, rot;
      destruct (pool_starmap W p f t s) as [s7 [l|e]]
  end.
  - split; [|split; [|split]].
    + simpl. rewrite <- !app_assoc. reflexivity.
    + repeat constructor. apply Forall_app. split; [exact Hpre|].
      repeat constructor.
    + reflexivity.
    + reflexivity.
  - split; [|split; [|split]].
    + simpl. rewrite <- !app_assoc. reflexivity.
    + repeat constructor. apply Forall_app. split; [exact Hpre|].
      repeat constructor.
    + reflexivity.
    + unfold after_starmap. simpl. destruct e; reflexivity.
Qed.

Lemma starmap_never_closes procs tasks st :
  exists evs,
    trace (fst (pool_starmap W procs (apply_task K self) tasks st))
    = (trace st ++ evs)%list
    /\ existsb is_close evs = false.
Proof.
  destruct (m_extends_starmap W (fun e => is_close e = false) procs
              (apply_task K self) tasks eq_refl) with (st := st)
    as (evs & Ht & Hf).
  - intros i t _. apply apply_task_emits; repeat split.
  - exists evs. split; [exact Ht|].
    clear Ht. induction Hf as [|e l He _ IH]; simpl; [reflexivity|].
    now rewrite He, IH.
Qed.

(** Fail-fast in the scheduler, for a run in the process that created the
    [Sasa] object, under the default [SIGINT] handler: no task is started
    twice and at most one per zipped input; if [print] never raises, then
    once a task's evaluator has failed with readable output [starmap] is
    left through the [except] clause: the pool is terminated twice, by the
    clause and on leaving the [with] block, and never closed, and fewer
    records are appended than tasks were started. The pool is followed
    until the parent leaves [starmap]; what the workers do from then until
    they are killed is not. *)
Theorem scheduler_fail_fast st :
  parent_pid self = w_pid W ->
  sigint st = default_int_handler ->
  let r := _exec_lammps_iterations K W self positions nb n_probes
                                   e_mol e_prob st in
  exists evs,
    trace (fst r) = (trace st ++ evs)%list
    /\ NoDup (started evs)
    /\ count is_task_invoke evs
       <= Nat.min (List.length positions) (List.length (nb_res nb))
    /\ ((forall s, w_print W s = Ok tt) ->
        existsb is_readable_failure evs = true ->
        snd r = Ok 0%Z /\ pool_closed evs = false
        /\ (exists l, evs = (l ++ [EvTerminate; EvTerminate])%list)
        /\ count is_task_row evs < count is_task_invoke evs).
Proof.
  intros Hpid Hsig r. subst r.
  destruct (exec_decompose st)
    as [(evs & e & Ht & Hq & Hr) | (pre & s & a & rot & Hs & Hq & Hsg & ->)].
  - destruct (quiet_none evs Hq) as (Ci & Cr & Cs & Cf & Cc).
    exists evs. rewrite Cs, Ci, Cf.
    split; [exact Ht|]. split; [constructor|]. split; [lia|].
    intros _ H. discriminate H.
  - destruct (quiet_none pre Hq) as (Ci & Cr & Cs & Cf & Cc).
    set (tasks := run_iterable K positions (nb_res nb) rot a e_mol e_prob).
    destruct (starmap_fail_fast K W self Hpid (n_procs self) tasks s)
      as (evs & Ht & _ & Hnd & Hcount & Hfail); [congruence|].
    destruct (starmap_never_closes (n_procs self) tasks s)
      as (evs' & Ht' & Hclose).
    rewrite Ht in Ht'. apply app_inv_head in Ht'. subst evs'.
    assert (Hlen : List.length tasks
                   <= Nat.min (List.length positions)
                              (List.length (nb_res nb)))
      by (unfold tasks; rewrite run_iterable_length; lia).
    set (rp := pool_starmap W (n_procs self) (apply_task K self) tasks s)
      in *.
    assert (Hpost : exists post,
               trace (fst (after_starmap rp))
               = (trace (fst rp) ++ post)%list
               /\ count is_task_invoke post = 0
               /\ count is_task_row post = 0 /\ started post = []
               /\ existsb is_readable_failure post = false
               /\ (snd rp = Raise KeyboardInterrupt ->
                   post = [EvTerminate; EvTerminate]
                   /\ snd (after_starmap rp) = Ok 0%Z)).
    { unfold after_starmap. destruct (snd rp) as [l|[]]; simpl;
        eexists; (split; [rewrite <- ?app_assoc; reflexivity
                         |repeat split; try discriminate]). }
    destruct Hpost as (post & Hp & Pi & Pr & Ps & Pf & Pk).
    exists (pre ++ evs ++ post)%list.
    rewrite Hp, Ht, Hs, <- !app_assoc.
    rewrite !started_app, !count_app, !existsb_app, Cs, Ps, Ci, Pi, Cr, Pr,
      Cf, Pf, app_nil_r, orb_false_r.
    simpl. split; [reflexivity|]. split; [exact Hnd|]. split; [lia|].
    intros Hprint H. apply (Hfail Hprint) in H. destruct H as [Hki Hrows].
    destruct (Pk Hki) as [Pc Pok]. subst post.
    split; [exact Pok|]. split; [|split; [|lia]].
    + unfold pool_closed. now rewrite !existsb_app, Cc, Hclose.
    + exists (pre ++ evs)%list. now rewrite <- app_assoc.
Qed.

End SchedulerFailFast.

(** *** Failing tasks *)

(** C1 at a first task whose evaluator exits with status 1 and the byte
    [0xff] on stdout, three tasks on one worker: no signal is sent, the
    two queued tasks are started after the failure and run to their end,
    and only then [starmap] raises the worker's [UnicodeDecodeError]. *)
Theorem garbled_failure_does_not_abort :
  let res := [1; 2; 3]%Z in
  let r := demo_exec (demo_world garbled_first [] demo_positions res) 1
                     demo_positions res in
  worker_marks (trace (fst r))
  = [(0, None); (0, Some 1%Z); (1, None); (1, Some 0%Z);
     (2, None); (2, Some 0%Z)]
  /\ count is_signal_sent (trace (fst r)) = 0
  /\ count is_row (trace (fst r)) = 2
  /\ snd r = Raise UnicodeDecodeError.
Proof. vm_compute. repeat split. Qed.

(** The same run when the failing evaluator's output is readable: the
    worker signals the parent, the pool is terminated, the queued tasks are
    never started. *)
Example readable_failure_aborts :
  let res := [1; 2; 3]%Z in
  let r := demo_exec (demo_world failed_first [] demo_positions res) 1
                     demo_positions res in
  worker_marks (trace (fst r)) = [(0, None); (0, Some 1%Z)]
  /\ count is_signal_sent (trace (fst r)) = 1
  /\ count is_row (trace (fst r)) = 0
  /\ pool_closed (trace (fst r)) = false
  /\ snd r = Ok 0%Z.
Proof. vm_compute. repeat split. Qed.

(** *** More on the worker [_run_lmp] *)

Lemma lmp_command_short K self in_file pos rot a r e1 e2 :
  List.length pos < 3 \/ List.length rot < 4 ->
  lmp_command K self in_file pos rot a r e1 e2 = Raise IndexError.
Proof.
  unfold lmp_command, index.
  destruct pos as [|x [|y [|z pos]]]; simpl; try reflexivity;
    destruct rot as [|g [|vx [|vy [|vz rot]]]]; simpl; try reflexivity;
    intros [H|H]; lia.
Qed.

(** X1: a position with fewer than three components or a rotation with
    fewer than four makes [_run_lmp] raise [IndexError] while it builds the
    command line: no evaluator is started, nothing is printed and no signal
    is sent, in the orchestrating process as in a worker. *)
Theorem run_lmp_short_input_raises (K : Constants) (W : world) (self : Sasa)
    (in_file : string) (pos rot : list float) (atom_number res : Z)
    (e_mol e_prob : float) (st : pstate) (i : nat) (pl : pool) :
  List.length pos < 3 \/ List.length rot < 4 ->
  let m := _run_lmp K self in_file pos rot atom_number res e_mol e_prob in
  run_main W m st = (st, Raise IndexError)
  /\ work W false i m pl = add_result i (Raise IndexError) pl
  /\ work W true i m pl = add_result i (Raise IndexError) pl.
Proof.
  intros H m. subst m. unfold _run_lmp.
  rewrite (lmp_command_short K self in_file pos rot _ _ _ _ H).
  repeat split.
Qed.

Lemma run_lmp_short_input_raises_witness :
  let W := demo_world (fun _ => exit_ok) [] [] [] in
  let m := _run_lmp demo_constants (demo_self W 1) "in.template"
                    [1; 2]%float [0; 1; 0; 0]%float 5 7 2 3 in
  run_main W m initial = (initial, Raise IndexError)
  /\ work W false 0 m idle_pool = add_result 0 (Raise IndexError) idle_pool
  /\ work W true 0 m idle_pool = add_result 0 (Raise IndexError) idle_pool.
Proof.
  apply (run_lmp_short_input_raises demo_constants
           (demo_world (fun _ => exit_ok) [] [] [])).
  left. simpl. lia.
Defined.

(** [_run_lmp] reads the first three components of the position and the
    first four of the rotation; whatever follows them is ignored. *)
Lemma run_lmp_ignores_extra_components (K : Constants) (self : Sasa)
    (in_file : string) (x y z g vx vy vz : float) (more more' : list float)
    (atom_number res : Z) (e_mol e_prob : float) :
  _run_lmp K self in_file (x :: y :: z :: more) (g :: vx :: vy :: vz :: more')
           atom_number res e_mol e_prob
  = _run_lmp K self in_file [x; y; z] [g; vx; vy; vz]
             atom_number res e_mol e_prob.
Proof. reflexivity. Qed.

(** X2: when the evaluator exits with status 0, [_run_lmp] in a worker
    starts it once, prints nothing, sends no signal and reports the return
    value 0: the trace gains the invocation and the evaluator's exit (with
    its record, if any) and nothing else. *)
Theorem worker_success_is_silent (K : Constants) (W : world) (self : Sasa)
    (in_file : string) (pos rot : list float) (atom_number res : Z)
    (e_mol e_prob : float) (cmd : lmp_cmd) (i : nat) (pl : pool) :
  lmp_command K self in_file pos rot atom_number res e_mol e_prob = Ok cmd ->
  returncode (w_lammps W (invocations (p_st pl)) cmd) = 0%Z ->
  let pl' := work W false i
               (_run_lmp K self in_file pos rot atom_number res e_mol e_prob)
               pl in
  p_results pl' = (p_results pl ++ [(i, Ok 0%Z)])%list
  /\ p_pending pl' = p_pending pl
  /\ trace (p_st pl')
     = (trace (p_st pl) ++ EvInvoke (Worker i) cmd
          :: exit_events W (Worker i) (invocations (p_st pl)) cmd)%list.
Proof.
  intros Hcmd Hrc pl'. subst pl'. unfold _run_lmp. rewrite Hcmd.
  rewrite run_lmp_success by exact Hrc. simpl.
  unfold evaluator_exit, exit_events. simpl. rewrite Hrc. simpl.
  destruct (w_row W (invocations (p_st pl)) cmd); simpl;
    rewrite <- ?app_assoc; auto.
Qed.

Lemma worker_success_is_silent_witness :
  let W := demo_world (fun _ => exit_ok) [] [] [] in
  let pl' := work W false 0
               (_run_lmp demo_constants (demo_self W 1) "in.template"
                         [1; 2; 3]%float [0; 1; 0; 0]%float 5 7 2 3)
               idle_pool in
  p_results pl' = (p_results idle_pool ++ [(0, Ok 0%Z)])%list
  /\ p_pending pl' = p_pending idle_pool
  /\ trace (p_st pl')
     = (trace (p_st idle_pool) ++ EvInvoke (Worker 0) demo_cmd
          :: exit_events W (Worker 0) (invocations (p_st idle_pool))
                         demo_cmd)%list.
Proof.
  apply (worker_success_is_silent demo_constants
           (demo_world (fun _ => exit_ok) [] [] [])); reflexivity.
Defined.

(** X3: when the evaluator exits with a non-zero status and its captured
    stdout is valid UTF-8, [_run_lmp] in a worker prints exactly that text
    (the captured stderr is not printed), then sends one [SIGINT] to
    [parent_pid], raises nothing and reports the return value 0, as long
    as neither [print] nor [os.kill] raises. If [print] raises, nothing is
    printed and no signal is sent; if [os.kill] raises, the text was
    printed and no signal is sent; either exception leaves [_run_lmp]. *)
Theorem worker_failure_prints_stdout_and_signals (K : Constants) (W : world)
    (self : Sasa) (in_file : string) (pos rot : list float)
    (atom_number res : Z) (e_mol e_prob : float) (cmd : lmp_cmd) (i : nat)
    (pl : pool) :
  lmp_command K self in_file pos rot atom_number res e_mol e_prob = Ok cmd ->
  let p := w_lammps W (invocations (p_st pl)) cmd in
  returncode p <> 0%Z ->
  utf8_valid (stdout p) = true ->
  let pl' := work W false i
               (_run_lmp K self in_file pos rot atom_number res e_mol e_prob)
               pl in
  let text := string_of_list_byte (stdout p) in
  match w_print W text, kill_outcome W (parent_pid self) SIGINT with
  | Ok _, Ok _ =>
      p_results pl' = (p_results pl ++ [(i, Ok 0%Z)])%list
      /\ trace (p_st pl')
         = (trace (p_st pl)
            ++ [EvInvoke (Worker i) cmd; EvExit (Worker i) p;
                EvPrint (Worker i) text;
                EvKill (Worker i) (parent_pid self) SIGINT])%list
      /\ p_pending pl'
         = (p_pending pl
            || (parent_pid self =? w_pid W)%Z
               && is_default (sigint (p_st pl)))%bool
  | Ok _, Raise e =>
      p_results pl' = (p_results pl ++ [(i, Raise e)])%list
      /\ trace (p_st pl')
         = (trace (p_st pl)
            ++ [EvInvoke (Worker i) cmd; EvExit (Worker i) p;
                EvPrint (Worker i) text])%list
      /\ p_pending pl' = p_pending pl
  | Raise e, _ =>
      p_results pl' = (p_results pl ++ [(i, Raise e)])%list
      /\ trace (p_st pl')
         = (trace (p_st pl)
            ++ [EvInvoke (Worker i) cmd; EvExit (Worker i) p])%list
      /\ p_pending pl' = p_pending pl
  end.
Proof.
  intros Hcmd p Hrc Hutf pl' text. subst pl'. unfold _run_lmp.
  rewrite Hcmd. unfold run_lmp_body, subprocess_run. simpl. fold p.
  apply Z.eqb_neq in Hrc. rewrite Hrc. simpl.
  unfold bytes_decode. rewrite Hutf. simpl. fold text.
  unfold evaluator_exit. simpl. fold p. rewrite Hrc.
  destruct (w_print W text) as [[]|e]; simpl.
  - destruct (kill_outcome W (parent_pid self) SIGINT) as [[]|e]; simpl.
    + unfold signal_parent. simpl. rewrite andb_true_r.
      destruct ((parent_pid self =? w_pid W)%Z
                && is_default (sigint (p_st pl)))%bool; simpl;
        rewrite <- ?app_assoc, ?orb_true_r, ?orb_false_r; auto.
    + rewrite <- !app_assoc. auto.
  - rewrite <- !app_assoc. auto.
Qed.

Lemma worker_failure_prints_stdout_and_signals_witness :
  let W := demo_world (fun _ => exit_failed) [] [] [] in
  let pl' := work W false 0
               (_run_lmp demo_constants (demo_self W 1) "in.template"
                         [1; 2; 3]%float [0; 1; 0; 0]%float 5 7 2 3)
               idle_pool in
  p_results pl' = (p_results idle_pool ++ [(0, Ok 0%Z)])%list
  /\ trace (p_st pl')
     = (trace (p_st idle_pool)
        ++ [EvInvoke (Worker 0) demo_cmd; EvExit (Worker 0) exit_failed;
            EvPrint (Worker 0) (string_of_list_byte (stdout exit_failed));
            EvKill (Worker 0) 4711 SIGINT])%list
  /\ p_pending pl'
     = (p_pending idle_pool
        || (4711 =? 4711)%Z && is_default (sigint (p_st idle_pool)))%bool.
Proof.
  refine (worker_failure_prints_stdout_and_signals demo_constants
            (demo_world (fun _ => exit_failed) [] [] [])
            (demo_self (demo_world (fun _ => exit_failed) [] [] []) 1)
            "in.template" [1; 2; 3]%float [0; 1; 0; 0]%float 5 7 2 3
            demo_cmd 0 idle_pool _ _ _).
  - reflexivity.
  - discriminate.
  - reflexivity.
Defined.

(** The same failure where the standard output cannot take the text:
    [print] raises, no signal is sent, and three tasks on one worker all
    run before [starmap] passes the exception on. *)
Example unprintable_failure_does_not_abort :
  let W := print_raises UnicodeEncodeError
             (demo_world failed_first [] demo_positions [1; 2; 3]%Z) in
  let r := demo_exec W 1 demo_positions [1; 2; 3]%Z in
  p_results (demo_worker W) = [(0, Raise UnicodeEncodeError)]
  /\ p_pending (demo_worker W) = false
  /\ worker_marks (trace (fst r))
     = [(0, None); (0, Some 1%Z); (1, None); (1, Some 0%Z);
        (2, None); (2, Some 0%Z)]
  /\ count is_signal_sent (trace (fst r)) = 0
  /\ snd r = Raise UnicodeEncodeError.
Proof. vm_compute. repeat split. Qed.

(** X4: when the evaluator exits with a non-zero status and its captured
    stdout is not valid UTF-8, decoding it for [print] raises
    [UnicodeDecodeError] in the handler: [_run_lmp] in a worker prints
    nothing, sends no signal and reports that exception instead of
    returning. *)
Theorem worker_failure_undecodable_raises (K : Constants) (W : world)
    (self : Sasa) (in_file : string) (pos rot : list float)
    (atom_number res : Z) (e_mol e_prob : float) (cmd : lmp_cmd) (i : nat)
    (pl : pool) :
  lmp_command K self in_file pos rot atom_number res e_mol e_prob = Ok cmd ->
  let p := w_lammps W (invocations (p_st pl)) cmd in
  returncode p <> 0%Z ->
  utf8_valid (stdout p) = false ->
  let pl' := work W false i
               (_run_lmp K self in_file pos rot atom_number res e_mol e_prob)
               pl in
  p_results pl' = (p_results pl ++ [(i, Raise UnicodeDecodeError)])%list
  /\ trace (p_st pl')
     = (trace (p_st pl)
        ++ [EvInvoke (Worker i) cmd; EvExit (Worker i) p])%list
  /\ p_pending pl' = p_pending pl.
Proof.
  intros Hcmd p Hrc Hutf pl'. subst pl'. unfold _run_lmp. rewrite Hcmd.
  rewrite run_lmp_failure_garbled by assumption. fold p.
  apply Z.eqb_neq in Hrc.
  unfold evaluator_exit. simpl. fold p. rewrite Hrc. simpl.
  rewrite <- app_assoc. auto.
Qed.

Lemma worker_failure_undecodable_raises_witness :
  let W := demo_world (fun _ => exit_garbled) [] [] [] in
  let pl' := work W false 0
               (_run_lmp demo_constants (demo_self W 1) "in.template"
                         [1; 2; 3]%float [0; 1; 0; 0]%float 5 7 2 3)
               idle_pool in
  p_results pl'
  = (p_results idle_pool ++ [(0, Raise UnicodeDecodeError)])%list
  /\ trace (p_st pl')
     = (trace (p_st idle_pool)
        ++ [EvInvoke (Worker 0) demo_cmd; EvExit (Worker 0) exit_garbled])%list
  /\ p_pending pl' = p_pending idle_pool.
Proof.
  apply (worker_failure_undecodable_raises demo_constants
           (demo_world (fun _ => exit_garbled) [] [] [])).
  - reflexivity.
  - discriminate.
  - reflexivity.
Defined.

(** *** The baseline run fails *)



(** X6: when the running process ignores [SIGINT], or [parent_pid] is the
    pid of another process that exists, the same failure of the baseline
    run goes unnoticed: if neither [print] nor [os.kill] raises, then after
    printing and signalling [_pre_calc] calls [_read_last_two] and returns
    or raises what that gives. *)
Theorem baseline_failure_unnoticed (K : Constants) (W : world)
    (self : Sasa) (st : pstate) :
  ((parent_pid self =? w_pid W)%Z && is_default (sigint st))%bool = false ->
  let p := w_lammps W (invocations st) (baseline_cmd K self) in
  returncode p <> 0%Z ->
  utf8_valid (stdout p) = true ->
  w_print W (string_of_list_byte (stdout p)) = Ok tt ->
  kill_outcome W (parent_pid self) SIGINT = Ok tt ->
  let r := _pre_calc K W self st in
  snd r = w_extern W (ReadLastTwo (path self) "etot")
  /\ trace (fst r)
     = (trace st
        ++ [EvInvoke Main (baseline_cmd K self); EvExit Main p;
            EvPrint Main (string_of_list_byte (stdout p));
            EvKill Main (parent_pid self) SIGINT;
            EvCall (ReadLastTwo (path self) "etot")])%list.
Proof.
  intros Hoff p Hrc Hutf Hprint Hkill r. subst r. unfold _pre_calc.
  rewrite pre_calc_command_eq. apply Z.eqb_neq in Hrc.
  unfold mbind, run_lmp_body, subprocess_run. simpl. fold p.
  rewrite Hrc. simpl. unfold bytes_decode. rewrite Hutf. simpl.
  rewrite Hprint. simpl. rewrite Hkill. simpl.
  unfold evaluator_exit. simpl. fold p. rewrite Hrc. simpl.
  rewrite andb_true_r, Hoff. simpl.
  unfold extern, ret. cbn [ext_ret].
  destruct (w_extern W (ReadLastTwo (path self) "etot")); simpl;
    rewrite <- !app_assoc; split; reflexivity.
Qed.

Lemma baseline_failure_unnoticed_witness :
  let W := demo_world (fun _ => exit_failed) [] [] [] in
  let self := demo_self W 1 in
  let st := {| trace := []; sigint := SIG_IGN; invocations := 0 |} in
  let r := _pre_calc demo_constants W self st in
  snd r = w_extern W (ReadLastTwo (path self) "etot")
  /\ trace (fst r)
     = (trace st
        ++ [EvInvoke Main (baseline_cmd demo_constants self);
            EvExit Main exit_failed;
            EvPrint Main (string_of_list_byte (stdout exit_failed));
            EvKill Main (parent_pid self) SIGINT;
            EvCall (ReadLastTwo (path self) "etot")])%list.
Proof.
  apply (baseline_failure_unnoticed demo_constants
           (demo_world (fun _ => exit_failed) [] [] [])).
  - reflexivity.
  - discriminate.
  - reflexivity.
  - reflexivity.
  - reflexivity.
Defined.

(** *** Interrupts in the pool *)

Section Interrupts.

Variable W : world.

Lemma interrupt_step_refl pl : interrupt_step pl pl.
Proof.
  split; [reflexivity|]. split; [auto|].
  exists []. split; [now rewrite app_nil_r | discriminate].
Qed.

Lemma interrupt_step_trans a b c :
  interrupt_step a b -> interrupt_step b c -> interrupt_step a c.
Proof.
  intros (S1 & F1 & n1 & T1 & O1) (S2 & F2 & n2 & T2 & O2).
  split; [congruence|]. split; [auto|].
  exists (n1 ++ n2)%list. split; [now rewrite T2, T1, app_assoc|].
  rewrite existsb_app. intros H Hd. apply orb_true_iff in H.
  destruct H as [H|H]; [apply F2, O1 | apply O2]; auto; congruence.
Qed.

(** A step that adds events of the workers only and does not clear an
    interrupt. *)
Lemma interrupt_step_quiet pl pl' new :
  sigint (p_st pl') = sigint (p_st pl) ->
  (p_pending pl = true -> p_pending pl' = true) ->
  p_raised pl' = p_raised pl ->
  trace (p_st pl') = (trace (p_st pl) ++ new)%list ->
  existsb is_operator new = false ->
  interrupt_step pl pl'.
Proof.
  intros Hs Hp Hr Ht Ho. split; [exact Hs|]. split.
  - rewrite Hr. intros H. apply orb_true_iff in H.
    destruct H as [H|H]; [rewrite (Hp H) | rewrite H, orb_true_r];
      reflexivity.
  - exists new. split; [exact Ht|]. rewrite Ho. discriminate.
Qed.

Lemma evaluator_exit_step i n c pl :
  interrupt_step pl (set_st (evaluator_exit W (Worker i) n c) pl).
Proof.
  destruct (evaluator_exit_trace W (Worker i) n c (p_st pl)) as [Ht Hs].
  apply (interrupt_step_quiet _ _ (exit_events W (Worker i) n c));
    simpl; auto.
  unfold exit_events. simpl.
  destruct (returncode _ =? 0)%Z; [destruct (w_row W n c)|]; reflexivity.
Qed.

Lemma emit_step e pl :
  is_operator e = false -> interrupt_step pl (set_st (emit e) pl).
Proof.
  intros He. apply (interrupt_step_quiet _ _ [e]); simpl; auto.
  now rewrite He.
Qed.

Lemma emit_done_step r e pl :
  is_operator e = false -> interrupt_step pl (set_st (emit_done r e) pl).
Proof.
  intros He. destruct r; simpl; [now apply emit_step|].
  apply (interrupt_step_quiet _ _ []); simpl; auto using app_nil_r.
Qed.

Lemma work_step b i (m : io Z) pl : interrupt_step pl (work W b i m pl).
Proof.
  revert pl; induction m as [a|e|c k IH|s k IH|pid sig k IH]; intros pl;
    simpl.
  - apply (interrupt_step_quiet _ _ []); simpl; auto using app_nil_r.
  - apply (interrupt_step_quiet _ _ []); simpl; auto using app_nil_r.
  - assert (H1 : interrupt_step pl
                   (set_st (start_evaluator (Worker i) c) pl))
      by (apply (interrupt_step_quiet _ _ [EvInvoke (Worker i) c]);
          simpl; auto).
    destruct b.
    + eapply interrupt_step_trans; [exact H1|].
      apply (interrupt_step_quiet _ _ []); simpl; auto using app_nil_r.
    + eapply interrupt_step_trans; [exact H1|].
      eapply interrupt_step_trans; [apply evaluator_exit_step | apply IH].
  - eapply interrupt_step_trans;
      [exact (emit_done_step (w_print W s) (EvPrint (Worker i) s) pl
                eq_refl)
      |apply IH].
  - eapply interrupt_step_trans; [|apply IH].
    destruct (kill_outcome W pid sig); [|apply interrupt_step_refl].
    eapply interrupt_step_trans;
      [exact (emit_step (EvKill (Worker i) pid sig) pl eq_refl)|].
    unfold signal_parent.
    destruct (_ && _ && _)%bool; [|apply interrupt_step_refl].
    apply (interrupt_step_quiet _ _ []); simpl; auto using app_nil_r.
Qed.

Lemma resume_step b j pl : interrupt_step pl (resume W b j pl).
Proof.
  unfold resume.
  eapply interrupt_step_trans; [apply evaluator_exit_step | apply work_step].
Qed.

Lemma set_queue_step q pl : interrupt_step pl (set_queue q pl).
Proof.
  apply (interrupt_step_quiet _ _ []); simpl; auto using app_nil_r.
Qed.

Lemma set_running_step js pl : interrupt_step pl (set_running js pl).
Proof.
  apply (interrupt_step_quiet _ _ []); simpl; auto using app_nil_r.
Qed.

Lemma set_raised_step pl : interrupt_step pl (set_raised pl).
Proof.
  split; [reflexivity|]. split; [intros _; apply orb_true_r|].
  exists []. split; [simpl; now rewrite app_nil_r | discriminate].
Qed.

Lemma pool_step_interrupt size c pl :
  interrupt_step pl (pool_step W size c pl).
Proof.
  unfold pool_step. destruct (waiting pl); [|apply interrupt_step_refl].
  destruct c as [|slot| |].
  - destruct (p_queue pl) as [|[i m] q]; [apply interrupt_step_refl|].
    destruct (_ <? _)%nat; [|apply interrupt_step_refl].
    eapply interrupt_step_trans; [apply set_queue_step | apply work_step].
  - destruct (nth_error (p_running pl) slot) as [j|];
      [|apply interrupt_step_refl].
    eapply interrupt_step_trans; [apply set_running_step | apply resume_step].
  - destruct (p_pending pl); [apply set_raised_step|apply interrupt_step_refl].
  - destruct (sigint (p_st pl)) eqn:Hs; simpl.
    + split; [reflexivity|]. split; [intros _; reflexivity|].
      exists [EvOperator]. split; [reflexivity|]. reflexivity.
    + split; [reflexivity|]. split; [auto|].
      exists [EvOperator]. split; [reflexivity|].
      intros _ H. rewrite Hs in H. discriminate.
Qed.

Lemma fold_step_interrupt size schedule pl :
  interrupt_step pl
    (fold_left (fun pl c => pool_step W size c pl) schedule pl).
Proof.
  revert pl; induction schedule as [|c s IH]; intros pl; simpl;
    [apply interrupt_step_refl|].
  eapply interrupt_step_trans; [apply pool_step_interrupt | apply IH].
Qed.

Lemma drain_running_interrupt js pl :
  interrupt_step pl (drain_running W js pl).
Proof.
  revert pl; induction js as [|j js IH]; intros pl; simpl;
    [apply interrupt_step_refl|].
  destruct (p_pending pl); [apply interrupt_step_refl|].
  eapply interrupt_step_trans; [apply set_running_step|].
  eapply interrupt_step_trans; [apply resume_step | apply IH].
Qed.

Lemma drain_queue_interrupt q pl :
  interrupt_step pl (drain_queue W q pl).
Proof.
  revert pl; induction q as [|[i m] q IH]; intros pl; simpl;
    [apply interrupt_step_refl|].
  destruct (p_pending pl); [apply interrupt_step_refl|].
  eapply interrupt_step_trans; [apply set_queue_step|].
  eapply interrupt_step_trans; [apply work_step | apply IH].
Qed.

Lemma drain_interrupt pl : interrupt_step pl (drain W pl).
Proof.
  unfold drain. destruct (p_raised pl); [apply interrupt_step_refl|].
  cbv zeta.
  assert (H : interrupt_step pl
                (drain_queue W (p_queue (drain_running W (p_running pl) pl))
                   (drain_running W (p_running pl) pl)))
    by (eapply interrupt_step_trans;
        [apply drain_running_interrupt | apply drain_queue_interrupt]).
  destruct (p_pending _); [|exact H].
  eapply interrupt_step_trans; [exact H | apply set_raised_step].
Qed.

Lemma pool_run_interrupt size schedule pl :
  interrupt_step pl (pool_run W size schedule pl).
Proof.
  unfold pool_run.
  eapply interrupt_step_trans; [apply fold_step_interrupt|].
  apply drain_interrupt.
Qed.

(** [starmap] leaves the parent's handler alone, and an interrupt by the
    operator under the default handler ends it in [KeyboardInterrupt]. *)
Lemma starmap_interrupt procs (f : task -> io Z) tasks st :
  let r := pool_starmap W procs f tasks st in
  sigint (fst r) = sigint st
  /\ exists evs,
       trace (fst r) = (trace st ++ evs)%list
       /\ (existsb is_operator evs = true ->
           sigint st = default_int_handler ->
           snd r = Raise KeyboardInterrupt).
Proof.
  cbv zeta. unfold pool_starmap. cbn [fst snd].
  destruct (pool_run_interrupt (Z.to_nat procs) (w_schedule W)
              (submit f tasks st)) as (Hs & _ & evs & Ht & Ho).
  split; [exact Hs|]. exists evs. split; [exact Ht|].
  intros H Hd. specialize (Ho H Hd).
  unfold starmap_result, pool_run in *.
  destruct (drain_settled W
              (fold_left (fun pl c => pool_step W (Z.to_nat procs) c pl)
                 (w_schedule W) (submit f tasks st))) as [-> | Hp];
    [reflexivity|].
  rewrite Hp in Ho. simpl in Ho. now rewrite Ho.
Qed.

End Interrupts.

(** *** The ways through the scheduler *)

Section SchedulerCases.

Variable K : Constants.
Variable W : world.
Variable self : Sasa.
Variable positions : list (list float).
Variable nb : Neighbors.
Variable n_probes : nat.
Variables e_mol e_prob : float.

(** The scheduler stops at the first collaborator that raises, or at
    [Pool] when [n_procs] is below 1, or it runs [starmap] on the zipped
    tasks and handles the outcome. *)
Lemma exec_cases st :
  let r := _exec_lammps_iterations K W self positions nb n_probes
                                   e_mol e_prob st in
  let c1 := CountAtomsInMacromol
              (os_path_join (path self) (data_file self)) in
  let c2 := CountAtomsInMol (os_path_join (path self) (mol_file self)) in
  let c3 := RotateProbe (path self) (data_file self) positions nb in
  let wr := EvWrite (os_path_join (path self) (SPEC K)) (header n_probes) in
  (exists e,
      w_extern W c1 = Raise e /\ snd r = Raise e
      /\ sigint (fst r) = sigint st
      /\ trace (fst r) = (trace st ++ [EvCall c1])%list)
  \/ exists a,
       w_extern W c1 = Ok a
       /\ ((exists e,
               w_extern W c2 = Raise e /\ snd r = Raise e
               /\ sigint (fst r) = sigint st
               /\ trace (fst r) = (trace st ++ [EvCall c1; wr; EvCall c2])%list)
           \/ exists n,
                w_extern W c2 = Ok n
                /\ ((exists e,
                        (n >? 1)%Z = true /\ w_extern W c3 = Raise e
                        /\ snd r = Raise e /\ sigint (fst r) = sigint st
                        /\ trace (fst r)
                           = (trace st
                              ++ [EvCall c1; wr; EvCall c2; EvCall c3])%list)
                    \/ exists rot pre,
                         (((n >? 1)%Z = true /\ w_extern W c3 = Ok rot
                           /\ pre = [EvCall c1; wr; EvCall c2; EvCall c3])
                          \/ ((n >? 1)%Z = false
                              /\ rot = default_rotations n_probes
                              /\ pre = [EvCall c1; wr; EvCall c2]))
                         /\ (((n_procs self <? 1)%Z = true
                              /\ snd r = Raise ValueError
                              /\ sigint (fst r) = SIG_IGN
                              /\ trace (fst r)
                                 = (trace st ++ pre
                                    ++ [EvSignal SIG_IGN])%list)
                             \/ ((n_procs self <? 1)%Z = false
                                 /\ r = after_starmap
                                          (pool_starmap W (n_procs self)
                                             (apply_task K self)
                                             (run_iterable K positions
                                                (nb_res nb) rot a
                                                e_mol e_prob)
                                             {| trace :=
                                                  trace st ++ pre
                                                  ++ [EvSignal SIG_IGN;
                                                      EvPool (n_procs self);
                                                      EvSignal (sigint st)];
                                                sigint := sigint st;
                                                invocations :=
                                                  invocations st |}))))).
Proof.
  cbv zeta. unfold _exec_lammps_iterations.
  set (c1 := CountAtomsInMacromol
               (os_path_join (path self) (data_file self))).
  set (c2 := CountAtomsInMol (os_path_join (path self) (mol_file self))).
  set (c3 := RotateProbe (path self) (data_file self) positions nb).
  set (wr := EvWrite (os_path_join (path self) (SPEC K)) (header n_probes)).
  destruct (w_extern W c1) as [a|e] eqn:E1.
  2:{ rewrite (mbind_extern_raise W _ _ _ _ E1). left.
      exists e. repeat split. }
  right. exists a. split; [reflexivity|].
  rewrite (mbind_extern_ok W _ _ _ _ E1), mbind_file_write.
  destruct (w_extern W c2) as [n|e] eqn:E2.
  2:{ rewrite (mbind_extern_raise W _ _ _ _ E2). left.
      exists e. simpl. rewrite <- !app_assoc. repeat split. }
  right. exists n. split; [reflexivity|].
  rewrite (mbind_extern_ok W _ _ _ _ E2).
  assert (Hrot :
    (exists e, (n >? 1)%Z = true /\ w_extern W c3 = Raise e
               /\ rotations_for W self positions nb n_probes n
                  = (fun st => (emit (EvCall c3) st, Raise e)))
    \/ (exists rot tail,
          (((n >? 1)%Z = true /\ w_extern W c3 = Ok rot
            /\ tail = [EvCall c3])
           \/ ((n >? 1)%Z = false /\ rot = default_rotations n_probes
               /\ tail = []))
          /\ forall B (f : list (list float) -> M B) s,
               mbind (rotations_for W self positions nb n_probes n) f s
               = f rot {| trace := trace s ++ tail; sigint := sigint s;
                          invocations := invocations s |})).
  { unfold rotations_for. destruct (n >? 1)%Z.
    - fold c3. destruct (w_extern W c3) as [rot|e] eqn:E3.
      + right. exists rot, [EvCall c3]. split; [left; auto|].
        intros B f s. now rewrite (mbind_extern_ok W _ _ _ _ E3).
      + left. exists e. unfold extern. now rewrite E3.
    - right. exists (default_rotations n_probes), []. split; [right; auto|].
      intros B f s. rewrite mbind_ret. f_equal.
      destruct s; simpl. now rewrite app_nil_r. }
  destruct Hrot as [(e & Hn & E3 & Hrot) | (rot & tail & Hcase & Hrot)].
  { left. exists e. rewrite Hrot. unfold mbind. simpl.
    rewrite <- !app_assoc. repeat split; assumption. }
  right. exists rot, ([EvCall c1; wr; EvCall c2] ++ tail)%list.
  split.
  { destruct Hcase as [(Hn & E3 & ->) | (Hn & -> & ->)];
      [left | right]; repeat split; assumption. }
  rewrite Hrot, mbind_signal. cbn [sigint].
  unfold with_pool. destruct (n_procs self <? 1)%Z.
  { left. unfold mbind, raise. simpl.
    rewrite <- !app_assoc. repeat split. }
  right. split; [reflexivity|].
  unfold mbind at 1. cbv beta. rewrite mbind_signal.
  cbn [sigint emit trace invocations]. unfold try_except_else.
  match goal with
  | |- context [pool_starmap W ?p ?f ?t ?s] =>
      assert (Hs : s = {| trace := trace st
                           ++ ([EvCall c1; wr; EvCall c2] ++ tail)
                           ++ [EvSignal SIG_IGN; EvPool (n_procs self);
                               EvSignal (sigint st)];
                          sigint := sigint st;
                          invocations := invocations st |})
        by (f_equal; simpl; rewrite <- !app_assoc; reflexivity);
      rewrite Hs; clear Hs
  end.
  match goal with
  | |- context [pool_starmap W ?p ?f ?t ?s] =>
      destruct (pool_starmap W p f t s) as [s7 [l|e]]
  end.
  - reflexivity.
  - unfold after_starmap. simpl. destruct e; reflexivity.
Qed.

End SchedulerCases.

Lemma setup_none (l : list event) :
  Forall (fun e => is_setup e = true) l ->
  existsb is_operator l = false /\ existsb is_close l = false
  /\ forall k, ~ In (EvPool k) l.
Proof.
  induction 1 as [|e l He _ (I1 & I2 & I3)]; simpl.
  - repeat split. intros k [].
  - rewrite I1, I2. destruct e; simpl in *; try discriminate;
      (repeat split; intros k [H|H]; [discriminate | now apply (I3 k)]).
Qed.



Lemma after_starmap_trace (r : pstate * result (list Z)) :
  sigint (fst (after_starmap r)) = sigint (fst r)
  /\ exists post,
       trace (fst (after_starmap r)) = (trace (fst r) ++ post)%list
       /\ (snd r = Raise KeyboardInterrupt ->
           post = [EvTerminate; EvTerminate]
           /\ snd (after_starmap r) = Ok 0%Z).
Proof.
  unfold after_starmap. destruct (snd r) as [l|[]]; simpl;
    (split; [reflexivity|]); eexists;
    (split; [rewrite <- ?app_assoc; reflexivity|]);
    intros H; try discriminate H.
  split; reflexivity.
Qed.



(** X9: in the process that created the [Sasa] object and under the
    default [SIGINT] handler, the scheduler starts no task's evaluator
    twice, and starts at most as many as the shorter of the position list
    and the residue list has entries. *)
Theorem no_task_started_twice (K : Constants) (W : world) (self : Sasa)
    (positions : list (list float)) (nb : Neighbors) (n_probes : nat)
    (e_mol e_prob : float) (st : pstate) :
  parent_pid self = w_pid W ->
  sigint st = default_int_handler ->
  let r := _exec_lammps_iterations K W self positions nb n_probes
                                   e_mol e_prob st in
  exists evs,
    trace (fst r) = (trace st ++ evs)%list
    /\ NoDup (started evs)
    /\ count is_task_invoke evs
       <= Nat.min (List.length positions) (List.length (nb_res nb)).
Proof.
  intros Hpid Hsig r. subst r.
  destruct (scheduler_fail_fast K W self positions nb n_probes e_mol e_prob
              st Hpid Hsig) as (evs & Ht & Hnd & Hc & _).
  exists evs. auto.
Qed.

Lemma no_task_started_twice_witness :
  let W := demo_world (fun _ => exit_ok) [Take; Take; Finish 1]
                      demo_positions [1; 2]%Z in
  let r := demo_exec W 2 demo_positions [1; 2]%Z in
  exists evs,
    trace (fst r) = (trace initial ++ evs)%list
    /\ NoDup (started evs)
    /\ count is_task_invoke evs
       <= Nat.min (List.length demo_positions) (List.length [1; 2]%Z).
Proof.
  apply (no_task_started_twice demo_constants
           (demo_world (fun _ => exit_ok) [Take; Take; Finish 1]
                       demo_positions [1; 2]%Z)
           (demo_self (demo_world (fun _ => exit_ok) [Take; Take; Finish 1]
                                  demo_positions [1; 2]%Z) 2)
           demo_positions {| nb_res := [1; 2]%Z |} 3 2%float 3%float
           initial); reflexivity.
Defined.


Lemma failed_first_single schedule positions res :
  single_failure (demo_world failed_first schedule positions res).
Proof.
  intros [|k] [|k'] c c' H H'; simpl in *; try reflexivity; discriminate.
Qed.




(** *** Every task runs when nothing fails *)

Lemma well_formed_command K self t :
  well_formed t = true ->
  exists cmd,
    lmp_command K self (t_in_file t) (t_pos t) (t_rot t) (t_atom_number t)
                (t_res t) (t_e_mol t) (t_e_prob t) = Ok cmd.
Proof.
  unfold well_formed, lmp_command, index. intros H.
  apply andb_true_iff in H. destruct H as [Hp Hr].
  apply Nat.leb_le in Hp, Hr.
  destruct (t_pos t) as [|x [|y [|z pos]]]; simpl in Hp; try lia.
  destruct (t_rot t) as [|g [|vx [|vy [|vz rot]]]]; simpl in Hr; try lia.
  simpl. eexists. reflexivity.
Qed.

Lemma first_failure_app rs i r :
  first_failure (rs ++ [(i, r)])
  = match first_failure rs with
    | Some e => Some e
    | None => match r with Raise e => Some e | Ok _ => None end
    end.
Proof.
  induction rs as [|[j [w|e]] rs IH]; simpl; auto.
Qed.

Lemma started_length evs :
  List.length (started evs) = count is_task_invoke evs.
Proof.
  unfold started, count. induction evs as [|e evs IH]; simpl; [reflexivity|].
  rewrite length_app, IH.
  destruct e as [| | | |[|i] c| | | | | | |]; reflexivity.
Qed.

Lemma calm_none ok (l : list event) :
  Forall (fun e => is_calm ok e = true) l ->
  count is_print l = 0 /\ count is_signal_sent l = 0
  /\ existsb is_close l = false.
Proof.
  unfold count.
  induction 1 as [|e l He _ (I1 & I2 & I3)]; simpl; [auto|].
  rewrite I3.
  destruct e as [| | | |[|i] c|[|i] p|[|i] r| | | | |]; simpl in *;
    try discriminate; auto.
Qed.

Lemma calm_zero (l : list event) :
  Forall (fun e => is_calm exited_zero e = true) l ->
  existsb is_failure l = false.
Proof.
  induction 1 as [|e l He _ IH]; simpl; [reflexivity|].
  rewrite IH.
  destruct e as [| | | |[|i] c|[|i] p|[|i] r| | | | |]; simpl in *;
    try discriminate; auto.
  unfold exited_zero in He. now rewrite He.
Qed.

Section Undisturbed.

Variable K : Constants.
Variable W : world.
Variable self : Sasa.
Variable ok : CompletedProcess -> bool.
Variable n : nat.
Hypothesis ok_unsignalled : forall p, ok p = true -> unsignalled p = true.
Hypothesis all_ok : forall k c, ok (w_lammps W k c) = true.

Lemma work_after_unsignalled b i p pl :
  unsignalled p = true ->
  work W b i (after_exit self p) pl = add_result i (report p) pl.
Proof.
  unfold unsignalled, after_exit, report. intros H.
  destruct (returncode p =? 0)%Z; simpl; [reflexivity|].
  simpl in H. apply negb_true_iff in H.
  unfold bytes_decode. rewrite H. reflexivity.
Qed.

Lemma exit_events_calm i k c :
  let new := exit_events W (Worker i) k c in
  count is_task_exit new = 1 /\ count is_task_invoke new = 0
  /\ started new = [] /\ Forall (fun e => is_calm ok e = true) new
  /\ existsb is_failure new = negb (returncode (w_lammps W k c) =? 0)%Z.
Proof.
  cbv zeta. unfold exit_events, count, started. simpl.
  destruct (returncode (w_lammps W k c) =? 0)%Z eqn:E; simpl.
  - destruct (w_row W k c); simpl; repeat split; repeat constructor;
      simpl; apply all_ok.
  - repeat split. repeat constructor. simpl. apply all_ok.
Qed.

Lemma resume_undisturbed inflight b j evs pl :
  j_k j = after_exit self ->
  undisturbed K self ok n (S inflight) evs pl ->
  let new := exit_events W (Worker (j_idx j)) (j_inv j) (j_cmd j) in
  trace (p_st (resume W b j pl)) = (trace (p_st pl) ++ new)%list
  /\ undisturbed K self ok n inflight (evs ++ new) (resume W b j pl)
  /\ p_queue (resume W b j pl) = p_queue pl
  /\ p_running (resume W b j pl) = p_running pl.
Proof.
  intros Hk (Hp & Hr & Hq & Hj & Hff & Hexit & Hinv & Hcalm & Hnd & Hincl)
         new.
  unfold resume.
  rewrite Hk, work_after_unsignalled by apply ok_unsignalled, all_ok.
  simpl.
  destruct (evaluator_exit_trace W (Worker (j_idx j)) (j_inv j) (j_cmd j)
              (p_st pl)) as [Ht _].
  destruct (exit_events_calm (j_idx j) (j_inv j) (j_cmd j))
    as (Ce & Ci & Cs & Cc & Cf).
  fold new in Ht, Ce, Ci, Cs, Cc, Cf.
  split; [exact Ht|]. split; [|split; reflexivity].
  unfold undisturbed. simpl.
  rewrite !count_app, started_app, existsb_app, Cs, Ce, Ci, Cf, app_nil_r.
  repeat split; auto; try lia.
  - rewrite first_failure_app, Hff. unfold report.
    destruct (existsb is_failure evs); [reflexivity|].
    now destruct (returncode _ =? 0)%Z.
  - apply Forall_app. split; assumption.
Qed.

Lemma start_undisturbed evs pl i m q cmd :
  p_queue pl = (i, m) :: q ->
  undisturbed K self ok n 0 evs pl ->
  undisturbed K self ok n 1 (evs ++ [EvInvoke (Worker i) cmd])
    (set_st (start_evaluator (Worker i) cmd) (set_queue q pl)).
Proof.
  intros Hpq (Hp & Hr & Hq & Hj & Hff & Hexit & Hinv & Hcalm & Hnd & Hincl).
  rewrite Hpq in *. inversion Hq as [|? ? _ Hq']; subst.
  unfold undisturbed. simpl in *.
  rewrite !count_app, started_app, existsb_app, <- app_assoc.
  unfold count in *. simpl in *. rewrite orb_false_r.
  repeat split; auto; try lia.
  apply Forall_app. split; [assumption | repeat constructor].
Qed.

Lemma take_undisturbed b st0 pl i m q :
  p_queue pl = (i, m) :: q ->
  runs_undisturbed K self ok n st0 pl ->
  let pl' := work W b i m (set_queue q pl) in
  runs_undisturbed K self ok n st0 pl'
  /\ p_queue pl' = q
  /\ (b = false -> p_running pl' = p_running pl).
Proof.
  intros Hpq (evs & Ht & Hinv) pl'. subst pl'.
  assert (Hm : exists t, m = apply_task K self t /\ well_formed t = true).
  { destruct Hinv as (_ & _ & Hq & _). rewrite Hpq in Hq.
    inversion Hq as [|? ? Hm _]; subst. exact Hm. }
  destruct Hm as (t & -> & Hwf).
  destruct (well_formed_command K self t Hwf) as (cmd & Hcmd).
  unfold apply_task, _run_lmp. rewrite Hcmd, run_lmp_body_after.
  pose proof (start_undisturbed evs pl i _ q cmd Hpq Hinv) as H1.
  destruct b.
  - split; [|split; [reflexivity | discriminate]].
    exists (evs ++ [EvInvoke (Worker i) cmd])%list. split.
    + simpl. rewrite Ht, <- app_assoc. reflexivity.
    + destruct H1 as (Hp & Hr & Hq & Hj & Hff & Hexit & Hi & Hcalm & Hnd
                      & Hincl).
      unfold undisturbed. simpl in *. rewrite length_app. simpl.
      repeat split; auto; try lia.
      apply Forall_app. split; [exact Hj | repeat constructor].
  - change (work W false i (SubprocessRun cmd (after_exit self))
                 (set_queue q pl))
      with (resume W false
              {| j_idx := i; j_inv := invocations (p_st pl);
                 j_cmd := cmd; j_k := after_exit self |}
              (set_st (start_evaluator (Worker i) cmd) (set_queue q pl))).
    destruct (resume_undisturbed 0 false
                {| j_idx := i; j_inv := invocations (p_st pl);
                   j_cmd := cmd; j_k := after_exit self |}
                _ _ eq_refl H1) as (Ht' & Hinv' & Hq' & Hr').
    split; [|split; [exact Hq' | intros _; exact Hr']].
    eexists. split; [|exact Hinv'].
    rewrite Ht'. simpl. rewrite Ht, <- !app_assoc. reflexivity.
Qed.

Lemma finish_undisturbed b st0 pl slot j :
  nth_error (p_running pl) slot = Some j ->
  runs_undisturbed K self ok n st0 pl ->
  let pl' := resume W b j (set_running (remove_nth slot (p_running pl)) pl) in
  runs_undisturbed K self ok n st0 pl'
  /\ p_queue pl' = p_queue pl
  /\ p_running pl' = remove_nth slot (p_running pl).
Proof.
  intros Hj (evs & Ht & Hinv) pl'. subst pl'.
  destruct Hinv as (Hp & Hr & Hq & Hjs & Hff & Hexit & Hi & Hcalm & Hnd
                    & Hincl).
  assert (Hk : j_k j = after_exit self).
  { rewrite Forall_forall in Hjs. apply Hjs. eapply nth_error_In; eauto. }
  assert (H1 : undisturbed K self ok n 1 evs
                 (set_running (remove_nth slot (p_running pl)) pl)).
  { unfold undisturbed. simpl.
    rewrite (remove_nth_length _ _ _ Hj) in Hexit.
    repeat split; auto; try lia. now apply Forall_remove_nth. }
  destruct (resume_undisturbed 0 b j _ _ Hk H1) as (Ht' & Hinv' & Hq' & Hr').
  split; [|split; [exact Hq' | exact Hr']].
  eexists. split; [|exact Hinv'].
  rewrite Ht'. simpl. rewrite Ht, <- !app_assoc. reflexivity.
Qed.

Lemma pool_step_undisturbed st0 size c pl :
  is_operator_choice c = false ->
  runs_undisturbed K self ok n st0 pl ->
  runs_undisturbed K self ok n st0 (pool_step W size c pl).
Proof.
  intros Hc H. unfold pool_step. destruct (waiting pl); [|exact H].
  destruct c as [|slot| |]; try discriminate Hc.
  - destruct (p_queue pl) as [|[i m] q] eqn:Eq; [exact H|].
    destruct (List.length (p_running pl) <? size)%nat; [|exact H].
    now apply take_undisturbed.
  - destruct (nth_error (p_running pl) slot) as [j|] eqn:Ej; [|exact H].
    now apply finish_undisturbed.
  - destruct H as (evs & Ht & Hp & Hrest). rewrite Hp.
    exists evs. split; [exact Ht|]. split; assumption.
Qed.

Lemma fold_step_undisturbed st0 size schedule pl :
  forallb (fun c => negb (is_operator_choice c)) schedule = true ->
  runs_undisturbed K self ok n st0 pl ->
  runs_undisturbed K self ok n st0
    (fold_left (fun pl c => pool_step W size c pl) schedule pl).
Proof.
  revert pl; induction schedule as [|c s IH]; intros pl Hs H; simpl in *;
    [exact H|].
  apply andb_true_iff in Hs. destruct Hs as [Hc Hs].
  apply IH; [exact Hs|]. apply pool_step_undisturbed; [|exact H].
  now apply negb_true_iff.
Qed.

Lemma drain_running_undisturbed st0 js pl :
  p_running pl = js ->
  runs_undisturbed K self ok n st0 pl ->
  let pl' := drain_running W js pl in
  runs_undisturbed K self ok n st0 pl'
  /\ p_running pl' = [] /\ p_queue pl' = p_queue pl.
Proof.
  revert pl; induction js as [|j js IH]; intros pl Hjs H; simpl;
    [auto|].
  assert (Hp : p_pending pl = false) by (destruct H as (? & _ & Hp & _); auto).
  rewrite Hp.
  assert (Hj : nth_error (p_running pl) 0 = Some j) by now rewrite Hjs.
  destruct (finish_undisturbed false st0 pl 0 j Hj H) as (H' & Hq' & Hr').
  rewrite Hjs in H', Hq', Hr'. simpl in H', Hq', Hr'.
  destruct (IH _ Hr' H') as (H2 & Hr2 & Hq2).
  split; [exact H2|]. split; [exact Hr2|]. now rewrite Hq2.
Qed.

Lemma drain_queue_undisturbed st0 q pl :
  p_queue pl = q ->
  runs_undisturbed K self ok n st0 pl ->
  let pl' := drain_queue W q pl in
  runs_undisturbed K self ok n st0 pl'
  /\ p_queue pl' = [] /\ p_running pl' = p_running pl.
Proof.
  revert pl; induction q as [|[i m] q IH]; intros pl Hq H; simpl;
    [auto|].
  assert (Hp : p_pending pl = false) by (destruct H as (? & _ & Hp & _); auto).
  rewrite Hp.
  destruct (take_undisturbed false st0 pl i m q Hq H) as (H' & Hq' & Hr').
  destruct (IH _ Hq' H') as (H2 & Hq2 & Hr2).
  split; [exact H2|]. split; [exact Hq2|]. now rewrite Hr2, Hr'.
Qed.

Lemma drain_undisturbed st0 pl :
  runs_undisturbed K self ok n st0 pl ->
  runs_undisturbed K self ok n st0 (drain W pl)
  /\ p_queue (drain W pl) = [] /\ p_running (drain W pl) = [].
Proof.
  intros H. unfold drain.
  assert (Hr : p_raised pl = false)
    by (destruct H as (? & _ & _ & Hr & _); auto).
  rewrite Hr. cbv zeta.
  destruct (drain_running_undisturbed st0 (p_running pl) pl eq_refl H)
    as (H1 & Hr1 & Hq1).
  destruct (drain_queue_undisturbed st0 _ _ eq_refl H1) as (H2 & Hq2 & Hr2).
  assert (Hp : p_pending
                 (drain_queue W (p_queue (drain_running W (p_running pl) pl))
                    (drain_running W (p_running pl) pl)) = false)
    by (destruct H2 as (? & _ & Hp & _); auto).
  rewrite Hp. split; [exact H2|]. split; [exact Hq2|]. now rewrite Hr2.
Qed.

Lemma submit_undisturbed tasks st :
  n = List.length tasks ->
  forallb well_formed tasks = true ->
  runs_undisturbed K self ok n st (submit (apply_task K self) tasks st).
Proof.
  intros -> Hwf. exists []. split; [simpl; now rewrite app_nil_r|].
  unfold undisturbed, submit, indexed, count. simpl.
  rewrite length_combine, length_seq, !length_map, Nat.min_id.
  rewrite <- (length_map (apply_task K self) tasks).
  rewrite map_fst_combine_seq, length_map.
  repeat split; auto.
  - apply Forall_forall. intros [i m] Hin. apply in_combine_r in Hin.
    apply in_map_iff in Hin. destruct Hin as (t & <- & Hin).
    exists t. split; [reflexivity|].
    rewrite forallb_forall in Hwf. now apply Hwf.
  - apply seq_NoDup.
  - apply incl_refl.
Qed.

(** With no failing evaluator and no interrupt, [starmap] runs every task
    once and returns. *)
Lemma starmap_undisturbed procs tasks st :
  n = List.length tasks ->
  forallb well_formed tasks = true ->
  forallb (fun c => negb (is_operator_choice c)) (w_schedule W) = true ->
  let r := pool_starmap W procs (apply_task K self) tasks st in
  exists evs,
    trace (fst r) = (trace st ++ evs)%list
    /\ (if existsb is_failure evs then snd r = Raise UnicodeDecodeError
        else exists l, snd r = Ok l)
    /\ Permutation (started evs) (seq 0 n)
    /\ count is_task_exit evs = n
    /\ Forall (fun e => is_calm ok e = true) evs.
Proof.
  intros Hn Hwf Hs r. subst r. unfold pool_starmap, pool_run. cbn [fst snd].
  set (pl := fold_left _ _ _).
  assert (H : runs_undisturbed K self ok n st pl)
    by (apply fold_step_undisturbed; [exact Hs|];
        now apply submit_undisturbed).
  destruct (drain_undisturbed st pl H) as ((evs & Ht & Hinv) & Hq & Hr).
  destruct Hinv as (Hp & Hra & _ & _ & Hff & Hexit & Hi & Hcalm & Hnd
                    & Hincl).
  rewrite Hq, Hr in *. simpl in *. rewrite app_nil_r in *.
  exists evs. split; [exact Ht|].
  unfold starmap_result. rewrite Hra, Hff.
  split; [destruct (existsb is_failure evs); [reflexivity | eexists; reflexivity]|].
  split; [|split; [lia | exact Hcalm]].
  apply NoDup_Permutation_bis; [exact Hnd | | exact Hincl].
  rewrite length_seq, started_length. lia.
Qed.

End Undisturbed.

Lemma setup_quiet (l : list event) :
  Forall (fun e => is_setup e = true) l ->
  started l = [] /\ count is_task_exit l = 0
  /\ existsb is_failure l = false /\ count is_signal_sent l = 0
  /\ forall i c, ~ In (EvInvoke (Worker i) c) l.
Proof.
  unfold started, count.
  induction 1 as [|e l He _ (I1 & I2 & I3 & I4 & I5)]; simpl.
  - repeat split. intros i c [].
  - rewrite I1, I3.
    destruct e; simpl in *; try discriminate;
      (repeat split; auto; intros i' c' [H|H];
       [discriminate | now apply (I5 i' c')]).
Qed.

Lemma exits_ok_calm ok (l : list event) :
  Forall (fun e => is_calm ok e = true) l ->
  forall i p, In (EvExit (Worker i) p) l -> ok p = true.
Proof.
  intros H i p Hin. rewrite Forall_forall in H. exact (H _ Hin).
Qed.

Lemma exits_zero_no_failure (l : list event) :
  (forall i p, In (EvExit (Worker i) p) l -> exited_zero p = true) ->
  existsb is_failure l = false.
Proof.
  induction l as [|e l IH]; simpl; [reflexivity|]. intros H.
  rewrite IH by (intros i p Hin; apply (H i p); now right).
  destruct e as [| | | | |[|i] p| | | | | |]; simpl; auto.
  specialize (H i p (or_introl eq_refl)). unfold exited_zero in H.
  now rewrite H.
Qed.

(** When no exit makes a worker signal and nobody interrupts, the
    scheduler runs every zipped task once; it closes the pool and returns,
    or passes on the [UnicodeDecodeError] of a failure. *)
Lemma exec_undisturbed (K : Constants) (W : world) (self : Sasa)
    (positions : list (list float)) (nb : Neighbors) (n_probes : nat)
    (e_mol e_prob : float) (st : pstate) (a n : Z)
    (rot : list (list float)) (ok : CompletedProcess -> bool) :
  (forall p, ok p = true -> unsignalled p = true) ->
  (forall k c, ok (w_lammps W k c) = true) ->
  forallb (fun c => negb (is_operator_choice c)) (w_schedule W) = true ->
  (1 <= n_procs self)%Z ->
  w_extern W (CountAtomsInMacromol
                (os_path_join (path self) (data_file self))) = Ok a ->
  w_extern W (CountAtomsInMol
                (os_path_join (path self) (mol_file self))) = Ok n ->
  (if (n >? 1)%Z
   then w_extern W (RotateProbe (path self) (data_file self) positions nb)
        = Ok rot
   else rot = default_rotations n_probes) ->
  Forall (fun pos => 3 <= List.length pos) positions ->
  Forall (fun o => 4 <= List.length o) rot ->
  let N := Nat.min (List.length positions)
                   (Nat.min (List.length (nb_res nb)) (List.length rot)) in
  let r := _exec_lammps_iterations K W self positions nb n_probes
                                   e_mol e_prob st in
  exists evs,
    trace (fst r) = (trace st ++ evs)%list
    /\ Permutation (started evs) (seq 0 N)
    /\ count is_task_exit evs = N
    /\ count is_signal_sent evs = 0
    /\ (forall i p, In (EvExit (Worker i) p) evs -> ok p = true)
    /\ (if existsb is_failure evs
        then snd r = Raise UnicodeDecodeError /\ pool_closed evs = false
        else snd r = Ok 0%Z /\ pool_closed evs = true).
Proof.
  intros Hok Hall Hsched Hp H1 H2 H3 Hpos Hrot N r. subst r.
  destruct (exec_cases K W self positions nb n_probes e_mol e_prob st)
    as [(e & E1 & _) | (a' & E1 & [(e & E2 & _) | (n' & E2 & Hc)])];
    cbn [ext_ret] in *; try congruence.
  assert (a' = a) by congruence. assert (n' = n) by congruence.
  subst a' n'.
  destruct Hc as [(e & Hn & E3 & _) | (rot' & pre & Hcase & Hc)].
  { rewrite Hn in H3. cbn [ext_ret] in *. congruence. }
  assert (Hpre : rot' = rot /\ Forall (fun e => is_setup e = true) pre).
  { destruct Hcase as [(Hn & E3 & ->) | (Hn & -> & ->)]; rewrite Hn in H3;
      cbn [ext_ret] in *; (split; [congruence | repeat constructor]). }
  destruct Hpre as [-> Hpre]. clear Hcase.
  destruct Hc as [(Hlt & _) | (_ & ->)].
  { apply Z.ltb_lt in Hlt. lia. }
  set (tasks := run_iterable K positions (nb_res nb) rot a e_mol e_prob).
  assert (Hlen : N = List.length tasks)
    by (unfold tasks; now rewrite run_iterable_length).
  assert (Hwf : forallb well_formed tasks = true).
  { apply forallb_forall. intros t Hin. apply run_iterable_In in Hin.
    destruct Hin as (pos & res & o & -> & Hi1 & _ & Hi3).
    rewrite Forall_forall in Hpos, Hrot.
    unfold well_formed, mk_task. cbn [t_pos t_rot]. apply andb_true_iff.
    split; apply Nat.leb_le; auto. }
  match goal with
  | |- context [pool_starmap W ?p ?f ?t ?s] =>
      destruct (starmap_undisturbed K W self ok N Hok Hall p t s Hlen Hwf
                  Hsched)
        as (evs & Ht & Hres & Hperm & Hexit & Hcalm);
      destruct (pool_starmap W p f t s) as [s' res]
  end.
  cbn [fst snd] in *.
  destruct (setup_quiet pre Hpre) as (Ps & Pe & Pf & Pk & Pi).
  destruct (setup_none pre Hpre) as (_ & Pc & _).
  destruct (calm_none ok evs Hcalm) as (_ & Ck & Cc).
  assert (Hex : forall post,
             (forall i p, ~ In (EvExit (Worker i) p) post) ->
             forall i p,
               In (EvExit (Worker i) p)
                  (pre ++ [EvSignal SIG_IGN; EvPool (n_procs self);
                           EvSignal (sigint st)] ++ evs ++ post)%list ->
               ok p = true).
  { intros post Hn i p Hin. rewrite !in_app_iff in Hin. simpl in Hin.
    destruct Hin as [Hin|[[Hin|[Hin|[Hin|[]]]]|[Hin|Hin]]];
      try discriminate Hin.
    - rewrite Forall_forall in Hpre. apply Hpre in Hin. discriminate.
    - exact (exits_ok_calm ok evs Hcalm i p Hin).
    - now apply Hn in Hin. }
  unfold after_starmap. cbn [fst snd].
  destruct (existsb is_failure evs) eqn:Ef.
  - subst res.
    exists (pre ++ [EvSignal SIG_IGN; EvPool (n_procs self);
                    EvSignal (sigint st)] ++ evs ++ [EvTerminate])%list.
    split.
    { simpl. rewrite Ht. simpl. rewrite <- !app_assoc. reflexivity. }
    unfold pool_closed.
    rewrite !started_app, !count_app, !existsb_app, Ps, Pe, Pf, Pk, Pc, Ck,
      Cc, Ef, Hexit.
    simpl. rewrite app_nil_r.
    repeat split; auto.
    apply Hex. intros i p [Hin|[]]. discriminate.
  - destruct Hres as (l & ->).
    exists (pre ++ [EvSignal SIG_IGN; EvPool (n_procs self);
                    EvSignal (sigint st)] ++ evs
            ++ [EvClose; EvTerminate])%list.
    split.
    { simpl. rewrite Ht. simpl. rewrite <- !app_assoc. reflexivity. }
    unfold pool_closed.
    rewrite !started_app, !count_app, !existsb_app, Ps, Pe, Pf, Pk, Ck, Ef,
      Hexit.
    simpl. rewrite app_nil_r, !orb_true_r.
    repeat split; auto.
    apply Hex. intros i p [Hin|[Hin|[]]]; discriminate.
Qed.





(** *** What each task's evaluator is given *)

Lemma lmp_command_inputs K self in_file pos rot a r e1 e2 cmd :
  lmp_command K self in_file pos rot a r e1 e2 = Ok cmd ->
  c_exe cmd = lammps_exe self /\ c_DataFile cmd = data_file self
  /\ c_MolFile cmd = mol_file self /\ c_conv cmd = KCAL_TO_EV K
  /\ nth_error pos 0 = Some (c_sasaX cmd)
  /\ nth_error pos 1 = Some (c_sasaY cmd)
  /\ nth_error pos 2 = Some (c_sasaZ cmd).
Proof.
  unfold lmp_command, index.
  destruct pos as [|x [|y [|z pos]]]; simpl; try discriminate.
  destruct rot as [|g [|vx [|vy [|vz rot]]]]; simpl; try discriminate.
  intros H. inversion H; subst; simpl. repeat split.
Qed.

Lemma in_combine_seq {A} (l : list A) k i x :
  In (i, x) (combine (seq k (List.length l)) l) ->
  k <= i /\ nth_error l (i - k) = Some x.
Proof.
  revert k; induction l as [|y l IH]; intros k H; simpl in H;
    [contradiction|].
  destruct H as [H|H].
  - inversion H; subst. rewrite Nat.sub_diag. split; [lia | reflexivity].
  - apply IH in H. destruct H as [Hk Hn]. split; [lia|].
    replace (i - k) with (S (i - S k)) by lia. exact Hn.
Qed.

Lemma in_indexed {A} (l : list A) i x :
  In (i, x) (indexed l) -> nth_error l i = Some x.
Proof.
  intros H. apply in_combine_seq in H. destruct H as [_ H].
  now rewrite Nat.sub_0_r in H.
Qed.

(** The command a worker builds for task [i] is built from the [i]-th
    task. *)
Lemma starmap_commands (K : Constants) (W : world) (self : Sasa) procs
    (tasks : list task) st :
  exists evs,
    trace (fst (pool_starmap W procs (apply_task K self) tasks st))
    = (trace st ++ evs)%list
    /\ forall i c,
         In (EvInvoke (Worker i) c) evs ->
         exists t,
           nth_error tasks i = Some t
           /\ lmp_command K self (t_in_file t) (t_pos t) (t_rot t)
                          (t_atom_number t) (t_res t) (t_e_mol t)
                          (t_e_prob t) = Ok c.
Proof.
  set (P := fun e =>
              match e with
              | EvInvoke (Worker i) c =>
                  exists t,
                    nth_error tasks i = Some t
                    /\ lmp_command K self (t_in_file t) (t_pos t) (t_rot t)
                                   (t_atom_number t) (t_res t) (t_e_mol t)
                                   (t_e_prob t) = Ok c
              | _ => True
              end).
  assert (H : pool_emits P st
                (pool_run W (Z.to_nat procs) (w_schedule W)
                   (submit (apply_task K self) tasks st))).
  { apply pool_run_emits; [exact I|]. split; [|split]; simpl.
    - apply extends_refl.
    - apply Forall_forall. intros [i m] Hin. simpl.
      apply in_indexed in Hin. rewrite nth_error_map in Hin.
      destruct (nth_error tasks i) as [t|] eqn:Et; [|discriminate].
      inversion Hin; subst m.
      apply apply_task_emits; [|repeat split].
      intros cmd Hcmd. exists t. split; assumption.
    - constructor. }
  destruct H as ((evs & Ht & Hf) & _).
  exists evs. split; [exact Ht|]. intros i c Hin.
  rewrite Forall_forall in Hf. exact (Hf _ Hin).
Qed.

(** X14: whatever the schedule and the exit statuses, the values that
    [_run_lmp] substitutes into the command line of task [i] are the first
    three components of the [i]-th position, the [i]-th residue id, the
    first four components of the [i]-th row of the rotation table, the
    atom count of the macromolecule, both baseline energies, the template
    [IN_TEMPLATE] and the executable, data file and molecule file of the
    object. This is about the values before the f-string formats them: the
    command line itself shows the floats with three decimals. *)
Theorem task_command_matches_inputs (K : Constants) (W : world)
    (self : Sasa) (positions : list (list float)) (nb : Neighbors)
    (n_probes : nat) (e_mol e_prob : float) (st : pstate) :
  let r := _exec_lammps_iterations K W self positions nb n_probes
                                   e_mol e_prob st in
  exists evs,
    trace (fst r) = (trace st ++ evs)%list
    /\ forall i c,
         In (EvInvoke (Worker i) c) evs ->
         exists pos res rot o,
           nth_error positions i = Some pos
           /\ nth_error (nb_res nb) i = Some res
           /\ (rot = default_rotations n_probes
               \/ w_extern W (RotateProbe (path self) (data_file self)
                                          positions nb) = Ok rot)
           /\ nth_error rot i = Some o
           /\ nth_error pos 0 = Some (c_sasaX c)
           /\ nth_error pos 1 = Some (c_sasaY c)
           /\ nth_error pos 2 = Some (c_sasaZ c)
           /\ nth_error o 0 = Some (c_rotAng c)
           /\ rot_axis o = Some (c_rotVecX c, c_rotVecY c, c_rotVecZ c)
           /\ c_res c = res
           /\ w_extern W (CountAtomsInMacromol
                            (os_path_join (path self) (data_file self)))
              = Ok (c_atom_number c)
           /\ c_in c = IN_TEMPLATE K
           /\ c_emol c = e_mol /\ c_eprob c = e_prob
           /\ c_exe c = lammps_exe self /\ c_DataFile c = data_file self
           /\ c_MolFile c = mol_file self.
Proof.
  intros r. subst r.
  assert (Hno : forall l, Forall (fun e => is_setup e = true) l ->
                  forall i c,
                    In (EvInvoke (Worker i) c) l ->
                    exists pos res rot o,
                      nth_error positions i = Some pos
                      /\ nth_error (nb_res nb) i = Some res
                      /\ (rot = default_rotations n_probes
                          \/ w_extern W (RotateProbe (path self)
                                           (data_file self) positions nb)
                             = Ok rot)
                      /\ nth_error rot i = Some o
                      /\ nth_error pos 0 = Some (c_sasaX c)
                      /\ nth_error pos 1 = Some (c_sasaY c)
                      /\ nth_error pos 2 = Some (c_sasaZ c)
                      /\ nth_error o 0 = Some (c_rotAng c)
                      /\ rot_axis o
                         = Some (c_rotVecX c, c_rotVecY c, c_rotVecZ c)
                      /\ c_res c = res
                      /\ w_extern W (CountAtomsInMacromol
                                       (os_path_join (path self)
                                                     (data_file self)))
                         = Ok (c_atom_number c)
                      /\ c_in c = IN_TEMPLATE K
                      /\ c_emol c = e_mol /\ c_eprob c = e_prob
                      /\ c_exe c = lammps_exe self
                      /\ c_DataFile c = data_file self
                      /\ c_MolFile c = mol_file self).
  { intros l Hl i c Hin. destruct (setup_quiet l Hl) as (_ & _ & _ & _ & Hk).
    now apply Hk in Hin. }
  destruct (exec_cases K W self positions nb n_probes e_mol e_prob st)
    as [(e & E1 & _ & Hs & Ht)
       | (a & E1 & [(e & E2 & _ & Hs & Ht) | (n & E2 & Hc)])].
  - eexists. split; [exact Ht|]. apply Hno. repeat constructor.
  - eexists. split; [exact Ht|]. apply Hno. repeat constructor.
  - destruct Hc as [(e & _ & _ & _ & Hs & Ht) | (rot & pre & Hrot & Hc)].
    { eexists. split; [exact Ht|]. apply Hno. repeat constructor. }
    assert (Hpre : Forall (fun e => is_setup e = true)
                     (pre ++ [EvSignal SIG_IGN])%list
                   /\ (rot = default_rotations n_probes
                       \/ w_extern W (RotateProbe (path self)
                                        (data_file self) positions nb)
                          = Ok rot))
      by (destruct Hrot as [(_ & E3 & ->) | (_ & -> & ->)];
          (split; [repeat constructor | auto])).
    destruct Hpre as [Hpre Hrot'].
    destruct Hc as [(_ & _ & _ & Ht) | (_ & ->)].
    { eexists. split; [exact Ht|]. apply Hno. exact Hpre. }
    set (tasks := run_iterable K positions (nb_res nb) rot a e_mol e_prob).
    match goal with
    | |- context [pool_starmap W ?p ?f ?t ?s] =>
        set (rp := pool_starmap W p f t s);
        destruct (starmap_commands K W self p t s) as (evs & Ht & Hcmd)
    end.
    fold rp in Ht.
    destruct (after_starmap_trace rp) as (_ & post & Hpost & _).
    assert (Hpost' : forall i c, ~ In (EvInvoke (Worker i) c) post).
    { unfold after_starmap in Hpost.
      destruct (snd rp) as [l|[]]; simpl in Hpost;
        rewrite <- ?app_assoc in Hpost; apply app_inv_head in Hpost;
        subst post; intros i c Hin; simpl in Hin;
        repeat (destruct Hin as [Hin|Hin]; [discriminate|]);
        contradiction. }
    exists (pre ++ [EvSignal SIG_IGN; EvPool (n_procs self);
                    EvSignal (sigint st)] ++ evs ++ post)%list.
    split.
    { rewrite Hpost, Ht. simpl. rewrite <- !app_assoc. reflexivity. }
    intros i c Hin.
    apply Forall_app in Hpre. destruct Hpre as [Hpre _].
    destruct (setup_quiet pre Hpre) as (_ & _ & _ & _ & Hk).
    rewrite !in_app_iff in Hin. simpl in Hin.
    destruct Hin as [Hin|[[Hin|[Hin|[Hin|[]]]]|[Hin|Hin]]];
      try discriminate Hin;
      [now apply Hk in Hin | | now apply Hpost' in Hin].
    destruct (Hcmd i c Hin) as (t & Hnth & Hc).
    unfold tasks in Hnth. rewrite run_iterable_nth in Hnth.
    destruct (nth_error positions i) as [pos|] eqn:Ep; [|discriminate].
    destruct (nth_error (nb_res nb) i) as [res|] eqn:Er; [|discriminate].
    destruct (nth_error rot i) as [o|] eqn:Eo; [|discriminate].
    inversion Hnth; subst t. simpl in Hc.
    destruct (lmp_command_fields _ _ _ _ _ _ _ _ _ _ Hc)
      as (F1 & F2 & F3 & F4 & F5 & F6 & F7).
    destruct (lmp_command_inputs _ _ _ _ _ _ _ _ _ _ Hc)
      as (G1 & G2 & G3 & _ & G5 & G6 & G7).
    exists pos, res, rot, o. cbn [ext_ret] in *.
    repeat split; auto. congruence.
Qed.

(** *** The whole run *)

Lemma mbind_result {A B} (m : M A) (f : A -> M B) st :
  mbind m f st
  = match snd (m st) with
    | Ok a => f a (fst (m st))
    | Raise e => (fst (m st), Raise e)
    end.
Proof. unfold mbind. now destruct (m st) as [st' [a|e]]. Qed.

Lemma prepares_refl st : prepares st st.
Proof. split; [reflexivity | apply extends_refl]. Qed.

Lemma prepares_trans a b c : prepares a b -> prepares b c -> prepares a c.
Proof.
  intros [S1 E1] [S2 E2]. split; [congruence|].
  eapply extends_trans; eassumption.
Qed.

Lemma prepares_call c st : prepares st (emit (EvCall c) st).
Proof. split; [reflexivity | now apply extends_emit]. Qed.

Lemma run_main_sigint (W : world) {A} (m : io A) st :
  sigint (fst (run_main W m st)) = sigint st.
Proof.
  revert st; induction m as [a|e|c k IH|s k IH|pid sig k IH]; intros st;
    simpl; auto.
  - rewrite IH.
    now destruct (evaluator_exit_trace W Main (invocations st) c
                    (start_evaluator Main c st)) as [_ ->].
  - rewrite IH. now destruct (w_print W s).
  - destruct (_ && _ && _)%bool; simpl; [|rewrite IH];
      now destruct (kill_outcome W pid sig).
Qed.

Lemma pre_calc_prepares (K : Constants) (W : world) (self : Sasa) st :
  prepares st (fst (_pre_calc K W self st)).
Proof.
  split.
  - unfold _pre_calc. rewrite mbind_result.
    pose proof (run_main_sigint W
                  (_run_lmp K self (IN_PRE K) [f0; f0; f0] [f0; f1; f0; f0]
                            0 0 f0 f0) st) as Hs.
    destruct (snd (run_main W _ st)); simpl; [|exact Hs].
    rewrite mbind_result. simpl.
    destruct (w_extern W (ReadLastTwo (path self) "etot")); simpl;
      exact Hs.
  - revert st.
    change (m_extends (fun e => is_preparation e = true)
              (_pre_calc K W self)).
    unfold _pre_calc. rewrite pre_calc_command_eq.
    apply m_extends_bind.
    + apply m_extends_run_main. apply run_lmp_body_emits; reflexivity.
    + intros _. apply m_extends_bind.
      * exact (m_extends_extern W _ (ReadLastTwo _ _) eq_refl).
      * intros e. apply m_extends_ret.
Qed.

Lemma preparation_none (l : list event) :
  Forall (fun e => is_preparation e = true) l ->
  count is_write l = 0 /\ count is_task_invoke l = 0
  /\ existsb is_readable_failure l = false
  /\ existsb is_close l = false
  /\ forall f s, ~ In (EvWrite f s) l.
Proof.
  unfold count.
  induction 1 as [|e l He _ (I1 & I2 & I3 & I4 & I5)]; simpl.
  - repeat split. intros f s [].
  - rewrite I3, I4.
    destruct e as [| | | |[|i] c|[|i] p|[|i] r|[|i] s|[|i] pid sig| | |];
      simpl in *; try discriminate;
      (repeat split; auto; intros f' s' [H|H];
       [discriminate | now apply (I5 f' s')]).
Qed.

Section Process.

Variable K : Constants.
Variable W : world.
Variable self : Sasa.

(** [_process] either stops at a collaborator or in the baseline run,
    before the scheduler is entered, or it runs the scheduler on the sample
    positions; an exception from the scheduler ends the run, a return is
    followed by the postprocessing calls. *)
Lemma process_cases st :
  let r := _process K W self st in
  (exists e, prepares st (fst r) /\ snd r = Raise e)
  \/ exists s e xyz positions nb,
       prepares st s
       /\ w_extern W (ConvertDataFile (path self) (data_file self)) = Ok xyz
       /\ w_extern W (CreateSasaXyz (path self) xyz (srad self)
                                    (samples self)) = Ok positions
       /\ w_extern W (NeighborFinder (path self) (data_file self) positions)
          = Ok nb
       /\ (sigint st = default_int_handler ->
           parent_pid self = w_pid W ->
           returncode (w_lammps W (invocations st) (baseline_cmd K self))
           = 0%Z)
       /\ let x := _exec_lammps_iterations K W self positions nb
                     (List.length positions) (fst e) (snd e) s in
          match snd x with
          | Raise ex => r = (fst x, Raise ex)
          | Ok _ =>
              exists post,
                trace (fst r)
                = (trace (fst x)
                   ++ EvCall (Postprocessing "neighbor_analysis")
                   :: post)%list
                /\ Forall (fun e => is_preparation e = true) post
                /\ ((forall name,
                       w_extern W (Postprocessing name) = Ok tt) ->
                    snd r = Ok 0%Z)
          end.
Proof.
  cbv zeta. unfold _process.
  destruct (w_extern W (Gro2lammps (path self) (gro_file self)
                                   (data_file self))) as [[]|e] eqn:E1.
  2:{ rewrite (mbind_extern_raise W _ _ _ _ E1). left. exists e.
      split; [apply prepares_call | reflexivity]. }
  rewrite (mbind_extern_ok W _ _ _ _ E1).
  set (s1 := emit _ st).
  assert (P1 : prepares st s1) by apply prepares_call.
  destruct (w_extern W (CheckFiles (path self))) as [[]|e] eqn:E2.
  2:{ rewrite (mbind_extern_raise W _ _ _ _ E2). left. exists e.
      split; [|reflexivity].
      eapply prepares_trans; [exact P1 | apply prepares_call]. }
  rewrite (mbind_extern_ok W _ _ _ _ E2).
  set (s2 := emit _ s1).
  assert (P2 : prepares st s2)
    by (eapply prepares_trans; [exact P1 | apply prepares_call]).
  destruct (w_extern W (WriteParamsFile (ff_str self) (FF_PARAMS K)))
    as [[]|e] eqn:E3.
  2:{ rewrite (mbind_extern_raise W _ _ _ _ E3). left. exists e.
      split; [|reflexivity].
      eapply prepares_trans; [exact P2 | apply prepares_call]. }
  rewrite (mbind_extern_ok W _ _ _ _ E3).
  set (s3 := emit _ s2).
  assert (P3 : prepares st s3)
    by (eapply prepares_trans; [exact P2 | apply prepares_call]).
  destruct (w_extern W (WriteParamsFile (dump_str self) (DUMP_COM K)))
    as [[]|e] eqn:E4.
  2:{ rewrite (mbind_extern_raise W _ _ _ _ E4). left. exists e.
      split; [|reflexivity].
      eapply prepares_trans; [exact P3 | apply prepares_call]. }
  rewrite (mbind_extern_ok W _ _ _ _ E4).
  set (s4 := emit _ s3).
  assert (P4 : prepares st s4)
    by (eapply prepares_trans; [exact P3 | apply prepares_call]).
  assert (I4 : invocations s4 = invocations st) by reflexivity.
  rewrite mbind_result.
  pose proof (pre_calc_prepares K W self s4) as P5.
  destruct (snd (_pre_calc K W self s4)) as [en|e] eqn:E5.
  2:{ left. exists e. split; [|reflexivity].
      eapply prepares_trans; eassumption. }
  set (s5 := fst (_pre_calc K W self s4)) in *.
  assert (P5' : prepares st s5) by (eapply prepares_trans; eassumption).
  assert (Hbase : sigint st = default_int_handler ->
                  parent_pid self = w_pid W ->
                  returncode (w_lammps W (invocations st)
                                       (baseline_cmd K self)) = 0%Z).
  { intros Hsig Hpid. rewrite <- I4.
    unfold _pre_calc in E5. rewrite pre_calc_command_eq in E5.
    apply mbind_ok_inv in E5. destruct E5 as (v & Hv & _).
    refine (proj1 (run_main_body_ok W self _ s4 v _ Hpid Hv)).
    destruct P4 as [-> _]. exact Hsig. }
  destruct (w_extern W (ConvertDataFile (path self) (data_file self)))
    as [xyz|e] eqn:E6.
  2:{ rewrite (mbind_extern_raise W _ _ _ _ E6). left. exists e.
      split; [|reflexivity].
      eapply prepares_trans; [exact P5' | apply prepares_call]. }
  rewrite (mbind_extern_ok W _ _ _ _ E6).
  set (s6 := emit _ s5).
  assert (P6 : prepares st s6)
    by (eapply prepares_trans; [exact P5' | apply prepares_call]).
  destruct (w_extern W (CreateSasaXyz (path self) xyz (srad self)
                                      (samples self)))
    as [positions|e] eqn:E7.
  2:{ rewrite (mbind_extern_raise W _ _ _ _ E7). left. exists e.
      split; [|reflexivity].
      eapply prepares_trans; [exact P6 | apply prepares_call]. }
  rewrite (mbind_extern_ok W _ _ _ _ E7).
  set (s7 := emit _ s6).
  assert (P7 : prepares st s7)
    by (eapply prepares_trans; [exact P6 | apply prepares_call]).
  cbv zeta.
  destruct (w_extern W (NeighborFinder (path self) (data_file self)
                                       positions)) as [nb|e] eqn:E8.
  2:{ rewrite (mbind_extern_raise W _ _ _ _ E8). left. exists e.
      split; [|reflexivity].
      eapply prepares_trans; [exact P7 | apply prepares_call]. }
  rewrite (mbind_extern_ok W _ _ _ _ E8).
  set (s8 := emit _ s7).
  assert (P8 : prepares st s8)
    by (eapply prepares_trans; [exact P7 | apply prepares_call]).
  right. exists s8, en, xyz, positions, nb.
  split; [exact P8|]. split; [reflexivity|]. split; [exact E7|].
  split; [exact E8|]. split; [exact Hbase|].
  rewrite mbind_result.
  destruct (snd (_exec_lammps_iterations K W self positions nb
                   (List.length positions) (fst en) (snd en) s8))
    as [v|ex]; [|reflexivity].
  set (sx := fst (_exec_lammps_iterations K W self positions nb
                    (List.length positions) (fst en) (snd en) s8)).
  rewrite mbind_result.
  set (rest := mbind (extern W (Postprocessing "atom_analysis")) _).
  assert (Hrest : m_extends (fun e => is_preparation e = true) rest).
  { subst rest.
    repeat (apply m_extends_bind;
            [exact (m_extends_extern W _ (Postprocessing _) eq_refl)
            |intros _]).
    apply m_extends_ret. }
  assert (Hx : extern W (Postprocessing "neighbor_analysis") sx
               = (emit (EvCall (Postprocessing "neighbor_analysis")) sx,
                  w_extern W (Postprocessing "neighbor_analysis")))
    by reflexivity.
  rewrite Hx. clear Hx. cbn [fst snd].
  destruct (w_extern W (Postprocessing "neighbor_analysis")) as [[]|e]
    eqn:E9.
  - destruct (Hrest (emit (EvCall (Postprocessing "neighbor_analysis")) sx))
      as (post & Ht & Hf).
    exists post. split; [|split; [exact Hf|]].
    + rewrite Ht. simpl. rewrite <- app_assoc. reflexivity.
    + intros Hall. subst rest.
      rewrite !(mbind_extern_ok W (Postprocessing _) _ _ tt (Hall _)).
      reflexivity.
  - exists []. split; [reflexivity|]. split; [constructor|].
    intros Hall. rewrite Hall in E9. discriminate.
Qed.

End Process.

Lemma snd_mbind_ret {A B} (m : M A) (b : B) st :
  snd (mbind m (fun _ => ret b) st)
  = match snd (m st) with Ok _ => Ok b | Raise e => Raise e end.
Proof. unfold mbind, ret. now destruct (m st) as [st' [a|e]]. Qed.





(** X17: in a run of [sasa] the output file is written at most once, by
    the scheduler: to [SPEC] in the working directory, with the header
    that counts the sample positions [_create_sasa_xyz] returned, however
    many tasks the zip leaves. *)
Theorem header_counts_sample_positions (K : Constants) (W : world)
    (gro data mol ff dump exe : string) (procs : Z) (rad : float) (smp : Z)
    (dir : string) (st : pstate) :
  let r := sasa K W gro data mol ff dump exe procs rad smp dir st in
  exists evs,
    trace (fst r) = (trace st ++ evs)%list
    /\ count is_write evs <= 1
    /\ forall f text,
         In (EvWrite f text) evs ->
         f = os_path_join dir (SPEC K)
         /\ exists xyz positions,
              w_extern W (ConvertDataFile dir data) = Ok xyz
              /\ w_extern W (CreateSasaXyz dir xyz rad smp) = Ok positions
              /\ text = header (List.length positions).
Proof.
  intros r. subst r. unfold sasa. rewrite fst_mbind_ret.
  set (self := Sasa_init W gro data mol ff dump exe procs rad smp dir).
  destruct (process_cases K W self st)
    as [(e & (_ & evs & Ht & Hf) & Hr)
       | (s & en & xyz & positions & nb & (Hs & pre & Hpre & Fpre) & E6 & E7
          & _ & _ & Hx)].
  - exists evs. split; [exact Ht|].
    destruct (preparation_none evs Hf) as (-> & _ & _ & _ & Hw).
    split; [lia|]. intros f text Hin. now apply Hw in Hin.
  - destruct (preparation_none pre Fpre) as (Pw & _ & _ & _ & Pn).
    cbv zeta in Hx.
    set (x := _exec_lammps_iterations K W self positions nb
                (List.length positions) (fst en) (snd en) s) in *.
    assert (Htail : exists tail,
               trace (fst (_process K W self st))
               = (trace (fst x) ++ tail)%list
               /\ Forall (fun e => is_preparation e = true) tail).
    { destruct (snd x) as [v|ex].
      - destruct Hx as (post & Ht & Fpost & _).
        exists (EvCall (Postprocessing "neighbor_analysis") :: post).
        split; [exact Ht | constructor; [reflexivity | exact Fpost]].
      - exists []. rewrite Hx. split; [now rewrite app_nil_r | constructor]. }
    destruct Htail as (tail & Ht & Ftail).
    destruct (preparation_none tail Ftail) as (Tw & _ & _ & _ & Tn).
    pose proof (exec_trace K W (fun e => is_write e = false) self positions
                  nb (List.length positions) (fst en) (snd en)
                  not_write_parent) as H1.
    specialize (H1 ltac:(intros; apply apply_task_emits; repeat split) s).
    cbv zeta in H1. fold x in H1.
    destruct (w_extern W (CountAtomsInMacromol _)) as [a|e].
    + destruct H1 as (evx & Htx & Fx).
      eexists. split.
      { rewrite Ht, Htx, Hpre, <- !app_assoc. reflexivity. }
      split.
      { rewrite !count_app, Pw, !count_cons, Tw, (count_none _ _ Fx).
        simpl. lia. }
      intros f text Hin. rewrite !in_app_iff in Hin. simpl in Hin.
      destruct Hin as [Hin|[[Hin|[Hin|Hin]]|Hin]].
      * now apply Pn in Hin.
      * discriminate Hin.
      * inversion Hin; subst f text. split; [reflexivity|].
        exists xyz, positions. repeat split; assumption.
      * rewrite Forall_forall in Fx. apply Fx in Hin. discriminate.
      * now apply Tn in Hin.
    + destruct H1 as [Htx _].
      eexists. split.
      { rewrite Ht, Htx, Hpre, <- !app_assoc. reflexivity. }
      split.
      { rewrite !count_app, Pw, Tw. simpl. lia. }
      intros f text Hin. rewrite !in_app_iff in Hin. simpl in Hin.
      destruct Hin as [Hin|[[Hin|[]]|Hin]].
      * now apply Pn in Hin.
      * discriminate Hin.
      * now apply Tn in Hin.
Qed.
